(** * Mastermind solver (main_Gui.py): feedback scorer, knowledge base,
      guess selector, automated run and input parser.

    The development follows the Python source: the names are the source's
    names, Python integers are [Z] where they come from outside (feedback
    numbers) and [nat] where they are counters and lengths, the candidate set
    is a duplicate-free list, and the random module is an arbitrary
    deterministic generator threaded through the calls. *)

From Stdlib Require Import String Ascii.
From Stdlib Require Import List ZArith Lia Bool Arith Permutation.
Import ListNotations.

Local Open Scope Z_scope.

(** ** Colours and combinations *)

(** The six entries of [COLORES]; a combination is a 4-tuple of them. *)
Inductive Color : Type := azul | rojo | blanco | negro | verde | purpura.

Definition COLORES : list Color := [azul; rojo; blanco; negro; verde; purpura].

Definition Color_eqb (a b : Color) : bool :=
  match a, b with
  | azul, azul | rojo, rojo | blanco, blanco
  | negro, negro | verde, verde | purpura, purpura => true
  | _, _ => false
  end.

Definition Color_eq_dec (a b : Color) : {a = b} + {a <> b}.
Proof. decide equality. Defined.

Definition Combinacion : Type := (Color * Color * Color * Color)%type.

Definition Combinacion_eq_dec (x y : Combinacion) : {x = y} + {x <> y}.
Proof. repeat decide equality. Defined.

Definition Combinacion_eqb (x y : Combinacion) : bool :=
  let '(a, b, c, d) := x in
  let '(a', b', c', d') := y in
  Color_eqb a a' && Color_eqb b b' && Color_eqb c c' && Color_eqb d d'.

(** [combinacion[i]] for [i] in [range(4)] (the only indices the source
    uses). *)
Definition elem (x : Combinacion) (i : nat) : Color :=
  let '(a, b, c, d) := x in
  match i with
  | O => a
  | 1%nat => b
  | 2%nat => c
  | _ => d
  end.

(** ** The feedback scorer *)

(** A counter dictionary [{color: 0 for color in COLORES}]: every colour is a
    key from the start, so the dictionary is a total map. *)
Definition Contador : Type := Color -> Z.

Definition contador_cero : Contador := fun _ => 0.

(** [counter[k] += 1] *)
Definition incrementar (m : Contador) (k : Color) : Contador :=
  fun color => if Color_eqb color k then m color + 1 else m color.

(** The local variables of the scoring loop. *)
Record Conteo : Type := mkConteo {
  pos_correctas : Z;
  counter1 : Contador;
  counter2 : Contador
}.

Definition conteo_inicial : Conteo := mkConteo 0 contador_cero contador_cero.

(** The body of [for i in range(4)]. *)
Definition paso_conteo (c1 c2 : Combinacion) (st : Conteo) (i : nat) : Conteo :=
  if Color_eqb (elem c1 i) (elem c2 i)
  then mkConteo (pos_correctas st + 1) (counter1 st) (counter2 st)
  else mkConteo (pos_correctas st)
         (incrementar (counter1 st) (elem c1 i))
         (incrementar (counter2 st) (elem c2 i)).

(** The loop itself; the source writes it out three times (in
    [_coincide_feedback], [siguiente_combinacion] and [evaluar_combinacion])
    with the same text. *)
Definition contar (c1 c2 : Combinacion) : Conteo :=
  fold_left (paso_conteo c1 c2) (seq 0 4) conteo_inicial.

(** Python's [sum] over a generator: left to right, from 0. *)
Definition sum (l : list Z) : Z := fold_left Z.add l 0.

(** [sum(min(counter1[color], counter2[color]) for color in COLORES)] *)
Definition colores_comunes (st : Conteo) : Z :=
  sum (map (fun color => Z.min (counter1 st color) (counter2 st color)) COLORES).

(** [MastermindSolver.evaluar_combinacion] *)
Definition evaluar_combinacion (combinacion combinacion_secreta : Combinacion)
  : Z * Z :=
  let st := contar combinacion combinacion_secreta in
  (pos_correctas st, colores_comunes st).

(** [MastermindKB._coincide_feedback] *)
Definition _coincide_feedback (combinacion1 combinacion2 : Combinacion)
  (posiciones_correctas colores_correctos : Z) : bool :=
  let st := contar combinacion1 combinacion2 in
  (pos_correctas st =? posiciones_correctas)
  && (colores_comunes st =? colores_correctos).

(** ** The reference score, as the specification words it *)

Module Referencia.

(** The positions [0..3] where the two codes agree, and those where they do
    not. *)
Definition coinciden (guess target : Combinacion) : list nat :=
  filter (fun i => Color_eqb (elem guess i) (elem target i)) (seq 0 4).

Definition sobrantes (guess target : Combinacion) : list nat :=
  filter (fun i => negb (Color_eqb (elem guess i) (elem target i))) (seq 0 4).

(** Occurrences of a symbol in a list of symbols. *)
Definition ocurrencias (s : Color) (l : list Color) : Z :=
  Z.of_nat (count_occ Color_eq_dec l s).

Definition exact_matches (guess target : Combinacion) : Z :=
  Z.of_nat (length (coinciden guess target)).

Definition color_matches (guess target : Combinacion) : Z :=
  fold_right Z.add 0
    (map (fun s =>
            Z.min (ocurrencias s (map (elem guess) (sobrantes guess target)))
                  (ocurrencias s (map (elem target) (sobrantes guess target))))
         COLORES).

Definition score (guess target : Combinacion) : Z * Z :=
  (exact_matches guess target, color_matches guess target).

End Referencia.

(** ** The knowledge base *)

(** [list(itertools.product(COLORES, repeat=4))]: the 1296 combinations in
    lexicographic order, the last position varying fastest. *)
Definition producto : list Combinacion :=
  flat_map (fun a =>
    flat_map (fun b =>
      flat_map (fun c =>
        map (fun d => (a, b, c, d)) COLORES) COLORES) COLORES) COLORES.

(** The two fields of [MastermindKB] that the program reads. The candidate
    set [combinaciones_posibles] is a Python [set]: here a list without
    duplicates, whose length is the set's [len]. The fields [knowledge] and
    [symbols] are written once and never read. *)
Record MastermindKB : Type := mkKB {
  todas_combinaciones : list Combinacion;
  combinaciones_posibles : list Combinacion
}.

(** [MastermindKB()]: the default factory and [__post_init__], where
    [set(self.todas_combinaciones)] drops duplicates. *)
Definition MastermindKB_nueva : MastermindKB :=
  mkKB producto (nodup Combinacion_eq_dec producto).

(** What [actualizar_con_feedback] tells the user: nothing, or one of its two
    [messagebox.showwarning] dialogs. *)
Inductive Aviso : Type :=
| SinAviso
| FeedbackInvalido
| SinCoincidencias.

Definition vacia {A : Type} (l : list A) : bool :=
  match l with
  | [] => true
  | _ :: _ => false
  end.

(** [MastermindKB.actualizar_con_feedback]; [_agregar_restriccion_logica] is
    [pass]. *)
Definition actualizar_con_feedback (kb : MastermindKB) (combinacion : Combinacion)
  (posiciones_correctas colores_correctos : Z) : MastermindKB * Aviso :=
  if posiciones_correctas + colores_correctos >? 4
  then (kb, FeedbackInvalido)
  else
    let nuevas_combinaciones :=
      filter (fun candidato =>
                _coincide_feedback combinacion candidato
                  posiciones_correctas colores_correctos)
             (combinaciones_posibles kb) in
    if vacia nuevas_combinaciones && negb (vacia (combinaciones_posibles kb))
    then (kb, SinCoincidencias)
    else (mkKB (todas_combinaciones kb) nuevas_combinaciones, SinAviso).

(** [MastermindKB.tamano_espacio_busqueda] *)
Definition tamano_espacio_busqueda (kb : MastermindKB) : nat :=
  length (combinaciones_posibles kb).

(** ** The random module *)

(** The generator behind [random]: a state and a function that draws one
    number from it. Any sequence of draws is the behaviour of some generator. *)
Record Azar : Type := mkAzar {
  Estado : Type;
  extraer : Estado -> nat * Estado
}.

(** A number below [n]: the draw reduced modulo [n] (no call site reaches it
    with [n = 0]). *)
Definition randbelow (G : Azar) (n : nat) (s : Estado G) : nat * Estado G :=
  let (r, s') := extraer G s in (Nat.modulo r n, s').

(** [random.choice(seq)]: [None] is the [IndexError] on an empty sequence. *)
Definition choice {A : Type} (G : Azar) (seq : list A) (s : Estado G)
  : option (A * Estado G) :=
  match seq with
  | [] => None
  | _ :: _ =>
      let (j, s') := randbelow G (length seq) s in
      match nth_error seq j with
      | Some x => Some (x, s')
      | None => None
      end
  end.

(** Remove the element at position [j]. *)
Fixpoint quitar {A : Type} (j : nat) (l : list A) : list A :=
  match l, j with
  | [], _ => []
  | _ :: r, O => r
  | x :: r, S j' => x :: quitar j' r
  end.

(** [k] elements at distinct positions of [pool], in the order drawn: each
    draw picks a position among those left. Every selection of [k] distinct
    positions is the outcome for some sequence of draws, which is what the
    library promises of a sample without replacement. *)
Fixpoint sample_desde {A : Type} (G : Azar) (k : nat) (pool : list A)
  (s : Estado G) : option (list A * Estado G) :=
  match k with
  | O => Some ([], s)
  | S k' =>
      let (j, s1) := randbelow G (length pool) s in
      match nth_error pool j with
      | None => None
      | Some x =>
          match sample_desde G k' (quitar j pool) s1 with
          | None => None
          | Some (resto, s2) => Some (x :: resto, s2)
          end
      end
  end.

(** [random.sample(population, k)]: selection without replacement; [None] is
    the [ValueError] when the sample is larger than the population. *)
Definition sample {A : Type} (G : Azar) (population : list A) (k : nat)
  (s : Estado G) : option (list A * Estado G) :=
  if (length population <? k)%nat then None
  else sample_desde G k population s.

(** ** The guess selector *)

(** The dictionary [resultados], from a feedback pair to a count. *)
Definition Resultados : Type := list ((Z * Z) * nat).

Definition feedback_eqb (f g : Z * Z) : bool :=
  (fst f =? fst g) && (snd f =? snd g).

(** [resultados[feedback]] when the key is present. *)
Fixpoint buscar (feedback : Z * Z) (resultados : Resultados) : option nat :=
  match resultados with
  | [] => None
  | (k, v) :: r => if feedback_eqb feedback k then Some v else buscar feedback r
  end.

(** [resultados[feedback] = v] *)
Fixpoint asignar (feedback : Z * Z) (v : nat) (resultados : Resultados)
  : Resultados :=
  match resultados with
  | [] => [(feedback, v)]
  | (k, w) :: r =>
      if feedback_eqb feedback k then (k, v) :: r
      else (k, w) :: asignar feedback v r
  end.

(** The body of the loop over the sampled candidates: score the probe
    against the candidate, count the feedback, keep the largest count. *)
Definition paso_candidato (combinacion : Combinacion)
  (st : Resultados * nat) (candidato : Combinacion) : Resultados * nat :=
  let '(resultados, max_conjunto_restante) := st in
  let cnt := contar combinacion candidato in
  let feedback := (pos_correctas cnt, colores_comunes cnt) in
  let resultados0 :=
    match buscar feedback resultados with
    | None => asignar feedback O resultados
    | Some _ => resultados
    end in
  let v :=
    match buscar feedback resultados0 with
    | Some n => S n
    | None => 1%nat
    end in
  (asignar feedback v resultados0, Nat.max max_conjunto_restante v).

(** [x < mejor_puntuacion], where [None] is [float('inf')]. *)
Definition menor_que (x : nat) (mejor_puntuacion : option nat) : bool :=
  match mejor_puntuacion with
  | None => true
  | Some m => (x <? m)%nat
  end.

(** The loop over [combinaciones_a_evaluar]; [orden posibles] is
    [list(self.combinaciones_posibles)]. *)
Fixpoint evaluar_sondas (G : Azar)
  (orden : list Combinacion -> list Combinacion) (posibles : list Combinacion)
  (combinaciones_a_evaluar : list Combinacion)
  (mejor_combinacion : option Combinacion) (mejor_puntuacion : option nat)
  (s : Estado G) : option (option Combinacion * Estado G) :=
  match combinaciones_a_evaluar with
  | [] => Some (mejor_combinacion, s)
  | combinacion :: resto =>
      match sample G (orden posibles) (Nat.min 50 (length posibles)) s with
      | None => None
      | Some (muestra, s1) =>
          let max_conjunto_restante :=
            snd (fold_left (paso_candidato combinacion) muestra ([], O)) in
          if menor_que max_conjunto_restante mejor_puntuacion
          then evaluar_sondas G orden posibles resto
                 (Some combinacion) (Some max_conjunto_restante) s1
          else evaluar_sondas G orden posibles resto
                 mejor_combinacion mejor_puntuacion s1
      end
  end.

(** [tuple(random.choice(COLORES) for _ in range(4))] *)
Definition combinacion_al_azar (G : Azar) (s : Estado G)
  : option (Combinacion * Estado G) :=
  match choice G COLORES s with
  | None => None
  | Some (a, s1) =>
      match choice G COLORES s1 with
      | None => None
      | Some (b, s2) =>
          match choice G COLORES s2 with
          | None => None
          | Some (c, s3) =>
              match choice G COLORES s3 with
              | None => None
              | Some (d, s4) => Some ((a, b, c, d), s4)
              end
          end
      end
  end.

(** The fixed opening probe. *)
Definition apertura : Combinacion := (azul, azul, rojo, verde).

(** [MastermindKB.siguiente_combinacion]. The order in which Python iterates
    over a set is not specified: [orden] gives it, as the list that
    [list(self.combinaciones_posibles)] builds. [None] is an exception
    ([IndexError], [ValueError], [StopIteration]). The warning dialog of the
    empty case is not recorded. *)
Definition siguiente_combinacion (G : Azar)
  (orden : list Combinacion -> list Combinacion)
  (kb : MastermindKB) (s : Estado G) : option (Combinacion * Estado G) :=
  let posibles := combinaciones_posibles kb in
  let n := length posibles in
  if vacia posibles then combinacion_al_azar G s
  else if (n =? length (todas_combinaciones kb))%nat then Some (apertura, s)
  else if (n <=? 2)%nat then
    match orden posibles with
    | x :: _ => Some (x, s)
    | [] => None
    end
  else if (n <=? 10)%nat then choice G (orden posibles) s
  else
    match sample G
            (if (n <=? 50)%nat then orden posibles else todas_combinaciones kb)
            (Nat.min 20 n) s with
    | None => None
    | Some (combinaciones_a_evaluar, s1) =>
        match evaluar_sondas G orden posibles combinaciones_a_evaluar
                None None s1 with
        | None => None
        | Some (Some mejor_combinacion, s2) => Some (mejor_combinacion, s2)
        | Some (None, s2) => choice G (orden posibles) s2
        end
    end.

(** ** The solver *)

(** [MastermindSolver]: its three fields. *)
Record MastermindSolver : Type := mkSolver {
  kb : MastermindKB;
  intentos : nat;
  historia_espacio_busqueda : list nat
}.

(** The state that [modo_automatico] sets up before its loop. *)
Definition solver_inicial : MastermindSolver :=
  mkSolver MastermindKB_nueva O [tamano_espacio_busqueda MastermindKB_nueva].

(** What one pass through the body of [while True] does: return the result,
    go round again with a new solver and generator state, or raise. *)
Inductive Vuelta (G : Azar) : Type :=
| Retorna (resultado : nat * list nat)
| Continua (sv : MastermindSolver) (s : Estado G)
| Lanza.

Arguments Retorna {G} resultado.
Arguments Continua {G} sv s.
Arguments Lanza {G}.

(** The body of the loop of [modo_automatico] (the log callback only
    reports). *)
Definition vuelta (G : Azar) (orden : list Combinacion -> list Combinacion)
  (combinacion_secreta : Combinacion) (sv : MastermindSolver) (s : Estado G)
  : Vuelta G :=
  let n := S (intentos sv) in
  match siguiente_combinacion G orden (kb sv) s with
  | None => Lanza
  | Some (combinacion, s') =>
      let '(posiciones_correctas, colores_correctos) :=
        evaluar_combinacion combinacion combinacion_secreta in
      if posiciones_correctas =? 4
      then Retorna (n, historia_espacio_busqueda sv)
      else
        let kb' := fst (actualizar_con_feedback (kb sv) combinacion
                          posiciones_correctas colores_correctos) in
        Continua
          (mkSolver kb' n
             (historia_espacio_busqueda sv ++ [tamano_espacio_busqueda kb']))
          s'
  end.

(** The outcome of a run that is allowed a given number of passes. *)
Inductive Salida : Type :=
| Devuelve (resultado : nat * list nat)
| Excepcion
| SinTerminar.

(** The loop, cut after [pasadas] passes. *)
Fixpoint bucle (G : Azar) (orden : list Combinacion -> list Combinacion)
  (combinacion_secreta : Combinacion) (pasadas : nat)
  (sv : MastermindSolver) (s : Estado G) : Salida :=
  match pasadas with
  | O => SinTerminar
  | S p =>
      match vuelta G orden combinacion_secreta sv s with
      | Retorna r => Devuelve r
      | Lanza => Excepcion
      | Continua sv' s' => bucle G orden combinacion_secreta p sv' s'
      end
  end.

(** [MastermindSolver.modo_automatico]: whatever the solver held before is
    replaced. *)
Definition modo_automatico (G : Azar)
  (orden : list Combinacion -> list Combinacion)
  (combinacion_secreta : Combinacion) (pasadas : nat) (s : Estado G) : Salida :=
  bucle G orden combinacion_secreta pasadas solver_inicial s.

(** The solver and generator at the top of the loop after [k] passes that did
    not return: [None] when the run returned or raised before. *)
Fixpoint estado_tras (G : Azar) (orden : list Combinacion -> list Combinacion)
  (combinacion_secreta : Combinacion) (k : nat) (s : Estado G)
  : option (MastermindSolver * Estado G) :=
  match k with
  | O => Some (solver_inicial, s)
  | S k' =>
      match estado_tras G orden combinacion_secreta k' s with
      | None => None
      | Some (sv, s1) =>
          match vuelta G orden combinacion_secreta sv s1 with
          | Continua sv' s' => Some (sv', s')
          | _ => None
          end
      end
  end.

(** Every probe issued in the first [pasadas] passes from [sv] is one of the
    candidates at that moment. *)
Fixpoint sondas_entre_posibles (G : Azar)
  (orden : list Combinacion -> list Combinacion)
  (combinacion_secreta : Combinacion) (pasadas : nat)
  (sv : MastermindSolver) (s : Estado G) : bool :=
  match pasadas with
  | O => true
  | S p =>
      match siguiente_combinacion G orden (kb sv) s with
      | None => true
      | Some (combinacion, _) =>
          existsb (Combinacion_eqb combinacion)
            (combinaciones_posibles (kb sv))
          && match vuelta G orden combinacion_secreta sv s with
             | Continua sv' s' =>
                 sondas_entre_posibles G orden combinacion_secreta p sv' s'
             | _ => true
             end
      end
  end.

(** Every pass among the first [pasadas] from [sv] that goes on leaves fewer
    candidates than it found. *)
Fixpoint pasadas_reducen (G : Azar)
  (orden : list Combinacion -> list Combinacion)
  (combinacion_secreta : Combinacion) (pasadas : nat)
  (sv : MastermindSolver) (s : Estado G) : bool :=
  match pasadas with
  | O => true
  | S p =>
      match vuelta G orden combinacion_secreta sv s with
      | Continua sv' s' =>
          (tamano_espacio_busqueda (kb sv')
           <? tamano_espacio_busqueda (kb sv))%nat
          && pasadas_reducen G orden combinacion_secreta p sv' s'
      | _ => true
      end
  end.

(** [MastermindSolver.procesar_intento_tiempo_real] *)
Definition procesar_intento_tiempo_real (sv : MastermindSolver)
  (combinacion : Combinacion) (pos_correctas colores_correctos : Z)
  : bool * MastermindSolver :=
  if pos_correctas =? 4 then (true, sv)
  else
    let kb' := fst (actualizar_con_feedback (kb sv) combinacion
                      pos_correctas colores_correctos) in
    let nuevo_tamano := tamano_espacio_busqueda kb' in
    (false,
     mkSolver kb' (intentos sv) (historia_espacio_busqueda sv ++ [nuevo_tamano])).

(** ** Parsing the user's combination *)

(** Strings are Python strings whose characters are below code point 256.
    [str.isspace] on such a character. *)
Definition es_espacio (c : ascii) : bool :=
  let n := nat_of_ascii c in
  ((9 <=? n) && (n <=? 13) || (28 <=? n) && (n <=? 32)
   || (n =? 133) || (n =? 160))%nat.

(** [str.lower] on one such character: the 26 letters and the accented
    capitals [0xC0..0xDE] other than the multiplication sign. *)
Definition minuscula (c : ascii) : ascii :=
  let n := nat_of_ascii c in
  if ((65 <=? n) && (n <=? 90)
      || (192 <=? n) && (n <=? 222) && negb (n =? 215))%nat
  then ascii_of_nat (n + 32)
  else c.

(** [s.lower()] *)
Fixpoint lower (s : string) : string :=
  match s with
  | EmptyString => EmptyString
  | String c r => String (minuscula c) (lower r)
  end.

Fixpoint lstrip (s : string) : string :=
  match s with
  | EmptyString => EmptyString
  | String c r => if es_espacio c then lstrip r else s
  end.

Fixpoint rstrip (s : string) : string :=
  match s with
  | EmptyString => EmptyString
  | String c r =>
      match rstrip r with
      | EmptyString => if es_espacio c then EmptyString else String c EmptyString
      | r' => String c r'
      end
  end.

(** [s.strip()] *)
Definition strip (s : string) : string := rstrip (lstrip s).

(** [sep in s] for a one-character [sep]. *)
Fixpoint contiene (sep : ascii) (s : string) : bool :=
  match s with
  | EmptyString => false
  | String c r => Ascii.eqb c sep || contiene sep r
  end.

(** [s.split(sep)] for a one-character [sep]: empty pieces are kept. *)
Fixpoint split_por (sep : ascii) (s : string) : list string :=
  match s with
  | EmptyString => [EmptyString]
  | String c r =>
      if Ascii.eqb c sep then EmptyString :: split_por sep r
      else
        match split_por sep r with
        | w :: ws => String c w :: ws
        | [] => [String c EmptyString]
        end
  end.

(** [s.split()]: the maximal runs of characters that are not whitespace. *)
Fixpoint split (s : string) : list string :=
  match s with
  | EmptyString => []
  | String c r =>
      if es_espacio c then split r
      else
        match r with
        | EmptyString => [String c EmptyString]
        | String c' _ =>
            if es_espacio c' then String c EmptyString :: split r
            else
              match split r with
              | w :: ws => String c w :: ws
              | [] => [String c EmptyString]
              end
        end
  end.

Definition coma : ascii := ascii_of_nat 44.

(** The entries of [COLORES] as the strings they are in the source. *)
Definition nombre (c : Color) : string :=
  match c with
  | azul => "azul"
  | rojo => "rojo"
  | blanco => "blanco"
  | negro => "negro"
  | verde => "verde"
  | purpura => "purpura"
  end.

(** [color in COLORES] *)
Definition en_COLORES (color : string) : bool :=
  existsb (fun c => String.eqb color (nombre c)) COLORES.

(** The result of [convertir_entrada_a_combinacion]: the tuple, or [None]
    after one of the two error dialogs. *)
Inductive Conversion : Type :=
| Tupla (colores : list string)
| ErrorCantidad
| ErrorColor (color : string).

(** The first element that is not in [COLORES], the one the loop stops at. *)
Fixpoint primer_invalido (colores : list string) : option string :=
  match colores with
  | [] => None
  | color :: r => if en_COLORES color then primer_invalido r else Some color
  end.

(** [convertir_entrada_a_combinacion] *)
Definition convertir_entrada_a_combinacion (entrada : string) : Conversion :=
  let colores :=
    if contiene coma entrada
    then map (fun color => lower (strip color)) (split_por coma entrada)
    else map (fun color => lower (strip color)) (split entrada) in
  if negb (length colores =? 4)%nat then ErrorCantidad
  else
    match primer_invalido colores with
    | Some color => ErrorColor color
    | None => Tupla colores
    end.

(** The value the function returns to its caller. *)
Definition valor_devuelto (r : Conversion) : option (list string) :=
  match r with
  | Tupla colores => Some colores
  | _ => None
  end.

(** The combination a tuple of four colour names stands for. *)
Definition color_de_nombre (color : string) : option Color :=
  find (fun c => String.eqb color (nombre c)) COLORES.

Definition combinacion_de_tupla (colores : list string) : option Combinacion :=
  match map color_de_nombre colores with
  | [Some a; Some b; Some c; Some d] => Some (a, b, c, d)
  | _ => None
  end.

(** The acceptance condition as the specification words it: split on commas
    when a comma is present, otherwise on whitespace; exactly 4 tokens; each
    token, lowercased, in the alphabet. *)
Module ReferenciaEntrada.

Definition tokens (entrada : string) : list string :=
  if contiene coma entrada then split_por coma entrada else split entrada.

Definition acepta (entrada : string) : bool :=
  (length (tokens entrada) =? 4)%nat
  && forallb (fun t => en_COLORES (lower t)) (tokens entrada).

End ReferenciaEntrada.

(** ** Notions used in the statements *)

(** The candidates that agree with a feedback: the set the filter builds. *)
Definition consistentes (kb : MastermindKB) (combinacion : Combinacion)
  (e c : Z) : list Combinacion :=
  filter (fun candidato => _coincide_feedback combinacion candidato e c)
         (combinaciones_posibles kb).

(** The loop invariant on the counter and the history. *)
Definition historia_al_dia (sv : MastermindSolver) : Prop :=
  length (historia_espacio_busqueda sv) = S (intentos sv)
  /\ nth_error (historia_espacio_busqueda sv) 0 = Some 1296%nat.

(** No whitespace in the string. *)
Fixpoint sin_espacios (w : string) : bool :=
  match w with
  | EmptyString => true
  | String c r => negb (es_espacio c) && sin_espacios r
  end.

(** The tokens the function works on: the pieces of the split, each stripped
    and lowercased. *)
Definition colores_de (entrada : string) : list string :=
  map (fun tok => lower (strip tok)) (ReferenciaEntrada.tokens entrada).

(** A generator that always draws 0. *)
Definition azar_cero : Azar := mkAzar unit (fun _ => (O, tt)).

(** The positions in [producto] of twenty combinations over azul, rojo and
    verde, from the last one down. *)
Definition posiciones_adversas : list nat :=
  [1036; 1033; 1032; 1018; 1015; 1014; 1012; 1009; 1008; 928;
   925; 924; 910; 907; 906; 904; 901; 900; 892; 889]%nat.

(** A generator with period 1020, the number of draws of one pass of the
    sampled tier with 20 probes and 50 candidates each: it draws the twenty
    positions above for the probes and 0 for every candidate. *)
Definition azar_adverso : Azar :=
  mkAzar nat
    (fun t => (if (t <? 20)%nat then nth t posiciones_adversas O else O,
               Nat.modulo (S t) 1020)).

Definition secreta_adversa : Combinacion := (blanco, blanco, blanco, blanco).

(** The knowledge base after the opening probe got the feedback (0, 0): the
    81 combinations over blanco, negro and purpura. *)
Definition base_adversa : MastermindKB :=
  fst (actualizar_con_feedback MastermindKB_nueva apertura 0 0).

(** ** The propositional sentences *)

(** The six dataclasses [Symbol], [Not], [And], [Or], [Implication] and
    [Biconditional]. *)
#[local] Set Warnings "-register-all".
Inductive Sentence : Type :=
| Symbol (name : string)
| Not (operand : Sentence)
| And (conjuncts : list Sentence)
| Or (disjuncts : list Sentence)
| Implication (antecedent consequent : Sentence)
| Biconditional (left right : Sentence).

(** A model [Dict[str, bool]]: [None] where the key is missing. *)
Definition Modelo : Type := string -> option bool.

(** [evaluate]: [None] is the exception that [Symbol.evaluate] raises for a
    name that is not in the model. [all] and [any] stop at the first element
    that decides them, [not a or c] evaluates [c] only when [a] is true, and
    [==] evaluates both sides. *)
Fixpoint evaluate (s : Sentence) (model : Modelo) : option bool :=
  match s with
  | Symbol name => model name
  | Not operand =>
      match evaluate operand model with
      | Some b => Some (negb b)
      | None => None
      end
  | And conjuncts =>
      (fix all (l : list Sentence) : option bool :=
         match l with
         | [] => Some true
         | conjunct :: r =>
             match evaluate conjunct model with
             | Some true => all r
             | Some false => Some false
             | None => None
             end
         end) conjuncts
  | Or disjuncts =>
      (fix any (l : list Sentence) : option bool :=
         match l with
         | [] => Some false
         | disjunct :: r =>
             match evaluate disjunct model with
             | Some true => Some true
             | Some false => any r
             | None => None
             end
         end) disjuncts
  | Implication antecedent consequent =>
      match evaluate antecedent model with
      | Some true => evaluate consequent model
      | Some false => Some true
      | None => None
      end
  | Biconditional left_ right_ =>
      match evaluate left_ model with
      | Some a =>
          match evaluate right_ model with
          | Some b => Some (Bool.eqb a b)
          | None => None
          end
      | None => None
      end
  end.

(** [symbols]: the set of names, as a list read up to membership. *)
Fixpoint symbols (s : Sentence) : list string :=
  match s with
  | Symbol name => [name]
  | Not operand => symbols operand
  | And conjuncts =>
      (fix union (l : list Sentence) : list string :=
         match l with
         | [] => []
         | conjunct :: r => symbols conjunct ++ union r
         end) conjuncts
  | Or disjuncts =>
      (fix union (l : list Sentence) : list string :=
         match l with
         | [] => []
         | disjunct :: r => symbols disjunct ++ union r
         end) disjuncts
  | Implication antecedent consequent =>
      symbols antecedent ++ symbols consequent
  | Biconditional left_ right_ => symbols left_ ++ symbols right_
  end.

(** [And.add]: append a conjunct to the list of the sentence. *)
Definition add (conjuncts : list Sentence) (conjunct : Sentence)
  : list Sentence :=
  conjuncts ++ [conjunct].

(** ** Random secrets and the text of the entry box *)

(** [generar_combinacion_aleatoria]: the same expression as the recovery
    branch of the selector. *)
Definition generar_combinacion_aleatoria (G : Azar) (s : Estado G)
  : option (Combinacion * Estado G) :=
  combinacion_al_azar G s.

(** The tuple of strings a combination is in the source. *)
Definition tupla_de_combinacion (x : Combinacion) : list string :=
  let '(a, b, c, d) := x in [nombre a; nombre b; nombre c; nombre d].

(** [sep.join(l)] *)
Fixpoint join (sep : string) (l : list string) : string :=
  match l with
  | [] => EmptyString
  | [x] => x
  | x :: r => (x ++ sep ++ join sep r)%string
  end.

(** The text that [generar_aleatoria] and [iniciar_automatico] write into the
    entry box: [", ".join(combinacion)]. *)
Definition texto_de_tupla (colores : list string) : string :=
  join ", " colores.

(** The first part of [MastermindGUI.iniciar_automatico]: from the text of
    the entry box to the secret handed to the run, with the text the box
    holds afterwards. [None] is the early [return] after the parser's error
    dialog. *)
Definition secreta_de_entrada (G : Azar) (texto : string) (s : Estado G)
  : option (list string * string * Estado G) :=
  let entrada := strip texto in
  match entrada with
  | String _ _ =>
      match valor_devuelto (convertir_entrada_a_combinacion entrada) with
      | Some combinacion_secreta => Some (combinacion_secreta, texto, s)
      | None => None
      end
  | EmptyString =>
      match generar_combinacion_aleatoria G s with
      | Some (x, s') =>
          Some (tupla_de_combinacion x,
                texto_de_tupla (tupla_de_combinacion x), s')
      | None => None
      end
  end.

(** ** The step-wise mode of the window *)

(** [MastermindSolver()]: the dataclass defaults. *)
Definition MastermindSolver_nuevo : MastermindSolver :=
  mkSolver MastermindKB_nueva O [].

(** The part of [MastermindGUI] that the step-wise handlers read and write:
    the solver and the last proposal ([None] until a game is started). *)
Record TiempoReal : Type := mkTiempoReal {
  solver : MastermindSolver;
  ultimo_intento : option Combinacion
}.

(** [MastermindGUI.__init__] *)
Definition ventana_inicial : TiempoReal :=
  mkTiempoReal MastermindSolver_nuevo None.

(** What a handler shows: an error dialog, the success dialog with the count
    it reports, the next proposal, nothing, or an exception ([TypeError] when
    there is no proposal to score; whatever the selector raises, which the
    handler turns into the numeric-error dialog when it is a [ValueError] and
    lets through to the event loop otherwise). *)
Inductive Respuesta : Type :=
| ErrorNumerico
| ErrorRango
| ErrorSuma
| Exito (intentos_informados : nat)
| Propuesta (combinacion : Combinacion)
| SinRespuesta
| ErrorSinPropuesta
| ErrorSelector.

(** The end of both handlers: ask the selector of the solver for a
    proposal and keep it as the last one. *)
Definition proponer (G : Azar) (orden : list Combinacion -> list Combinacion)
  (sv : MastermindSolver) (ultimo : option Combinacion) (s : Estado G)
  : Respuesta * TiempoReal * Estado G :=
  match siguiente_combinacion G orden (kb sv) s with
  | Some (combinacion, s') =>
      (Propuesta combinacion, mkTiempoReal sv (Some combinacion), s')
  | None => (ErrorSelector, mkTiempoReal sv ultimo, s)
  end.

(** [MastermindGUI.iniciar_tiempo_real]: a new solver, then its first
    proposal. *)
Definition iniciar_tiempo_real (G : Azar)
  (orden : list Combinacion -> list Combinacion)
  (w : TiempoReal) (s : Estado G) : Respuesta * TiempoReal * Estado G :=
  proponer G orden MastermindSolver_nuevo (ultimo_intento w) s.

(** [procesar_intento_tiempo_real] as the handler calls it, with the last
    proposal that may still be [None]: scoring [None] against a candidate
    raises [TypeError], which happens at the first candidate. When the call
    returns before the filter loop or the loop has no candidate to visit, the
    proposal is never looked at and any combination stands for it. *)
Definition procesar_ultimo_intento (sv : MastermindSolver)
  (ultimo : option Combinacion) (pos_correctas colores_correctos : Z)
  : option (bool * MastermindSolver) :=
  match ultimo with
  | Some combinacion =>
      Some (procesar_intento_tiempo_real sv combinacion
              pos_correctas colores_correctos)
  | None =>
      if (pos_correctas =? 4) || (pos_correctas + colores_correctos >? 4)
         || vacia (combinaciones_posibles (kb sv))
      then Some (procesar_intento_tiempo_real sv apertura
                   pos_correctas colores_correctos)
      else None
  end.

(** [MastermindGUI.procesar_feedback_tiempo_real]. The two arguments are the
    results of [int(...)] on the two spin boxes, [None] for a [ValueError]. *)
Definition procesar_feedback_tiempo_real (G : Azar)
  (orden : list Combinacion -> list Combinacion)
  (w : TiempoReal) (entrada_pos entrada_colores : option Z) (s : Estado G)
  : Respuesta * TiempoReal * Estado G :=
  match entrada_pos, entrada_colores with
  | None, _ | _, None => (ErrorNumerico, w, s)
  | Some pos_correctas, Some colores_correctos =>
      if (pos_correctas <? 0) || (pos_correctas >? 4)
         || (colores_correctos <? 0) || (colores_correctos >? 4)
      then (ErrorRango, w, s)
      else if pos_correctas + colores_correctos >? 4 then (ErrorSuma, w, s)
      else if pos_correctas =? 4 then (Exito (intentos (solver w)), w, s)
      else
        match procesar_ultimo_intento (solver w) (ultimo_intento w)
                pos_correctas colores_correctos with
        | None => (ErrorSinPropuesta, w, s)
        | Some (true, sv) =>
            (SinRespuesta, mkTiempoReal sv (ultimo_intento w), s)
        | Some (false, sv) =>
            proponer G orden
              (mkSolver (kb sv) (S (intentos sv))
                 (historia_espacio_busqueda sv))
              (ultimo_intento w) s
        end
  end.

(** What the user does in the step-wise tab. *)
Inductive Evento : Type :=
| IniciarJuego
| EnviarRetroalimentacion (entrada_pos entrada_colores : option Z).

Definition manejar (G : Azar) (orden : list Combinacion -> list Combinacion)
  (w : TiempoReal) (ev : Evento) (s : Estado G)
  : Respuesta * TiempoReal * Estado G :=
  match ev with
  | IniciarJuego => iniciar_tiempo_real G orden w s
  | EnviarRetroalimentacion p c =>
      procesar_feedback_tiempo_real G orden w p c s
  end.

(** The window after a sequence of events, with the responses shown, the
    first one first. *)
Fixpoint sesion (G : Azar) (orden : list Combinacion -> list Combinacion)
  (eventos : list Evento) (w : TiempoReal) (s : Estado G)
  : list Respuesta * TiempoReal * Estado G :=
  match eventos with
  | [] => ([], w, s)
  | ev :: resto =>
      let '(r, w1, s1) := manejar G orden w ev s in
      let '(rs, w2, s2) := sesion G orden resto w1 s1 in
      (r :: rs, w2, s2)
  end.

(** ** The experiment *)

(** The generator after the pass that returns: the selector's draws are the
    only ones of a pass. *)
Definition azar_tras_selector (G : Azar)
  (orden : list Combinacion -> list Combinacion)
  (sv : MastermindSolver) (s : Estado G) : Estado G :=
  match siguiente_combinacion G orden (kb sv) s with
  | Some (_, s') => s'
  | None => s
  end.

(** The loop of [modo_automatico] again, now also giving the generator it
    leaves behind. *)
Fixpoint bucle_azar (G : Azar) (orden : list Combinacion -> list Combinacion)
  (combinacion_secreta : Combinacion) (pasadas : nat)
  (sv : MastermindSolver) (s : Estado G) : Salida * Estado G :=
  match pasadas with
  | O => (SinTerminar, s)
  | S p =>
      match vuelta G orden combinacion_secreta sv s with
      | Retorna r => (Devuelve r, azar_tras_selector G orden sv s)
      | Lanza => (Excepcion, s)
      | Continua sv' s' => bucle_azar G orden combinacion_secreta p sv' s'
      end
  end.

(** [list[j] = v] for [j] within the list (no write of the source is out of
    range). *)
Fixpoint poner {A : Type} (j : nat) (v : A) (l : list A) : list A :=
  match l, j with
  | [], _ => []
  | _ :: r, O => v :: r
  | x :: r, S j' => x :: poner j' v r
  end.

(** One row of [espacio_por_intento]: zeros, then the history copied over,
    then the last value of the history in the remaining columns. The array
    holds floats; every value written is an integer below 2^53. *)
Definition fila (max_intentos : nat) (historia : list nat) : list nat :=
  let ceros := repeat O max_intentos in
  let copiada :=
    fold_left (fun (f : list nat) (jt : nat * nat) =>
                 let (j, tamano) := jt in
                 if (j <? max_intentos)%nat then poner j tamano f else f)
              (combine (seq 0 (length historia)) historia) ceros in
  let ultimo_valor := last historia O in
  fold_left (fun (f : list nat) (j : nat) => poner j ultimo_valor f)
            (seq (length historia) (max_intentos - length historia)) copiada.

(** [max(...)] over a generator: [None] is the [ValueError] on an empty
    one. *)
Definition maximo (l : list nat) : option nat :=
  match l with
  | [] => None
  | x :: r => Some (fold_left Nat.max r x)
  end.

(** The integer results of [ejecutar_experimento_n_juegos] and the array
    whose columns it averages. The two [np.mean] values and the elapsed time
    are floating point and are left out. *)
Record Experimento : Type := mkExperimento {
  intentos_por_juego : list nat;
  todas_historias : list (list nat);
  max_intentos : nat;
  espacio_por_intento : list (list nat)
}.

Inductive SalidaExperimento (G : Azar) : Type :=
| ResultadoExperimento (r : Experimento) (s : Estado G)
| ExcepcionExperimento
| ExperimentoSinTerminar.

Arguments ResultadoExperimento {G} r s.
Arguments ExcepcionExperimento {G}.
Arguments ExperimentoSinTerminar {G}.

(** The loop [for i in range(n_juegos)]: the results of the games in order,
    [inl true] when a game raises and [inl false] when one does not return
    within [pasadas] passes. *)
Fixpoint jugar (G : Azar) (orden : list Combinacion -> list Combinacion)
  (pasadas : nat) (n : nat) (s : Estado G)
  : bool + (list (nat * list nat) * Estado G) :=
  match n with
  | O => inr ([], s)
  | S n' =>
      match generar_combinacion_aleatoria G s with
      | None => inl true
      | Some (combinacion_secreta, s1) =>
          match bucle_azar G orden combinacion_secreta pasadas
                  solver_inicial s1 with
          | (Devuelve r, s2) =>
              match jugar G orden pasadas n' s2 with
              | inr (rs, s3) => inr (r :: rs, s3)
              | inl e => inl e
              end
          | (Excepcion, _) => inl true
          | (SinTerminar, _) => inl false
          end
      end
  end.

(** [ejecutar_experimento_n_juegos], each game cut after [pasadas] passes. *)
Definition ejecutar_experimento_n_juegos (G : Azar)
  (orden : list Combinacion -> list Combinacion)
  (pasadas : nat) (n_juegos : Z) (s : Estado G) : SalidaExperimento G :=
  match jugar G orden pasadas (Z.to_nat n_juegos) s with
  | inl true => ExcepcionExperimento
  | inl false => ExperimentoSinTerminar
  | inr (juegos, s') =>
      let intentos_por_juego := map fst juegos in
      let todas_historias := map snd juegos in
      match maximo (map (@length nat) todas_historias) with
      | None => ExcepcionExperimento
      | Some max_intentos =>
          ResultadoExperimento
            (mkExperimento intentos_por_juego todas_historias max_intentos
               (map (fila max_intentos) todas_historias))
            s'
      end
  end.

(** ** Sequences of feedback *)

(** The knowledge base after [actualizar_con_feedback] was called with each
    feedback of the list in turn. *)
Fixpoint aplicar (base : MastermindKB) (l : list (Combinacion * Z * Z))
  : MastermindKB :=
  match l with
  | [] => base
  | (g, e, c) :: r => aplicar (fst (actualizar_con_feedback base g e c)) r
  end.

(** The feedbacks of the list that were applied without a warning. *)
Fixpoint aceptados (base : MastermindKB) (l : list (Combinacion * Z * Z))
  : list (Combinacion * Z * Z) :=
  match l with
  | [] => []
  | (g, e, c) :: r =>
      match snd (actualizar_con_feedback base g e c) with
      | SinAviso =>
          (g, e, c) :: aceptados (fst (actualizar_con_feedback base g e c)) r
      | _ => aceptados (fst (actualizar_con_feedback base g e c)) r
      end
  end.

(** A combination agrees with every feedback of a list. *)
Definition cumple (l : list (Combinacion * Z * Z)) (x : Combinacion) : bool :=
  forallb (fun f : Combinacion * Z * Z =>
             let '(g, e, c) := f in _coincide_feedback g x e c) l.

(** The four symbols of a combination, in order. *)
Definition simbolos (x : Combinacion) : list Color := map (elem x) (seq 0 4).

(** The sampled candidates that give a feedback against a probe. *)
Definition clase (combinacion : Combinacion) (f : Z * Z)
  (muestra : list Combinacion) : nat :=
  length (filter (fun candidato =>
                    feedback_eqb (evaluar_combinacion combinacion candidato) f)
                 muestra).

(** The scores of the probes in the order the selector computes them: for
    each probe a fresh sample of candidates is drawn and the largest group
    counted. *)
Fixpoint puntuar (G : Azar) (orden : list Combinacion -> list Combinacion)
  (posibles : list Combinacion) (combinaciones_a_evaluar : list Combinacion)
  (s : Estado G) : option (list nat * Estado G) :=
  match combinaciones_a_evaluar with
  | [] => Some ([], s)
  | combinacion :: resto =>
      match sample G (orden posibles) (Nat.min 50 (length posibles)) s with
      | None => None
      | Some (muestra, s1) =>
          match puntuar G orden posibles resto s1 with
          | None => None
          | Some (ps, s2) =>
              Some (snd (fold_left (paso_candidato combinacion) muestra
                           ([], O)) :: ps, s2)
          end
      end
  end.

(** A list of sizes that never goes up. *)
Fixpoint no_creciente (l : list nat) : Prop :=
  match l with
  | a :: r =>
      match r with
      | b :: _ => (b <= a)%nat /\ no_creciente r
      | [] => True
      end
  | [] => True
  end.

(** The colour a draw selects from [COLORES]. *)
Definition color_de_sorteo (r : nat) : Color :=
  nth (Nat.modulo r 6) COLORES azul.

(** A combination written with a separator is parsed back to itself, and the
    text is not changed by [strip]. *)
Definition ida_y_vuelta (sep : string) (x : Combinacion) : bool :=
  match convertir_entrada_a_combinacion (join sep (tupla_de_combinacion x)) with
  | Tupla t =>
      if list_eq_dec string_dec t (tupla_de_combinacion x) then true else false
  | _ => false
  end
  && match combinacion_de_tupla (tupla_de_combinacion x) with
     | Some y => Combinacion_eqb y x
     | None => false
     end
  && String.eqb (strip (join sep (tupla_de_combinacion x)))
       (join sep (tupla_de_combinacion x))
  && negb (String.eqb (join sep (tupla_de_combinacion x)) EmptyString).

(** The state of the step-wise window is in order: a game has candidates
    left, and the counter and the size history go together. *)
Definition ventana_en_orden (w : TiempoReal) : Prop :=
  combinaciones_posibles (kb (solver w)) <> []
  /\ NoDup (combinaciones_posibles (kb (solver w)))
  /\ todas_combinaciones (kb (solver w)) = producto
  /\ (tamano_espacio_busqueda (kb (solver w)) <= 1296)%nat
  /\ length (historia_espacio_busqueda (solver w)) = intentos (solver w)
  /\ (historia_espacio_busqueda (solver w) = []
      \/ exists l, historia_espacio_busqueda (solver w)
                   = l ++ [tamano_espacio_busqueda (kb (solver w))])
  /\ no_creciente (historia_espacio_busqueda (solver w))
  /\ Forall (fun x => (1 <= x <= 1296)%nat)
        (historia_espacio_busqueda (solver w)).

(** A feedback that the step-wise handler passes on to the solver. *)
Definition retroalimentacion_aceptada (f : Z * Z) : bool :=
  let (p, c) := f in
  (0 <=? p) && (p <=? 3) && (0 <=? c) && (c <=? 4) && (p + c <=? 4).

(** The entries of an event pass the checks of the handler. *)
Definition entrada_valida (ev : Evento) : bool :=
  match ev with
  | IniciarJuego => true
  | EnviarRetroalimentacion (Some p) (Some c) =>
      (0 <=? p) && (p <=? 4) && (0 <=? c) && (c <=? 4) && (p + c <=? 4)
  | _ => false
  end.

(** What every game of the experiment contributes. *)
Definition juego_en_orden (r : nat * list nat) : Prop :=
  length (snd r) = fst r
  /\ (1 <= fst r)%nat
  /\ (exists l t, snd r = l ++ [t])
  /\ nth_error (snd r) 0 = Some 1296%nat
  /\ no_creciente (snd r).

(** What the dictionary and the running maximum hold after the candidates of
    [vistos] were counted. *)
Definition cuenta_al_dia (g : Combinacion) (st : Resultados * nat)
  (vistos : list Combinacion) : Prop :=
  (forall f, buscar f (fst st)
             = if (clase g f vistos =? 0)%nat then None
               else Some (clase g f vistos))
  /\ (forall f, (clase g f vistos <= snd st)%nat)
  /\ (vistos = [] -> snd st = O)
  /\ (vistos <> [] ->
      exists x, In x vistos
                /\ clase g (evaluar_combinacion g x) vistos = snd st).

(** The loop invariant on the sizes recorded. *)
Definition historia_ordenada (secreta : Combinacion) (sv : MastermindSolver)
  : Prop :=
  In secreta (combinaciones_posibles (kb sv))
  /\ (tamano_espacio_busqueda (kb sv) <= 1296)%nat
  /\ (exists l, historia_espacio_busqueda sv
                = l ++ [tamano_espacio_busqueda (kb sv)])
  /\ no_creciente (historia_espacio_busqueda sv)
  /\ Forall (fun x => (1 <= x <= 1296)%nat) (historia_espacio_busqueda sv).

(** * Properties *)

(** ** Equality tests *)

Lemma Color_eqb_spec (a b : Color) : reflect (a = b) (Color_eqb a b).
Proof. destruct a, b; constructor; congruence. Qed.

Lemma Color_eqb_refl (a : Color) : Color_eqb a a = true.
Proof. now destruct a. Qed.

Lemma Combinacion_eqb_spec (x y : Combinacion) :
  reflect (x = y) (Combinacion_eqb x y).
Proof.
  destruct x as [[[a b] c] d], y as [[[a' b'] c'] d']; simpl.
  destruct (Color_eqb_spec a a'), (Color_eqb_spec b b'),
    (Color_eqb_spec c c'), (Color_eqb_spec d d');
    simpl; constructor; congruence.
Qed.

Lemma existsb_Combinacion_eqb (x : Combinacion) (l : list Combinacion) :
  existsb (Combinacion_eqb x) l = true <-> In x l.
Proof.
  rewrite existsb_exists; split.
  - intros (y & Hy & E). destruct (Combinacion_eqb_spec x y); congruence.
  - intros H. exists x; split; [assumption|].
    now destruct (Combinacion_eqb_spec x x).
Qed.

(** ** The scoring loop against the reference score *)

Section Conteo.

Variables guess target : Combinacion.

Let iguales (i : nat) : bool := Color_eqb (elem guess i) (elem target i).

Lemma ocurrencias_cons (s k : Color) (l : list Color) :
  Referencia.ocurrencias s (k :: l)
  = (if Color_eqb s k then 1 else 0) + Referencia.ocurrencias s l.
Proof.
  unfold Referencia.ocurrencias; simpl.
  destruct (Color_eq_dec k s) as [->|N].
  - rewrite Color_eqb_refl. lia.
  - destruct (Color_eqb_spec s k); [congruence | lia].
Qed.

(** The loop invariant, for any list of positions still to visit. *)
Lemma fold_paso_conteo (ps : list nat) (st : Conteo) :
  pos_correctas (fold_left (paso_conteo guess target) ps st)
  = pos_correctas st + Z.of_nat (length (filter iguales ps))
  /\ (forall s, counter1 (fold_left (paso_conteo guess target) ps st) s
        = counter1 st s
          + Referencia.ocurrencias s
              (map (elem guess) (filter (fun i => negb (iguales i)) ps)))
  /\ (forall s, counter2 (fold_left (paso_conteo guess target) ps st) s
        = counter2 st s
          + Referencia.ocurrencias s
              (map (elem target) (filter (fun i => negb (iguales i)) ps))).
Proof.
  revert st. induction ps as [|i ps IH]; intros st.
  - unfold Referencia.ocurrencias; simpl. repeat split; intros; lia.
  - destruct (IH (paso_conteo guess target st i)) as (Hp & H1 & H2).
    cbn [fold_left filter].
    split; [|split]; [rewrite Hp | intros s; rewrite H1 | intros s; rewrite H2];
      unfold paso_conteo, iguales;
      destruct (Color_eqb (elem guess i) (elem target i)) eqn:E;
      cbn [pos_correctas counter1 counter2 negb length map];
      rewrite ?ocurrencias_cons; unfold incrementar;
      try destruct (Color_eqb s _); lia.
Qed.

Lemma contar_referencia :
  pos_correctas (contar guess target) = Referencia.exact_matches guess target
  /\ colores_comunes (contar guess target)
     = Referencia.color_matches guess target.
Proof.
  destruct (fold_paso_conteo (seq 0 4) conteo_inicial) as (Hp & H1 & H2).
  fold (contar guess target) in Hp, H1, H2.
  split.
  - rewrite Hp. reflexivity.
  - unfold colores_comunes, Referencia.color_matches, sum, COLORES.
    cbn [map fold_left fold_right].
    rewrite !H1, !H2. unfold Referencia.sobrantes, iguales.
    cbn [conteo_inicial counter1 counter2]. unfold contador_cero. lia.
Qed.

End Conteo.

Lemma evaluar_combinacion_score (guess target : Combinacion) :
  evaluar_combinacion guess target = Referencia.score guess target.
Proof.
  unfold evaluar_combinacion, Referencia.score.
  destruct (contar_referencia guess target) as [-> ->]. reflexivity.
Qed.

Lemma coincide_feedback_evaluar (c1 c2 : Combinacion) (e c : Z) :
  _coincide_feedback c1 c2 e c = true <-> evaluar_combinacion c1 c2 = (e, c).
Proof.
  unfold _coincide_feedback, evaluar_combinacion.
  rewrite andb_true_iff, !Z.eqb_eq. split.
  - intros [-> ->]. reflexivity.
  - intros H. injection H as -> ->. split; reflexivity.
Qed.

(** C1: the scorer returns the number of positions where the codes agree and
    the sum over the symbols of the smaller of the two leftover counts; the
    filter's predicate accepts a candidate exactly when that reference score
    is the given feedback; and the score of (A,B,C,D) against (D,C,B,A), the
    first four symbols of the alphabet, is 0 exact and 4 colour. *)
Theorem evaluar_combinacion_referencia :
  (forall guess target,
      evaluar_combinacion guess target
      = (Referencia.exact_matches guess target,
         Referencia.color_matches guess target))
  /\ (forall guess candidato e c,
        _coincide_feedback guess candidato e c = true
        <-> Referencia.score guess candidato = (e, c))
  /\ evaluar_combinacion (azul, rojo, blanco, negro) (negro, blanco, rojo, azul)
     = (0, 4).
Proof.
  split; [|split].
  - intros guess target. apply evaluar_combinacion_score.
  - intros guess candidato e c.
    rewrite <- evaluar_combinacion_score. apply coincide_feedback_evaluar.
  - reflexivity.
Qed.

(** ** Bounds on the feedback *)

Lemma suma_ocurrencias (l : list Color) :
  fold_right Z.add 0 (map (fun s => Referencia.ocurrencias s l) COLORES)
  = Z.of_nat (length l).
Proof.
  induction l as [|k l IH].
  - reflexivity.
  - unfold COLORES in *. cbn [map fold_right] in *.
    rewrite !ocurrencias_cons. cbn [length]. rewrite Nat2Z.inj_succ.
    destruct k; cbn [Color_eqb]; lia.
Qed.

Lemma ocurrencias_no_negativa (s : Color) (l : list Color) :
  0 <= Referencia.ocurrencias s l.
Proof. unfold Referencia.ocurrencias. lia. Qed.

Lemma particion_posiciones (f : nat -> bool) (ps : list nat) :
  (length (filter f ps) + length (filter (fun i => negb (f i)) ps)
   = length ps)%nat.
Proof.
  induction ps as [|i ps IH]; simpl; [reflexivity|].
  destruct (f i); simpl; lia.
Qed.

Lemma score_cotas (a b : Combinacion) :
  0 <= Referencia.exact_matches a b
  /\ 0 <= Referencia.color_matches a b
  /\ Referencia.exact_matches a b + Referencia.color_matches a b <= 4.
Proof.
  pose proof (suma_ocurrencias (map (elem a) (Referencia.sobrantes a b))) as S1.
  pose proof (particion_posiciones
                (fun i => Color_eqb (elem a i) (elem b i)) (seq 0 4)) as P.
  rewrite length_seq in P. rewrite length_map in S1.
  fold (Referencia.coinciden a b) in P. fold (Referencia.sobrantes a b) in P.
  unfold Referencia.exact_matches, Referencia.color_matches.
  unfold COLORES in *. cbn [map fold_right] in *.
  pose proof (fun s => ocurrencias_no_negativa s
                         (map (elem a) (Referencia.sobrantes a b))) as N1.
  pose proof (fun s => ocurrencias_no_negativa s
                         (map (elem b) (Referencia.sobrantes a b))) as N2.
  pose proof (N1 azul); pose proof (N1 rojo); pose proof (N1 blanco);
    pose proof (N1 negro); pose proof (N1 verde); pose proof (N1 purpura).
  pose proof (N2 azul); pose proof (N2 rojo); pose proof (N2 blanco);
    pose proof (N2 negro); pose proof (N2 verde); pose proof (N2 purpura).
  lia.
Qed.

Lemma evaluar_combinacion_cotas_aux (a b : Combinacion) :
  0 <= fst (evaluar_combinacion a b)
  /\ 0 <= snd (evaluar_combinacion a b)
  /\ fst (evaluar_combinacion a b) + snd (evaluar_combinacion a b) <= 4.
Proof. rewrite evaluar_combinacion_score. apply score_cotas. Qed.

(** C7: for all codes the scorer's pair satisfies 0 <= exact <= 4,
    0 <= colour <= 4 and exact + colour <= 4. *)
Theorem evaluar_combinacion_cotas :
  forall a b : Combinacion,
    let '(exact_matches, color_matches) := evaluar_combinacion a b in
    0 <= exact_matches <= 4
    /\ 0 <= color_matches <= 4
    /\ exact_matches + color_matches <= 4.
Proof.
  intros a b. rewrite evaluar_combinacion_score. unfold Referencia.score.
  pose proof (score_cotas a b). lia.
Qed.

(** ** Filtering the knowledge base *)

Lemma actualizar_no_crece (kb : MastermindKB) (g : Combinacion) (e c : Z) :
  incl (combinaciones_posibles (fst (actualizar_con_feedback kb g e c)))
       (combinaciones_posibles kb)
  /\ (length (combinaciones_posibles (fst (actualizar_con_feedback kb g e c)))
      <= length (combinaciones_posibles kb))%nat
  /\ todas_combinaciones (fst (actualizar_con_feedback kb g e c))
     = todas_combinaciones kb.
Proof.
  unfold actualizar_con_feedback.
  destruct (e + c >? 4); [|destruct (_ && _)]; cbn [fst combinaciones_posibles
    todas_combinaciones]; repeat split;
    auto using incl_refl, incl_filter, filter_length_le.
Qed.

Lemma actualizar_NoDup (kb : MastermindKB) (g : Combinacion) (e c : Z) :
  NoDup (combinaciones_posibles kb) ->
  NoDup (combinaciones_posibles (fst (actualizar_con_feedback kb g e c))).
Proof.
  intros H. unfold actualizar_con_feedback.
  destruct (e + c >? 4); [|destruct (_ && _)];
    cbn [fst combinaciones_posibles]; auto using NoDup_filter.
Qed.

Lemma gtb_falso (a b : Z) : a <= b -> (a >? b) = false.
Proof. intros H. rewrite Z.gtb_ltb. apply Z.ltb_ge. exact H. Qed.

Lemma gtb_cierto (a b : Z) : a > b -> (a >? b) = true.
Proof. intros H. rewrite Z.gtb_ltb. apply Z.ltb_lt. lia. Qed.

Lemma vacia_nil {A : Type} (l : list A) : vacia l = true <-> l = [].
Proof. destruct l; simpl; split; congruence. Qed.

(** Filtering on the feedback of a candidate keeps that candidate, and the
    update goes through. *)
Lemma actualizar_con_evaluacion (kb : MastermindKB) (g secreta : Combinacion) :
  In secreta (combinaciones_posibles kb) ->
  actualizar_con_feedback kb g
    (fst (evaluar_combinacion g secreta)) (snd (evaluar_combinacion g secreta))
  = (mkKB (todas_combinaciones kb)
       (consistentes kb g (fst (evaluar_combinacion g secreta))
          (snd (evaluar_combinacion g secreta))),
     SinAviso)
  /\ In secreta
       (consistentes kb g (fst (evaluar_combinacion g secreta))
          (snd (evaluar_combinacion g secreta))).
Proof.
  intros Hin.
  assert (Hs : In secreta
                 (consistentes kb g (fst (evaluar_combinacion g secreta))
                    (snd (evaluar_combinacion g secreta)))).
  { unfold consistentes. apply filter_In. split; [assumption|].
    apply coincide_feedback_evaluar. now destruct (evaluar_combinacion g secreta). }
  split; [|assumption].
  pose proof (evaluar_combinacion_cotas_aux g secreta) as B.
  destruct (evaluar_combinacion g secreta) as [e c]. cbn [fst snd] in *.
  unfold actualizar_con_feedback. fold (consistentes kb g e c).
  rewrite (gtb_falso (e + c) 4) by lia.
  destruct (consistentes kb g e c) as [|x l]; [contradiction|]. reflexivity.
Qed.

(** C6: whatever the outcome of a filter application, the candidate set
    afterwards is a subset of the one before and no larger (and stays free of
    duplicates, so that its length is its cardinality); a successful
    application, the one that replaces the set, leaves exactly the candidates
    consistent with the feedback; and neither a step-wise call nor a pass of
    the automated run grows the candidate set. *)
Theorem actualizar_con_feedback_no_crece :
  (forall (base : MastermindKB) (g : Combinacion) (e c : Z),
      let base' := fst (actualizar_con_feedback base g e c) in
      incl (combinaciones_posibles base') (combinaciones_posibles base)
      /\ (tamano_espacio_busqueda base' <= tamano_espacio_busqueda base)%nat
      /\ (NoDup (combinaciones_posibles base) ->
          NoDup (combinaciones_posibles base'))
      /\ (snd (actualizar_con_feedback base g e c) = SinAviso ->
          combinaciones_posibles base' = consistentes base g e c))
  /\ (forall (sv : MastermindSolver) (g : Combinacion) (e c : Z),
        let sv' := snd (procesar_intento_tiempo_real sv g e c) in
        incl (combinaciones_posibles (kb sv')) (combinaciones_posibles (kb sv))
        /\ (tamano_espacio_busqueda (kb sv')
            <= tamano_espacio_busqueda (kb sv))%nat)
  /\ (forall (G : Azar) (orden : list Combinacion -> list Combinacion)
             (secreta : Combinacion) (sv : MastermindSolver) (s : Estado G)
             sv' s',
        vuelta G orden secreta sv s = Continua sv' s' ->
        incl (combinaciones_posibles (kb sv')) (combinaciones_posibles (kb sv))
        /\ (tamano_espacio_busqueda (kb sv')
            <= tamano_espacio_busqueda (kb sv))%nat).
Proof.
  split; [|split].
  - intros base g e c base'. subst base'.
    destruct (actualizar_no_crece base g e c) as (Hi & Hl & _).
    split; [exact Hi|]. split; [exact Hl|]. split; [apply actualizar_NoDup|].
    unfold actualizar_con_feedback. fold (consistentes base g e c).
    destruct (e + c >? 4); [discriminate|].
    destruct (_ && _); [discriminate|]. reflexivity.
  - intros sv g e c sv'. subst sv'. unfold procesar_intento_tiempo_real.
    destruct (e =? 4); cbn [snd kb].
    + split; [apply incl_refl | apply Nat.le_refl].
    + destruct (actualizar_no_crece (kb sv) g e c) as (Hi & Hl & _).
      split; assumption.
  - intros G orden secreta sv s sv' s'. unfold vuelta.
    destruct (siguiente_combinacion G orden (kb sv) s) as [[g s1]|];
      [|discriminate].
    destruct (evaluar_combinacion g secreta) as [e c].
    destruct (e =? 4); [discriminate|].
    intros H. injection H as <- <-. cbn [kb].
    destruct (actualizar_no_crece (kb sv) g e c) as (Hi & Hl & _).
    split; assumption.
Qed.

(** ** Rejected feedback *)

(** C5: for every feedback (exact + colour <= 4, which is what gets past the
    sum check to the filter) applied to a non-empty candidate set: if no
    candidate is consistent with it, the operation signals the
    no-consistent-candidates warning and returns the knowledge base, and so
    the candidate set, exactly as it was before the call. *)
Theorem actualizar_con_feedback_sin_consistentes :
  forall (base : MastermindKB) (g : Combinacion) (e c : Z),
    e + c <= 4 ->
    combinaciones_posibles base <> [] ->
    consistentes base g e c = [] ->
    actualizar_con_feedback base g e c = (base, SinCoincidencias)
    /\ combinaciones_posibles (fst (actualizar_con_feedback base g e c))
       = combinaciones_posibles base.
Proof.
  intros base g e c Hsum Hne Hnil.
  assert (E : actualizar_con_feedback base g e c = (base, SinCoincidencias)).
  { unfold actualizar_con_feedback. fold (consistentes base g e c).
    rewrite Hnil, (gtb_falso (e + c) 4) by exact Hsum.
    destruct (combinaciones_posibles base); [congruence | reflexivity]. }
  split; [exact E|]. rewrite E. reflexivity.
Qed.

(** C4, as the code has it: feedback with exact + colour > 4 is rejected by
    the knowledge base with the invalid-feedback warning and the knowledge
    base is returned as it was; [procesar_intento_tiempo_real] leaves the
    knowledge base and the attempt counter as they were, and leaves the size
    history as it was when exact = 4 and otherwise appends the (unchanged)
    size of the candidate set to it. *)
Theorem feedback_invalido_rechazado :
  forall (sv : MastermindSolver) (g : Combinacion) (e c : Z),
    e + c > 4 ->
    actualizar_con_feedback (kb sv) g e c = (kb sv, FeedbackInvalido)
    /\ kb (snd (procesar_intento_tiempo_real sv g e c)) = kb sv
    /\ intentos (snd (procesar_intento_tiempo_real sv g e c)) = intentos sv
    /\ historia_espacio_busqueda (snd (procesar_intento_tiempo_real sv g e c))
       = (if e =? 4 then historia_espacio_busqueda sv
          else historia_espacio_busqueda sv
                 ++ [tamano_espacio_busqueda (kb sv)])
    /\ fst (procesar_intento_tiempo_real sv g e c) = (e =? 4).
Proof.
  intros sv g e c H.
  assert (E : actualizar_con_feedback (kb sv) g e c = (kb sv, FeedbackInvalido)).
  { unfold actualizar_con_feedback.
    rewrite (gtb_cierto (e + c) 4) by lia.
    reflexivity. }
  split; [exact E|]. unfold procesar_intento_tiempo_real. rewrite E.
  destruct (e =? 4); cbn [fst snd kb intentos historia_espacio_busqueda];
    repeat split; destruct sv; reflexivity.
Qed.

(** ** The opening probe *)

(** C8: when the candidate set has as many elements as the universe, the
    selector returns (azul, azul, rojo, verde), whatever the generator and its
    state, the iteration order of the set and the contents of the set, and
    draws nothing from the generator. *)
Theorem siguiente_combinacion_apertura :
  forall (G : Azar) (orden : list Combinacion -> list Combinacion)
         (kb : MastermindKB) (s : Estado G),
    todas_combinaciones kb <> [] ->
    length (combinaciones_posibles kb) = length (todas_combinaciones kb) ->
    siguiente_combinacion G orden kb s = Some (apertura, s).
Proof.
  intros G orden kb0 s Hne Hlen. unfold siguiente_combinacion. cbv zeta.
  rewrite Hlen, Nat.eqb_refl.
  destruct (combinaciones_posibles kb0) eqn:E; [|reflexivity].
  symmetry in Hlen. apply length_zero_iff_nil in Hlen. contradiction.
Qed.

(** ** The universe *)

Lemma en_COLORES_todos (a : Color) : In a COLORES.
Proof. destruct a; simpl; tauto. Qed.

Lemma producto_completo (x : Combinacion) : In x producto.
Proof.
  destruct x as [[[a b] c] d]. unfold producto.
  apply in_flat_map; exists a; split; [apply en_COLORES_todos|].
  apply in_flat_map; exists b; split; [apply en_COLORES_todos|].
  apply in_flat_map; exists c; split; [apply en_COLORES_todos|].
  apply in_map, en_COLORES_todos.
Qed.

Lemma length_producto : length producto = 1296%nat.
Proof. vm_compute. reflexivity. Qed.

Lemma nueva_posibles : combinaciones_posibles MastermindKB_nueva = producto.
Proof. vm_compute. reflexivity. Qed.

Lemma nueva_NoDup : NoDup (combinaciones_posibles MastermindKB_nueva).
Proof. apply NoDup_nodup. Qed.

(** ** The random module never raises at the selector's call sites *)

Section Sorteo.

Variable G : Azar.

Lemma randbelow_menor (n : nat) (s : Estado G) :
  n <> O -> (fst (randbelow G n s) < n)%nat.
Proof.
  intros H. unfold randbelow. destruct (extraer G s) as [r s']. simpl.
  apply Nat.mod_upper_bound. exact H.
Qed.

Lemma choice_total {A : Type} (l : list A) (s : Estado G) :
  l <> [] -> exists x s', choice G l s = Some (x, s') /\ In x l.
Proof.
  intros H. unfold choice. destruct l as [|a l]; [congruence|].
  pose proof (randbelow_menor (length (a :: l)) s) as B.
  destruct (randbelow G (length (a :: l)) s) as [j s']. cbn [fst] in B.
  destruct (nth_error (a :: l) j) as [x|] eqn:E.
  - exists x, s'. split; [reflexivity|]. eapply nth_error_In; eassumption.
  - apply nth_error_None in E. simpl in B, E. lia.
Qed.

Lemma length_quitar {A : Type} (j : nat) (l : list A) :
  (j < length l)%nat -> length (quitar j l) = pred (length l).
Proof.
  revert j. induction l as [|a l IH]; intros j H; simpl in *; [lia|].
  destruct j; [reflexivity|]. simpl. rewrite IH by lia. lia.
Qed.

Lemma sample_desde_total {A : Type} (k : nat) :
  forall (pool : list A) (s : Estado G),
    (k <= length pool)%nat ->
    exists r s', sample_desde G k pool s = Some (r, s') /\ length r = k.
Proof.
  induction k as [|k IH]; intros pool s H; cbn [sample_desde].
  - exists [], s. split; reflexivity.
  - pose proof (randbelow_menor (length pool) s) as B.
    destruct (randbelow G (length pool) s) as [j s1]. cbn [fst] in B.
    assert (Hj : (j < length pool)%nat) by (apply B; lia).
    destruct (nth_error pool j) as [x|] eqn:E.
    + destruct (IH (quitar j pool) s1) as (r & s2 & -> & Hr).
      { rewrite length_quitar by exact Hj. lia. }
      exists (x :: r), s2. split; [reflexivity | simpl; lia].
    + apply nth_error_None in E. lia.
Qed.

Lemma sample_total {A : Type} (population : list A) (k : nat) (s : Estado G) :
  (k <= length population)%nat ->
  exists r s', sample G population k s = Some (r, s') /\ length r = k.
Proof.
  intros H. unfold sample.
  destruct (length population <? k)%nat eqn:E.
  - apply Nat.ltb_lt in E. lia.
  - apply sample_desde_total. exact H.
Qed.

Variable orden : list Combinacion -> list Combinacion.

Hypothesis orden_permuta : forall l, Permutation (orden l) l.

Lemma length_orden (l : list Combinacion) : length (orden l) = length l.
Proof. apply Permutation_length, orden_permuta. Qed.

Lemma evaluar_sondas_total (posibles sondas : list Combinacion) :
  forall mejor puntuacion (s : Estado G),
    exists m s',
      evaluar_sondas G orden posibles sondas mejor puntuacion s = Some (m, s').
Proof.
  induction sondas as [|g sondas IH]; intros mejor puntuacion s;
    cbn [evaluar_sondas].
  - eauto.
  - destruct (sample_total (orden posibles) (Nat.min 50 (length posibles)) s)
      as (muestra & s1 & -> & _).
    { rewrite length_orden. apply Nat.le_min_r. }
    destruct (menor_que _ puntuacion); apply IH.
Qed.

(** With at least 20 combinations in the universe the selector returns a
    probe, whatever the candidate set. *)
Lemma siguiente_combinacion_total (base : MastermindKB) (s : Estado G) :
  (20 <= length (todas_combinaciones base))%nat ->
  exists g s', siguiente_combinacion G orden base s = Some (g, s').
Proof.
  intros Htodas. unfold siguiente_combinacion. cbv zeta.
  destruct (combinaciones_posibles base) as [|x l] eqn:E.
  - cbn [vacia]. unfold combinacion_al_azar.
    destruct (choice_total COLORES s) as (a & s1 & -> & _); [discriminate|].
    destruct (choice_total COLORES s1) as (b & s2 & -> & _); [discriminate|].
    destruct (choice_total COLORES s2) as (c & s3 & -> & _); [discriminate|].
    destruct (choice_total COLORES s3) as (d & s4 & -> & _); [discriminate|].
    eauto.
  - cbn [vacia]. set (posibles := x :: l).
    assert (Hne : orden posibles <> []).
    { intros H. pose proof (length_orden posibles) as L. rewrite H in L.
      discriminate L. }
    destruct (length posibles =? length (todas_combinaciones base))%nat;
      [eauto|].
    destruct (length posibles <=? 2)%nat.
    { destruct (orden posibles); [congruence | eauto]. }
    destruct (length posibles <=? 10)%nat.
    { destruct (choice_total (orden posibles) s Hne) as (g & s' & -> & _).
      eauto. }
    match goal with
    | |- context [sample G ?pop ?k s] =>
        destruct (sample_total pop k s) as (sondas & s1 & -> & _)
    end.
    { destruct (length posibles <=? 50)%nat eqn:L.
      - rewrite length_orden. apply Nat.le_min_r.
      - etransitivity; [apply Nat.le_min_l | exact Htodas]. }
    destruct (evaluar_sondas_total posibles sondas None None s1)
      as ([g|] & s2 & ->); [eauto|].
    destruct (choice_total (orden posibles) s2 Hne) as (g & s' & -> & _).
    eauto.
Qed.

(** *** The probes of the lower tiers are candidates *)

Lemma choice_In {A : Type} (l : list A) (s : Estado G) x s' :
  choice G l s = Some (x, s') -> In x l.
Proof.
  unfold choice. destruct l as [|a l]; [discriminate|].
  destruct (randbelow G (length (a :: l)) s) as [j s1].
  destruct (nth_error (a :: l) j) as [y|] eqn:E; [|discriminate].
  intros H. injection H as <- <-. eapply nth_error_In; eassumption.
Qed.

Lemma quitar_incl {A : Type} (j : nat) (l : list A) : incl (quitar j l) l.
Proof.
  revert j. induction l as [|a l IH]; intros j; [destruct j; apply incl_refl|].
  destruct j as [|j]; cbn [quitar].
  - apply incl_tl, incl_refl.
  - apply incl_cons; [left; reflexivity | apply incl_tl, IH].
Qed.

Lemma sample_desde_incl {A : Type} (k : nat) :
  forall (pool : list A) (s : Estado G) r s',
    sample_desde G k pool s = Some (r, s') -> incl r pool.
Proof.
  induction k as [|k IH]; intros pool s r s' H; cbn [sample_desde] in H.
  - injection H as <- <-. intros x [].
  - destruct (randbelow G (length pool) s) as [j s1].
    destruct (nth_error pool j) as [x|] eqn:E; [|discriminate].
    destruct (sample_desde G k (quitar j pool) s1) as [[resto s2]|] eqn:R;
      [|discriminate].
    injection H as <- <-. apply incl_cons.
    + eapply nth_error_In; eassumption.
    + eapply incl_tran; [eapply IH; eassumption | apply quitar_incl].
Qed.

Lemma sample_incl {A : Type} (population : list A) (k : nat) (s : Estado G)
  r s' :
  sample G population k s = Some (r, s') -> incl r population.
Proof.
  unfold sample. destruct (length population <? k)%nat; [discriminate|].
  apply sample_desde_incl.
Qed.

Lemma evaluar_sondas_In (posibles sondas : list Combinacion) :
  forall mejor puntuacion (s : Estado G) g s',
    evaluar_sondas G orden posibles sondas mejor puntuacion s
    = Some (Some g, s') ->
    In g sondas \/ mejor = Some g.
Proof.
  induction sondas as [|x sondas IH]; intros mejor puntuacion s g s' H;
    cbn [evaluar_sondas] in H.
  - injection H as -> _. right; reflexivity.
  - destruct (sample G (orden posibles) (Nat.min 50 (length posibles)) s)
      as [[muestra s1]|]; [|discriminate].
    destruct (menor_que _ puntuacion);
      destruct (IH _ _ _ _ _ H) as [Hin|E];
      try (left; right; exact Hin).
    + injection E as <-. left; left; reflexivity.
    + right; exact E.
Qed.

(** Below the opening tier and with at most 50 candidates, the probe is one
    of the candidates: probes from outside come only from the tier that
    samples the whole universe. *)
Lemma siguiente_combinacion_entre_posibles (base : MastermindKB)
  (s : Estado G) g s' :
  combinaciones_posibles base <> [] ->
  length (combinaciones_posibles base) <> length (todas_combinaciones base) ->
  (length (combinaciones_posibles base) <= 50)%nat ->
  siguiente_combinacion G orden base s = Some (g, s') ->
  In g (combinaciones_posibles base).
Proof.
  intros Hne Hdif H50. unfold siguiente_combinacion. cbv zeta.
  assert (Hord : forall x, In x (orden (combinaciones_posibles base)) ->
                           In x (combinaciones_posibles base)).
  { intros x. apply Permutation_in, orden_permuta. }
  destruct (combinaciones_posibles base) as [|x l] eqn:E; [congruence|].
  cbn [vacia]. set (posibles := x :: l) in *.
  destruct (Nat.eqb_spec (length posibles) (length (todas_combinaciones base)));
    [contradiction|].
  destruct (length posibles <=? 2)%nat.
  { destruct (orden posibles) as [|y r] eqn:O; [discriminate|].
    intros H. injection H as <- <-. apply Hord. left; reflexivity. }
  destruct (length posibles <=? 10)%nat.
  { intros H. apply Hord. eapply choice_In; eassumption. }
  apply Nat.leb_le in H50. rewrite H50.
  destruct (sample G (orden posibles) (Nat.min 20 (length posibles)) s)
    as [[sondas s1]|] eqn:S; [|discriminate].
  destruct (evaluar_sondas G orden posibles sondas None None s1)
    as [[[m|] s2]|] eqn:Ev; [| |discriminate].
  - intros H. injection H as <- <-.
    destruct (evaluar_sondas_In _ _ _ _ _ _ _ Ev) as [Hin|]; [|discriminate].
    apply Hord. eapply sample_incl; eassumption.
  - intros H. apply Hord. eapply choice_In; eassumption.
Qed.

End Sorteo.

(** ** The automated run *)

Lemma evaluar_combinacion_misma (g : Combinacion) :
  fst (evaluar_combinacion g g) = 4.
Proof.
  unfold evaluar_combinacion, contar. cbn [seq fold_left fst].
  unfold paso_conteo. rewrite !Color_eqb_refl. reflexivity.
Qed.

Lemma filter_length_menor {A : Type} (f : A -> bool) (x : A) (l : list A) :
  In x l -> f x = false -> (length (filter f l) < length l)%nat.
Proof.
  induction l as [|a l IH]; intros Hin Hf; [contradiction|].
  cbn [filter length]. destruct Hin as [->|Hin].
  - rewrite Hf. pose proof (filter_length_le f l). lia.
  - specialize (IH Hin Hf). destruct (f a); cbn [length]; lia.
Qed.

Section Partida.

Variable G : Azar.
Variable orden : list Combinacion -> list Combinacion.
Variable secreta : Combinacion.

Lemma vuelta_retorna (sv : MastermindSolver) (s : Estado G) r :
  vuelta G orden secreta sv s = Retorna r ->
  r = (S (intentos sv), historia_espacio_busqueda sv).
Proof.
  unfold vuelta. destruct (siguiente_combinacion G orden (kb sv) s)
    as [[g s1]|]; [|discriminate].
  destruct (evaluar_combinacion g secreta) as [p c].
  destruct (p =? 4); [|discriminate]. congruence.
Qed.

Lemma vuelta_lanza (sv : MastermindSolver) (s : Estado G) :
  vuelta G orden secreta sv s = Lanza ->
  siguiente_combinacion G orden (kb sv) s = None.
Proof.
  unfold vuelta. destruct (siguiente_combinacion G orden (kb sv) s)
    as [[g s1]|]; [|reflexivity].
  destruct (evaluar_combinacion g secreta) as [p c].
  destruct (p =? 4); discriminate.
Qed.

Lemma vuelta_continua (sv : MastermindSolver) (s : Estado G) sv' s' :
  vuelta G orden secreta sv s = Continua sv' s' ->
  exists g,
    siguiente_combinacion G orden (kb sv) s = Some (g, s')
    /\ fst (evaluar_combinacion g secreta) <> 4
    /\ kb sv' = fst (actualizar_con_feedback (kb sv) g
                       (fst (evaluar_combinacion g secreta))
                       (snd (evaluar_combinacion g secreta)))
    /\ intentos sv' = S (intentos sv)
    /\ historia_espacio_busqueda sv'
       = historia_espacio_busqueda sv ++ [tamano_espacio_busqueda (kb sv')].
Proof.
  unfold vuelta. destruct (siguiente_combinacion G orden (kb sv) s)
    as [[g s1]|]; [|discriminate].
  destruct (evaluar_combinacion g secreta) as [p c] eqn:E.
  destruct (p =? 4) eqn:E4; [discriminate|].
  intros H. injection H as <- <-. exists g. cbn [fst snd kb intentos
    historia_espacio_busqueda].
  apply Z.eqb_neq in E4. rewrite E. cbn [fst snd]. repeat split; auto.
Qed.

(** One pass that goes on keeps the secret among the candidates, keeps the
    universe, never grows the candidate set, and shrinks it when the probe
    was one of the candidates. *)
Lemma vuelta_conserva (sv : MastermindSolver) (s : Estado G) sv' s' :
  In secreta (combinaciones_posibles (kb sv)) ->
  vuelta G orden secreta sv s = Continua sv' s' ->
  In secreta (combinaciones_posibles (kb sv'))
  /\ todas_combinaciones (kb sv') = todas_combinaciones (kb sv)
  /\ incl (combinaciones_posibles (kb sv')) (combinaciones_posibles (kb sv))
  /\ (forall g, siguiente_combinacion G orden (kb sv) s = Some (g, s') ->
        In g (combinaciones_posibles (kb sv)) ->
        (length (combinaciones_posibles (kb sv'))
         < length (combinaciones_posibles (kb sv)))%nat).
Proof.
  intros Hin Hv. destruct (vuelta_continua _ _ _ _ Hv)
    as (g & Hg & H4 & Hkb & _ & _).
  destruct (actualizar_con_evaluacion (kb sv) g secreta Hin) as [Ea Hs].
  rewrite Ea in Hkb. cbn [fst] in Hkb. rewrite Hkb.
  cbn [combinaciones_posibles todas_combinaciones].
  split; [exact Hs|]. split; [reflexivity|].
  split; [apply incl_filter|].
  intros g' Hg' Hing. rewrite Hg in Hg'. injection Hg' as <-.
  unfold consistentes. apply filter_length_menor with (x := g); [exact Hing|].
  destruct (_coincide_feedback g g _ _) eqn:E; [|reflexivity].
  apply coincide_feedback_evaluar in E.
  apply (f_equal fst) in E. cbn [fst] in E.
  rewrite evaluar_combinacion_misma in E. congruence.
Qed.

(** C2: filtering the candidate set with the feedback that scoring a guess
    against a member of the set produces is accepted and leaves that member
    in the set; so in an automated run, at the top of the loop after every
    filtering step, the secret is a member of the candidate set. *)
Theorem secreta_permanece :
  (forall (base : MastermindKB) (guess secret : Combinacion),
      In secret (combinaciones_posibles base) ->
      let '(e, c) := evaluar_combinacion guess secret in
      In secret
        (combinaciones_posibles (fst (actualizar_con_feedback base guess e c)))
      /\ snd (actualizar_con_feedback base guess e c) = SinAviso)
  /\ (forall (k : nat) (s : Estado G) sv s',
        estado_tras G orden secreta k s = Some (sv, s') ->
        In secreta (combinaciones_posibles (kb sv))).
Proof.
  split.
  - intros base guess secret Hin.
    destruct (actualizar_con_evaluacion base guess secret Hin) as [Ea Hs].
    destruct (evaluar_combinacion guess secret) as [e c]. cbn [fst snd] in *.
    rewrite Ea. split; [exact Hs | reflexivity].
  - induction k as [|k IH]; intros s sv s' H; cbn [estado_tras] in H.
    + injection H as <- <-. unfold solver_inicial. cbn [kb].
      rewrite nueva_posibles. apply producto_completo.
    + destruct (estado_tras G orden secreta k s) as [[sv0 s0]|] eqn:E;
        [|discriminate].
      destruct (vuelta G orden secreta sv0 s0) as [r|sv1 s1|] eqn:Hv;
        try discriminate.
      injection H as <- <-.
      exact (proj1 (vuelta_conserva sv0 s0 sv1 s1 (IH s sv0 s0 E) Hv)).
Qed.

Lemma historia_al_dia_inicial : historia_al_dia solver_inicial.
Proof.
  unfold historia_al_dia, solver_inicial.
  cbn [historia_espacio_busqueda intentos length nth_error].
  unfold tamano_espacio_busqueda. rewrite nueva_posibles, length_producto.
  split; reflexivity.
Qed.

Lemma historia_al_dia_vuelta (sv : MastermindSolver) (s : Estado G) sv' s' :
  historia_al_dia sv ->
  vuelta G orden secreta sv s = Continua sv' s' ->
  historia_al_dia sv'.
Proof.
  intros [Hl H0] Hv. destruct (vuelta_continua _ _ _ _ Hv)
    as (g & _ & _ & _ & Hi & Hh).
  unfold historia_al_dia. rewrite Hh, Hi, length_app. cbn [length]. split.
  - lia.
  - rewrite nth_error_app1 by lia. exact H0.
Qed.

Lemma bucle_historia (pasadas : nat) :
  forall (sv : MastermindSolver) (s : Estado G) n h,
    historia_al_dia sv ->
    bucle G orden secreta pasadas sv s = Devuelve (n, h) ->
    length h = n /\ nth_error h 0 = Some 1296%nat.
Proof.
  induction pasadas as [|p IH]; intros sv s n h Hinv H; cbn [bucle] in H;
    [discriminate|].
  destruct (vuelta G orden secreta sv s) as [r|sv1 s1|] eqn:Hv;
    [| |discriminate].
  - apply vuelta_retorna in Hv. injection H as ->. injection Hv as -> ->.
    exact Hinv.
  - eapply IH; [|exact H]. eapply historia_al_dia_vuelta; eassumption.
Qed.

(** C10: a result (attempts, history) of [modo_automatico] has exactly
    [attempts] entries in its history and 1296 as the first; at the top of
    the loop after [k] passes the counter is [k] and the history has
    [k + 1] entries; a pass that goes on appends one entry, the size of the
    candidate set, and the pass that returns appends none. *)
Theorem modo_automatico_historia :
  (forall (pasadas : nat) (s : Estado G) n h,
      modo_automatico G orden secreta pasadas s = Devuelve (n, h) ->
      length h = n /\ nth_error h 0 = Some 1296%nat)
  /\ (forall (k : nat) (s : Estado G) sv s',
        estado_tras G orden secreta k s = Some (sv, s') ->
        intentos sv = k
        /\ length (historia_espacio_busqueda sv) = S (intentos sv)
        /\ nth_error (historia_espacio_busqueda sv) 0 = Some 1296%nat)
  /\ (forall sv (s : Estado G) sv' s',
        vuelta G orden secreta sv s = Continua sv' s' ->
        intentos sv' = S (intentos sv)
        /\ historia_espacio_busqueda sv'
           = historia_espacio_busqueda sv
               ++ [tamano_espacio_busqueda (kb sv')])
  /\ (forall sv (s : Estado G) n h,
        vuelta G orden secreta sv s = Retorna (n, h) ->
        n = S (intentos sv) /\ h = historia_espacio_busqueda sv).
Proof.
  split; [|split; [|split]].
  - intros pasadas s n h H. unfold modo_automatico in H.
    eapply bucle_historia; [apply historia_al_dia_inicial | exact H].
  - induction k as [|k IH]; intros s sv s' H; cbn [estado_tras] in H.
    + injection H as <- <-. split; [reflexivity|].
      apply historia_al_dia_inicial.
    + destruct (estado_tras G orden secreta k s) as [[sv0 s0]|] eqn:E;
        [|discriminate].
      destruct (vuelta G orden secreta sv0 s0) as [r|sv1 s1|] eqn:Hv;
        try discriminate.
      injection H as <- <-.
      destruct (IH s sv0 s0 E) as (Hk & Hinv).
      destruct (vuelta_continua _ _ _ _ Hv) as (g & _ & _ & _ & Hi & _).
      split; [lia|].
      eapply historia_al_dia_vuelta; [exact Hinv | exact Hv].
  - intros sv s sv' s' Hv.
    destruct (vuelta_continua _ _ _ _ Hv) as (g & _ & _ & _ & Hi & Hh).
    split; assumption.
  - intros sv s n h Hv. apply vuelta_retorna in Hv.
    injection Hv as -> ->. split; reflexivity.
Qed.

(** *** Termination when the passes shrink the candidate set *)

Hypothesis orden_permuta : forall l, Permutation (orden l) l.

Lemma bucle_termina (pasadas : nat) :
  forall (sv : MastermindSolver) (s : Estado G),
    In secreta (combinaciones_posibles (kb sv)) ->
    (20 <= length (todas_combinaciones (kb sv)))%nat ->
    (length (combinaciones_posibles (kb sv)) <= pasadas)%nat ->
    sondas_entre_posibles G orden secreta pasadas sv s = true ->
    exists n h,
      bucle G orden secreta pasadas sv s = Devuelve (n, h)
      /\ (n <= intentos sv + pasadas)%nat.
Proof.
  induction pasadas as [|p IH]; intros sv s Hin Htodas Hlen Hs.
  - destruct (combinaciones_posibles (kb sv)); [contradiction|].
    cbn [length] in Hlen. lia.
  - cbn [bucle sondas_entre_posibles] in *.
    destruct (siguiente_combinacion_total G orden orden_permuta (kb sv) s Htodas)
      as (g & s1 & Hg).
    rewrite Hg in Hs. apply andb_true_iff in Hs. destruct Hs as [Hmem Hs].
    apply existsb_Combinacion_eqb in Hmem.
    destruct (vuelta G orden secreta sv s) as [r|sv1 s2|] eqn:Hv.
    + apply vuelta_retorna in Hv. subst r. eexists _, _. split; [reflexivity|].
      lia.
    + destruct (vuelta_continua _ _ _ _ Hv) as (g' & Hg' & _ & _ & Hi & _).
      destruct (vuelta_conserva sv s sv1 s2 Hin Hv) as (Hin1 & Ht1 & _ & Hlt).
      specialize (Hlt g' Hg').
      rewrite Hg in Hg'. injection Hg' as <- <-. specialize (Hlt Hmem).
      destruct (IH sv1 s1 Hin1) as (n & h & Hb & Hn);
        [rewrite Ht1; exact Htodas | lia | exact Hs |].
      exists n, h. split; [exact Hb | lia].
    + apply vuelta_lanza in Hv. congruence.
Qed.

(** When every probe is a candidate, every pass that goes on leaves fewer
    candidates. *)
Lemma sondas_entre_posibles_reducen (pasadas : nat) :
  forall (sv : MastermindSolver) (s : Estado G),
    In secreta (combinaciones_posibles (kb sv)) ->
    sondas_entre_posibles G orden secreta pasadas sv s = true ->
    pasadas_reducen G orden secreta pasadas sv s = true.
Proof.
  induction pasadas as [|p IH]; intros sv s Hin Hs;
    cbn [sondas_entre_posibles pasadas_reducen] in *; [reflexivity|].
  destruct (vuelta G orden secreta sv s) as [r|sv1 s1|] eqn:Hv;
    try reflexivity.
  destruct (vuelta_continua _ _ _ _ Hv) as (g & Hg & _).
  destruct (vuelta_conserva sv s sv1 s1 Hin Hv) as (Hin1 & _ & _ & Hlt).
  rewrite Hg in Hs. apply andb_true_iff in Hs. destruct Hs as [Hmem Hs].
  apply existsb_Combinacion_eqb in Hmem.
  apply andb_true_iff. split.
  - apply Nat.ltb_lt. exact (Hlt g Hg Hmem).
  - apply IH; assumption.
Qed.

Lemma bucle_termina_si_reduce (pasadas : nat) :
  forall (sv : MastermindSolver) (s : Estado G),
    In secreta (combinaciones_posibles (kb sv)) ->
    (20 <= length (todas_combinaciones (kb sv)))%nat ->
    (tamano_espacio_busqueda (kb sv) <= pasadas)%nat ->
    pasadas_reducen G orden secreta pasadas sv s = true ->
    exists n h,
      bucle G orden secreta pasadas sv s = Devuelve (n, h)
      /\ (n <= intentos sv + pasadas)%nat.
Proof.
  induction pasadas as [|p IH]; intros sv s Hin Htodas Hlen Hs.
  - unfold tamano_espacio_busqueda in Hlen.
    destruct (combinaciones_posibles (kb sv)); [contradiction|].
    cbn [length] in Hlen. lia.
  - cbn [bucle pasadas_reducen] in *.
    destruct (vuelta G orden secreta sv s) as [r|sv1 s1|] eqn:Hv.
    + apply vuelta_retorna in Hv. subst r. eexists _, _. split; [reflexivity|].
      lia.
    + destruct (vuelta_continua _ _ _ _ Hv) as (g & _ & _ & _ & Hi & _).
      destruct (vuelta_conserva sv s sv1 s1 Hin Hv) as (Hin1 & Ht1 & _ & _).
      apply andb_true_iff in Hs. destruct Hs as [Hlt Hs].
      apply Nat.ltb_lt in Hlt.
      destruct (IH sv1 s1 Hin1) as (n & h & Hb & Hn);
        [rewrite Ht1; exact Htodas | lia | exact Hs |].
      exists n, h. split; [exact Hb | lia].
    + apply vuelta_lanza in Hv.
      destruct (siguiente_combinacion_total G orden orden_permuta (kb sv) s
                  Htodas) as (g & s1 & Hg). congruence.
Qed.

(** C3, as the code has it: for every secret, every iteration order of the
    set and every generator under which each pass that does not find the
    secret leaves fewer candidates than it found (as it does whenever the
    probe is one of the candidates), the automated run returns, after at
    most 1296 attempts. *)
Theorem modo_automatico_termina :
  forall s : Estado G,
    pasadas_reducen G orden secreta 1296 solver_inicial s = true ->
    exists n h,
      modo_automatico G orden secreta 1296 s = Devuelve (n, h)
      /\ (n <= 1296)%nat.
Proof.
  intros s Hs. unfold modo_automatico.
  destruct (bucle_termina_si_reduce 1296 solver_inicial s)
    as (n & h & Hb & Hn).
  - unfold solver_inicial. cbn [kb]. rewrite nueva_posibles.
    apply producto_completo.
  - unfold solver_inicial, MastermindKB_nueva. cbn [kb todas_combinaciones].
    rewrite length_producto. lia.
  - unfold solver_inicial, tamano_espacio_busqueda. cbn [kb].
    rewrite nueva_posibles, length_producto. lia.
  - exact Hs.
  - exists n, h. split; [exact Hb|]. unfold solver_inicial in Hn.
    cbn [intentos] in Hn. lia.
Qed.

End Partida.

(** ** Parsing *)

Lemma lstrip_sin_espacios (w : string) : sin_espacios w = true -> lstrip w = w.
Proof.
  destruct w as [|c r]; [reflexivity|]. cbn [sin_espacios lstrip].
  destruct (es_espacio c); [discriminate | reflexivity].
Qed.

Lemma rstrip_sin_espacios (w : string) : sin_espacios w = true -> rstrip w = w.
Proof.
  induction w as [|c r IH]; [reflexivity|]. cbn [sin_espacios rstrip].
  intros H. apply andb_true_iff in H. destruct H as [Hc Hr].
  rewrite (IH Hr). destruct r; [|reflexivity].
  destruct (es_espacio c); [discriminate | reflexivity].
Qed.

Lemma strip_sin_espacios (w : string) : sin_espacios w = true -> strip w = w.
Proof.
  intros H. unfold strip. rewrite (lstrip_sin_espacios w H).
  apply rstrip_sin_espacios, H.
Qed.

Lemma split_cons (c : ascii) (r : string) :
  split (String c r)
  = if es_espacio c then split r
    else
      match r with
      | EmptyString => [String c EmptyString]
      | String c' _ =>
          if es_espacio c' then String c EmptyString :: split r
          else
            match split r with
            | w :: ws => String c w :: ws
            | [] => [String c EmptyString]
            end
      end.
Proof. destruct r; reflexivity. Qed.

(** The pieces of a whitespace split hold no whitespace. *)
Lemma split_sin_espacios (s : string) :
  Forall (fun w => sin_espacios w = true) (split s).
Proof.
  induction s as [|c r IH]; [constructor|]. rewrite split_cons.
  destruct (es_espacio c) eqn:Ec; [exact IH|].
  assert (H1 : sin_espacios (String c EmptyString) = true)
    by (cbn [sin_espacios]; rewrite Ec; reflexivity).
  destruct r as [|c' r']; [repeat constructor; exact H1|].
  destruct (es_espacio c'); [constructor; assumption|].
  destruct (split (String c' r')) as [|w ws]; [repeat constructor; exact H1|].
  inversion IH as [|? ? Hw Hws]; subst. constructor; [|exact Hws].
  cbn [sin_espacios]. rewrite Ec, Hw. reflexivity.
Qed.

Lemma primer_invalido_ninguno (colores : list string) :
  primer_invalido colores = None <-> forallb en_COLORES colores = true.
Proof.
  induction colores as [|x l IH]; cbn [primer_invalido forallb].
  - split; reflexivity.
  - destruct (en_COLORES x); cbn [andb]; [exact IH|].
    split; discriminate.
Qed.

Lemma forallb_map_compuesta {A B : Type} (f : B -> bool) (g : A -> B)
  (l : list A) :
  forallb f (map g l) = forallb (fun x => f (g x)) l.
Proof. induction l as [|a l IH]; simpl; [reflexivity | now rewrite IH]. Qed.

Lemma en_COLORES_color_de_nombre (x : string) :
  en_COLORES x = true -> exists c, color_de_nombre x = Some c.
Proof.
  unfold en_COLORES, color_de_nombre. intros H.
  apply existsb_exists in H. destruct H as (c & Hc & E).
  destruct (find (fun c0 => String.eqb x (nombre c0)) COLORES) eqn:F;
    [eauto|].
  pose proof (find_none _ _ F c Hc) as N. cbv beta in N. congruence.
Qed.

Lemma convertir_entrada_casos (entrada : string) :
  convertir_entrada_a_combinacion entrada
  = if negb (length (colores_de entrada) =? 4)%nat then ErrorCantidad
    else
      match primer_invalido (colores_de entrada) with
      | Some color => ErrorColor color
      | None => Tupla (colores_de entrada)
      end.
Proof.
  unfold convertir_entrada_a_combinacion, colores_de, ReferenciaEntrada.tokens.
  destruct (contiene coma entrada); reflexivity.
Qed.

(** C9, as the code has it: the parser builds the tuple exactly when the
    input, split on commas when it holds a comma and on whitespace otherwise,
    gives exactly 4 tokens each of which, stripped of the whitespace around
    it and then lowercased, is in the alphabet; the tuple holds those
    stripped, lowercased tokens and stands for a combination; after a split
    on whitespace stripping changes nothing; every other input gives
    [None]. *)
Theorem convertir_entrada_a_combinacion_acepta :
  forall entrada : string,
    let toks := ReferenciaEntrada.tokens entrada in
    let limpio := fun tok => lower (strip tok) in
    (forall t,
        convertir_entrada_a_combinacion entrada = Tupla t
        <-> length toks = 4%nat
            /\ forallb (fun tok => en_COLORES (limpio tok)) toks = true
            /\ t = map limpio toks)
    /\ (contiene coma entrada = false -> map strip toks = toks)
    /\ (forall t,
          convertir_entrada_a_combinacion entrada = Tupla t ->
          exists x, combinacion_de_tupla t = Some x)
    /\ (length toks <> 4%nat
        \/ forallb (fun tok => en_COLORES (limpio tok)) toks = false ->
        valor_devuelto (convertir_entrada_a_combinacion entrada) = None).
Proof.
  intros entrada toks limpio.
  assert (Hiff : forall t,
             convertir_entrada_a_combinacion entrada = Tupla t
             <-> length toks = 4%nat
                 /\ forallb (fun tok => en_COLORES (limpio tok)) toks = true
                 /\ t = map limpio toks).
  { intros t. rewrite convertir_entrada_casos. unfold colores_de.
    fold toks. fold limpio. rewrite length_map.
    rewrite <- (forallb_map_compuesta en_COLORES limpio toks).
    destruct (Nat.eqb_spec (length toks) 4) as [E|E]; cbn [negb].
    - destruct (primer_invalido (map limpio toks)) as [x|] eqn:P.
      + split; [discriminate|]. intros (_ & F & _).
        apply primer_invalido_ninguno in F. congruence.
      + apply primer_invalido_ninguno in P. split.
        * intros H. injection H as <-. auto.
        * intros (_ & _ & ->). reflexivity.
    - split; [discriminate|]. intros (L & _). contradiction. }
  split; [exact Hiff|]. split; [|split].
  - intros Hc. subst toks. unfold ReferenciaEntrada.tokens. rewrite Hc.
    pose proof (split_sin_espacios entrada) as F.
    induction F as [|w ws Hw _ IH]; [reflexivity|].
    cbn [map]. rewrite (strip_sin_espacios w Hw), IH. reflexivity.
  - intros t Ht. apply Hiff in Ht. destruct Ht as (L & F & ->).
    destruct toks as [|t1 [|t2 [|t3 [|t4 [|t5 r]]]]]; try discriminate L.
    cbn [forallb] in F. rewrite !andb_true_iff in F.
    destruct F as (F1 & F2 & F3 & F4 & _).
    destruct (en_COLORES_color_de_nombre _ F1) as (a & Ea).
    destruct (en_COLORES_color_de_nombre _ F2) as (b & Eb).
    destruct (en_COLORES_color_de_nombre _ F3) as (c & Ec).
    destruct (en_COLORES_color_de_nombre _ F4) as (d & Ed).
    exists (a, b, c, d). unfold combinacion_de_tupla. cbn [map].
    rewrite Ea, Eb, Ec, Ed. reflexivity.
  - intros H. destruct (convertir_entrada_a_combinacion entrada) as [t| |x]
      eqn:E; try reflexivity.
    destruct (proj1 (Hiff t) eq_refl) as (L & F & _).
    destruct H as [H|H]; [contradiction | congruence].
Qed.

(** ** A run that never returns *)

(** After the opening probe scored (0, 0) against a secret over blanco, negro
    and purpura, 81 candidates remain, so the probes are sampled from the
    whole universe. When the twenty sampled probes are all over azul, rojo
    and verde, each scores (0, 0) against every candidate: the first of them
    is chosen, the filter keeps all 81 candidates, and the next pass starts
    from the same knowledge base. *)

Lemma vuelta_inicial_adversa :
  vuelta azar_adverso (fun l => l) secreta_adversa solver_inicial O
  = @Continua azar_adverso (mkSolver base_adversa 1 [1296; 81]%nat) O.
Proof. vm_compute. reflexivity. Qed.

Lemma siguiente_combinacion_adversa :
  siguiente_combinacion azar_adverso (fun l => l) base_adversa O
  = Some ((verde, verde, verde, verde), O).
Proof. vm_compute. reflexivity. Qed.

Lemma actualizar_adversa :
  actualizar_con_feedback base_adversa (verde, verde, verde, verde) 0 0
  = (base_adversa, SinAviso).
Proof. vm_compute. reflexivity. Qed.

Lemma tamano_adversa : tamano_espacio_busqueda base_adversa = 81%nat.
Proof. vm_compute. reflexivity. Qed.

Lemma vuelta_adversa (n : nat) (h : list nat) :
  vuelta azar_adverso (fun l => l) secreta_adversa (mkSolver base_adversa n h) O
  = @Continua azar_adverso (mkSolver base_adversa (S n) (h ++ [81%nat])) O.
Proof.
  unfold vuelta. cbn [kb intentos historia_espacio_busqueda].
  rewrite siguiente_combinacion_adversa.
  change (evaluar_combinacion (verde, verde, verde, verde) secreta_adversa)
    with (0, 0).
  cbv beta iota. change (0 =? 4) with false. cbv beta iota.
  rewrite actualizar_adversa. cbn [fst]. rewrite tamano_adversa. reflexivity.
Qed.

Lemma bucle_adverso (pasadas : nat) :
  forall (n : nat) (h : list nat),
    bucle azar_adverso (fun l => l) secreta_adversa pasadas
      (mkSolver base_adversa n h) O
    = SinTerminar.
Proof.
  induction pasadas as [|p IH]; intros n h; cbn [bucle]; [reflexivity|].
  rewrite vuelta_adversa. apply IH.
Qed.

Lemma modo_automatico_adverso (pasadas : nat) :
  modo_automatico azar_adverso (fun l => l) secreta_adversa pasadas O
  = SinTerminar.
Proof.
  destruct pasadas as [|p]; [reflexivity|].
  unfold modo_automatico. cbn [bucle]. rewrite vuelta_inicial_adversa.
  apply bucle_adverso.
Qed.

(** C3 fails as stated: there are a generator, an iteration order and a
    secret for which the automated run has not returned after any number of
    passes, 1296 included. *)
Lemma modo_automatico_sin_cota :
  exists (G : Azar) (orden : list Combinacion -> list Combinacion)
         (secreta : Combinacion) (s : Estado G),
    (forall l, Permutation (orden l) l)
    /\ (forall pasadas,
          modo_automatico G orden secreta pasadas s = SinTerminar)
    /\ modo_automatico G orden secreta 1296 s = SinTerminar.
Proof.
  exists azar_adverso, (fun l => l), secreta_adversa, O.
  split; [intros l; apply Permutation_refl|].
  split; [apply modo_automatico_adverso | apply modo_automatico_adverso].
Qed.

(** ** Counterexamples to the claims as stated *)

(** C4 fails as stated: on a fresh solver, the step-wise call with the
    feedback (3, 2), whose sum is 5, appends an entry to the size history. *)
Lemma procesar_intento_feedback_invalido_historia :
  3 + 2 > 4
  /\ historia_espacio_busqueda solver_inicial = [1296%nat]
  /\ historia_espacio_busqueda
       (snd (procesar_intento_tiempo_real solver_inicial apertura 3 2))
     = [1296; 1296]%nat.
Proof. vm_compute. repeat split; reflexivity. Qed.

(** C9 fails as stated: the input with a blank after each comma is accepted,
    though three of its four comma-separated tokens, lowercased, are not in
    the alphabet (they start with a blank). *)
Lemma convertir_entrada_con_blancos :
  convertir_entrada_a_combinacion "azul, rojo, blanco, negro"
  = Tupla ["azul"; "rojo"; "blanco"; "negro"]%string
  /\ ReferenciaEntrada.tokens "azul, rojo, blanco, negro"
     = ["azul"; " rojo"; " blanco"; " negro"]%string
  /\ ReferenciaEntrada.acepta "azul, rojo, blanco, negro" = false.
Proof. vm_compute. repeat split; reflexivity. Qed.

(** ** The theorems at concrete inputs *)

Lemma secreta_permanece_witness :
  In (azul, azul, rojo, azul) (combinaciones_posibles MastermindKB_nueva)
  /\ (let '(e, c) := evaluar_combinacion apertura (azul, azul, rojo, azul) in
      In (azul, azul, rojo, azul)
        (combinaciones_posibles
           (fst (actualizar_con_feedback MastermindKB_nueva apertura e c)))
      /\ snd (actualizar_con_feedback MastermindKB_nueva apertura e c)
         = SinAviso)
  /\ exists sv s',
       estado_tras azar_cero (fun l => l) (azul, azul, rojo, azul) 2 tt
       = Some (sv, s')
       /\ In (azul, azul, rojo, azul) (combinaciones_posibles (kb sv)).
Proof.
  assert (H : In (azul, azul, rojo, azul)
                (combinaciones_posibles MastermindKB_nueva)).
  { rewrite nueva_posibles. apply producto_completo. }
  split; [exact H|]. split.
  - exact (proj1 (secreta_permanece azar_cero (fun l => l)
                    (azul, azul, rojo, azul))
             MastermindKB_nueva apertura (azul, azul, rojo, azul) H).
  - destruct (estado_tras azar_cero (fun l => l) (azul, azul, rojo, azul) 2 tt)
      as [[sv s']|] eqn:E; [|vm_compute in E; discriminate E].
    exists sv, s'. split; [reflexivity|].
    exact (proj2 (secreta_permanece azar_cero (fun l => l)
                    (azul, azul, rojo, azul)) 2%nat tt sv s' E).
Defined.

Lemma modo_automatico_termina_witness :
  (forall l : list Combinacion, Permutation ((fun l => l) l) l)
  /\ pasadas_reducen azar_cero (fun l => l) (purpura, verde, negro, blanco)
       1296 solver_inicial tt = true
  /\ exists n h,
       modo_automatico azar_cero (fun l => l) (purpura, verde, negro, blanco)
         1296 tt
       = Devuelve (n, h)
       /\ (n <= 1296)%nat.
Proof.
  assert (P : forall l : list Combinacion, Permutation ((fun l => l) l) l)
    by (intros l; apply Permutation_refl).
  assert (H : pasadas_reducen azar_cero (fun l => l)
                (purpura, verde, negro, blanco) 1296 solver_inicial tt = true)
    by (vm_compute; reflexivity).
  split; [exact P|]. split; [exact H|].
  exact (modo_automatico_termina azar_cero (fun l => l)
           (purpura, verde, negro, blanco) P tt H).
Defined.

Lemma feedback_invalido_rechazado_witness :
  3 + 2 > 4
  /\ actualizar_con_feedback (kb solver_inicial) apertura 3 2
     = (kb solver_inicial, FeedbackInvalido)
  /\ kb (snd (procesar_intento_tiempo_real solver_inicial apertura 3 2))
     = kb solver_inicial.
Proof.
  assert (H : 3 + 2 > 4) by reflexivity.
  split; [exact H|].
  pose proof (feedback_invalido_rechazado solver_inicial apertura 3 2 H) as T.
  split; [exact (proj1 T) | exact (proj1 (proj2 T))].
Defined.

Lemma actualizar_con_feedback_sin_consistentes_witness :
  3 + 1 <= 4
  /\ combinaciones_posibles MastermindKB_nueva <> []
  /\ consistentes MastermindKB_nueva apertura 3 1 = []
  /\ actualizar_con_feedback MastermindKB_nueva apertura 3 1
     = (MastermindKB_nueva, SinCoincidencias).
Proof.
  assert (S : 3 + 1 <= 4) by lia.
  assert (N : combinaciones_posibles MastermindKB_nueva <> []).
  { rewrite nueva_posibles. intros H. apply (f_equal (@length _)) in H.
    rewrite length_producto in H. discriminate H. }
  assert (E : consistentes MastermindKB_nueva apertura 3 1 = [])
    by (vm_compute; reflexivity).
  split; [exact S|]. split; [exact N|]. split; [exact E|].
  exact (proj1 (actualizar_con_feedback_sin_consistentes
                  MastermindKB_nueva apertura 3 1 S N E)).
Defined.

Lemma actualizar_con_feedback_no_crece_witness :
  (tamano_espacio_busqueda
     (fst (actualizar_con_feedback MastermindKB_nueva apertura 0 0))
   <= tamano_espacio_busqueda MastermindKB_nueva)%nat
  /\ NoDup (combinaciones_posibles
              (fst (actualizar_con_feedback MastermindKB_nueva apertura 0 0))).
Proof.
  pose proof (proj1 actualizar_con_feedback_no_crece
                MastermindKB_nueva apertura 0 0) as T.
  cbv zeta in T. destruct T as (_ & L & N & _).
  split; [exact L | exact (N nueva_NoDup)].
Defined.

Lemma siguiente_combinacion_apertura_witness :
  todas_combinaciones MastermindKB_nueva <> []
  /\ length (combinaciones_posibles MastermindKB_nueva)
     = length (todas_combinaciones MastermindKB_nueva)
  /\ siguiente_combinacion azar_adverso (fun l => l) MastermindKB_nueva 7%nat
     = Some (apertura, 7%nat).
Proof.
  assert (N : todas_combinaciones MastermindKB_nueva <> []).
  { unfold MastermindKB_nueva. cbn [todas_combinaciones]. intros H.
    apply (f_equal (@length _)) in H. rewrite length_producto in H.
    discriminate H. }
  assert (L : length (combinaciones_posibles MastermindKB_nueva)
              = length (todas_combinaciones MastermindKB_nueva)).
  { rewrite nueva_posibles. reflexivity. }
  split; [exact N|]. split; [exact L|].
  exact (siguiente_combinacion_apertura azar_adverso (fun l => l)
           MastermindKB_nueva 7%nat N L).
Defined.

Lemma convertir_entrada_a_combinacion_acepta_witness :
  convertir_entrada_a_combinacion "Azul,ROJO , verde,negro"
  = Tupla ["azul"; "rojo"; "verde"; "negro"]%string
  /\ valor_devuelto (convertir_entrada_a_combinacion "azul rojo verde")
     = None.
Proof.
  split.
  - apply (proj1 (convertir_entrada_a_combinacion_acepta
                    "Azul,ROJO , verde,negro")).
    vm_compute. repeat split; reflexivity.
  - apply (proj2 (proj2 (proj2 (convertir_entrada_a_combinacion_acepta
                                  "azul rojo verde")))).
    left. vm_compute. discriminate.
Defined.

Lemma modo_automatico_historia_witness :
  modo_automatico azar_cero (fun l => l) (azul, azul, rojo, azul) 1296 tt
  = Devuelve (4%nat, [1296; 20; 8; 1]%nat)
  /\ length [1296; 20; 8; 1]%nat = 4%nat
  /\ nth_error [1296; 20; 8; 1]%nat 0 = Some 1296%nat.
Proof.
  assert (H : modo_automatico azar_cero (fun l => l) (azul, azul, rojo, azul)
                1296 tt
              = Devuelve (4%nat, [1296; 20; 8; 1]%nat))
    by (vm_compute; reflexivity).
  split; [exact H|].
  exact (proj1 (modo_automatico_historia azar_cero (fun l => l)
                  (azul, azul, rojo, azul))
           1296%nat tt 4%nat [1296; 20; 8; 1]%nat H).
Defined.

(** * Further properties of the program *)

(** ** The scorer *)

Lemma Color_eqb_sym (a b : Color) : Color_eqb a b = Color_eqb b a.
Proof. destruct a, b; reflexivity. Qed.

Lemma sobrantes_sym (a b : Combinacion) :
  Referencia.sobrantes a b = Referencia.sobrantes b a.
Proof.
  unfold Referencia.sobrantes. apply filter_ext. intros i.
  now rewrite Color_eqb_sym.
Qed.

(** X1: the score does not depend on which of the two combinations is the
    guess and which the secret. *)
Theorem evaluar_combinacion_simetrica :
  forall a b : Combinacion,
    evaluar_combinacion a b = evaluar_combinacion b a.
Proof.
  intros a b. rewrite !evaluar_combinacion_score. unfold Referencia.score.
  f_equal.
  - unfold Referencia.exact_matches, Referencia.coinciden. f_equal. f_equal.
    apply filter_ext. intros i. apply Color_eqb_sym.
  - unfold Referencia.color_matches. rewrite (sobrantes_sym b a). f_equal.
    apply map_ext. intros s. apply Z.min_comm.
Qed.

Lemma evaluar_cuatro_iguales (a b : Combinacion) :
  fst (evaluar_combinacion a b) = 4 <-> a = b.
Proof.
  destruct a as [[[a0 a1] a2] a3], b as [[[b0 b1] b2] b3].
  unfold evaluar_combinacion, contar. cbn [seq fold_left fst].
  unfold paso_conteo. cbn [elem].
  destruct (Color_eqb_spec a0 b0), (Color_eqb_spec a1 b1),
    (Color_eqb_spec a2 b2), (Color_eqb_spec a3 b3);
    cbn [pos_correctas conteo_inicial]; split; intros H;
    try congruence; try (exfalso; lia); subst; reflexivity.
Qed.

(** X2: the scorer reports 4 exact matches exactly when the two combinations
    are equal, and then it reports no colour match. *)
Theorem evaluar_combinacion_acierto :
  forall a b : Combinacion,
    (fst (evaluar_combinacion a b) = 4 <-> a = b)
    /\ (evaluar_combinacion a b = (4, 0) <-> a = b).
Proof.
  intros a b. split; [apply evaluar_cuatro_iguales|]. split.
  - intros H. apply evaluar_cuatro_iguales. rewrite H. reflexivity.
  - intros <-. pose proof (evaluar_combinacion_cotas_aux a a) as B.
    pose proof (proj2 (evaluar_cuatro_iguales a a) eq_refl) as E.
    destruct (evaluar_combinacion a a) as [e c]. cbn [fst snd] in *. subst e.
    f_equal. lia.
Qed.

Lemma count_occ_particion (f : nat -> Color) (p : nat -> bool) (s : Color)
  (l : list nat) :
  count_occ Color_eq_dec (map f l) s
  = (count_occ Color_eq_dec (map f (filter p l)) s
     + count_occ Color_eq_dec (map f (filter (fun i => negb (p i)) l)) s)%nat.
Proof.
  induction l as [|i l IH]; [reflexivity|].
  cbn [map filter count_occ]. destruct (p i); cbn [negb map count_occ];
    destruct (Color_eq_dec (f i) s); lia.
Qed.

Lemma map_coinciden (a b : Combinacion) (l : list nat) :
  map (elem a) (filter (fun i => Color_eqb (elem a i) (elem b i)) l)
  = map (elem b) (filter (fun i => Color_eqb (elem a i) (elem b i)) l).
Proof.
  induction l as [|i l IH]; [reflexivity|]. cbn [filter].
  destruct (Color_eqb_spec (elem a i) (elem b i)) as [E|E]; [|exact IH].
  cbn [map]. rewrite E, IH. reflexivity.
Qed.

(** X3: every peg of the guess is an exact or a colour match (the two numbers
    add up to 4) exactly when the guess is a rearrangement of the secret. *)
Theorem evaluar_combinacion_suma_cuatro :
  forall a b : Combinacion,
    fst (evaluar_combinacion a b) + snd (evaluar_combinacion a b) = 4
    <-> Permutation (simbolos a) (simbolos b).
Proof.
  intros a b. rewrite evaluar_combinacion_score. unfold Referencia.score.
  cbn [fst snd].
  rewrite (Permutation_count_occ Color_eq_dec).
  pose proof (suma_ocurrencias (map (elem a) (Referencia.sobrantes a b))) as S1.
  pose proof (suma_ocurrencias (map (elem b) (Referencia.sobrantes a b))) as S2.
  pose proof (particion_posiciones
                (fun i => Color_eqb (elem a i) (elem b i)) (seq 0 4)) as P.
  rewrite length_seq in P. rewrite length_map in S1, S2.
  fold (Referencia.coinciden a b) in P. fold (Referencia.sobrantes a b) in P.
  assert (Full : forall s x,
             Z.of_nat (count_occ Color_eq_dec (simbolos x) s)
             = Z.of_nat (count_occ Color_eq_dec
                           (map (elem x) (Referencia.coinciden a b)) s)
               + Referencia.ocurrencias s
                   (map (elem x) (Referencia.sobrantes a b))).
  { intros s x. unfold simbolos, Referencia.ocurrencias.
    rewrite (count_occ_particion (elem x)
               (fun i => Color_eqb (elem a i) (elem b i)) s (seq 0 4)).
    unfold Referencia.coinciden, Referencia.sobrantes. lia. }
  assert (Ig : map (elem a) (Referencia.coinciden a b)
               = map (elem b) (Referencia.coinciden a b))
    by apply map_coinciden.
  unfold Referencia.exact_matches, Referencia.color_matches.
  unfold COLORES in *. cbn [map fold_right] in *.
  pose proof (fun s => ocurrencias_no_negativa s
                         (map (elem a) (Referencia.sobrantes a b))) as N1.
  pose proof (fun s => ocurrencias_no_negativa s
                         (map (elem b) (Referencia.sobrantes a b))) as N2.
  split.
  - intros H s. apply Nat2Z.inj. rewrite (Full s a), (Full s b), Ig.
    f_equal.
    pose proof (N1 azul); pose proof (N1 rojo); pose proof (N1 blanco);
      pose proof (N1 negro); pose proof (N1 verde); pose proof (N1 purpura).
    pose proof (N2 azul); pose proof (N2 rojo); pose proof (N2 blanco);
      pose proof (N2 negro); pose proof (N2 verde); pose proof (N2 purpura).
    destruct s; lia.
  - intros H.
    assert (E : forall s,
               Referencia.ocurrencias s
                 (map (elem a) (Referencia.sobrantes a b))
               = Referencia.ocurrencias s
                   (map (elem b) (Referencia.sobrantes a b))).
    { intros s. pose proof (Full s a) as Fa. pose proof (Full s b) as Fb.
      rewrite (H s), Ig in Fa. lia. }
    rewrite <- !E, !Z.min_id. lia.
Qed.

(** ** The knowledge base under several feedbacks *)

Lemma filter_idem {A : Type} (f : A -> bool) (l : list A) :
  filter f (filter f l) = filter f l.
Proof.
  induction l as [|x l IH]; [reflexivity|]. cbn [filter].
  destruct (f x) eqn:E; [|exact IH]. cbn [filter]. rewrite E, IH. reflexivity.
Qed.

Lemma filter_conmuta {A : Type} (f g : A -> bool) (l : list A) :
  filter f (filter g l) = filter g (filter f l).
Proof.
  induction l as [|x l IH]; [reflexivity|]. cbn [filter].
  destruct (g x) eqn:Eg, (f x) eqn:Ef; cbn [filter];
    rewrite ?Eg, ?Ef, IH; reflexivity.
Qed.

Lemma filter_filter_andb {A : Type} (f g : A -> bool) (l : list A) :
  filter g (filter f l) = filter (fun x => f x && g x) l.
Proof.
  induction l as [|x l IH]; [reflexivity|]. cbn [filter].
  destruct (f x) eqn:Ef; cbn [filter andb]; [|exact IH].
  destruct (g x); rewrite IH; reflexivity.
Qed.

(** The three outcomes of an update, by what decides them. *)
Lemma actualizar_casos (base : MastermindKB) (g : Combinacion) (e c : Z) :
  (e + c > 4 /\ actualizar_con_feedback base g e c = (base, FeedbackInvalido))
  \/ (e + c <= 4 /\ consistentes base g e c = []
      /\ combinaciones_posibles base <> []
      /\ actualizar_con_feedback base g e c = (base, SinCoincidencias))
  \/ (e + c <= 4
      /\ (consistentes base g e c <> [] \/ combinaciones_posibles base = [])
      /\ actualizar_con_feedback base g e c
         = (mkKB (todas_combinaciones base) (consistentes base g e c),
            SinAviso)).
Proof.
  unfold actualizar_con_feedback. fold (consistentes base g e c).
  destruct (Z.gtb_spec (e + c) 4) as [H|H]; [left; split; [lia | reflexivity]|].
  right. destruct (consistentes base g e c) as [|x l] eqn:E;
    destruct (combinaciones_posibles base) as [|y r] eqn:P; cbn [vacia andb negb].
  - right. repeat split; auto.
  - left. repeat split; auto. discriminate.
  - right. repeat split; auto.
  - right. repeat split; auto. left; discriminate.
Qed.

(** X4: applying the same feedback a second time changes nothing: the
    knowledge base after two identical updates is the one after the first. *)
Theorem actualizar_con_feedback_idempotente :
  forall (base : MastermindKB) (g : Combinacion) (e c : Z),
    actualizar_con_feedback
      (fst (actualizar_con_feedback base g e c)) g e c
    = actualizar_con_feedback base g e c.
Proof.
  intros base g e c.
  destruct (actualizar_casos base g e c)
    as [(H & E) | [(H & N & P & E) | (H & N & E)]]; rewrite E; cbn [fst];
    try exact E.
  unfold actualizar_con_feedback.
  rewrite (gtb_falso (e + c) 4) by lia.
  cbn [combinaciones_posibles todas_combinaciones].
  unfold consistentes. rewrite filter_idem.
  destruct (filter _ (combinaciones_posibles base)); reflexivity.
Qed.

(** X5: two feedbacks that are applied without a warning in one order are
    applied without a warning in the other order too, and leave the same
    knowledge base. *)
Theorem actualizar_con_feedback_conmuta :
  forall (base : MastermindKB) (g1 : Combinacion) (e1 c1 : Z)
         (g2 : Combinacion) (e2 c2 : Z),
    snd (actualizar_con_feedback base g1 e1 c1) = SinAviso ->
    snd (actualizar_con_feedback
           (fst (actualizar_con_feedback base g1 e1 c1)) g2 e2 c2) = SinAviso ->
    snd (actualizar_con_feedback base g2 e2 c2) = SinAviso
    /\ actualizar_con_feedback
         (fst (actualizar_con_feedback base g2 e2 c2)) g1 e1 c1
       = actualizar_con_feedback
           (fst (actualizar_con_feedback base g1 e1 c1)) g2 e2 c2.
Proof.
  intros base g1 e1 c1 g2 e2 c2 H1 H2.
  destruct (actualizar_casos base g1 e1 c1)
    as [(A1 & E1) | [(A1 & _ & _ & E1) | (A1 & N1 & E1)]];
    rewrite E1 in H1, H2 |- *; cbn [fst snd] in *; try discriminate.
  set (base1 := mkKB (todas_combinaciones base) (consistentes base g1 e1 c1))
    in *.
  destruct (actualizar_casos base1 g2 e2 c2)
    as [(A2 & E2) | [(A2 & _ & _ & E2) | (A2 & N2 & E2)]];
    rewrite E2 in H2 |- *; cbn [fst snd] in *; try discriminate.
  assert (C12 : consistentes base1 g2 e2 c2
                = filter (fun x => _coincide_feedback g1 x e1 c1)
                    (consistentes base g2 e2 c2)).
  { unfold consistentes, base1. cbn [combinaciones_posibles].
    apply filter_conmuta. }
  assert (S2 : consistentes base g2 e2 c2 <> []
               \/ combinaciones_posibles base = []).
  { destruct (combinaciones_posibles base) as [|y r] eqn:P; [right; reflexivity|].
    left. intros Z2. rewrite Z2 in C12. cbn [filter] in C12.
    destruct N1 as [N1|N1]; [|discriminate].
    destruct N2 as [N2|N2]; [congruence|].
    unfold base1 in N2. cbn [combinaciones_posibles] in N2. congruence. }
  assert (F2 : actualizar_con_feedback base g2 e2 c2
               = (mkKB (todas_combinaciones base) (consistentes base g2 e2 c2),
                  SinAviso)).
  { destruct (actualizar_casos base g2 e2 c2)
      as [(B & _) | [(_ & Z2 & P & _) | (_ & _ & E)]]; [lia | | exact E].
    destruct S2; contradiction. }
  rewrite F2. cbn [fst snd]. split; [reflexivity|].
  set (base2 := mkKB (todas_combinaciones base) (consistentes base g2 e2 c2)).
  assert (C21 : consistentes base2 g1 e1 c1 = consistentes base1 g2 e2 c2).
  { rewrite C12. reflexivity. }
  destruct (actualizar_casos base2 g1 e1 c1)
    as [(B & _) | [(_ & Z1 & P & _) | (_ & _ & E)]]; [lia | |].
  - exfalso. rewrite C21 in Z1. destruct N2 as [N2|N2]; [contradiction|].
    unfold base1 in N2. cbn [combinaciones_posibles] in N2.
    destruct N1 as [N1|N1]; [contradiction|].
    unfold base2 in P. cbn [combinaciones_posibles] in P.
    unfold consistentes in P. rewrite N1 in P. apply P. reflexivity.
  - rewrite E, C21. reflexivity.
Qed.

Lemma cumple_app (l : list (Combinacion * Z * Z)) (g : Combinacion) (e c : Z)
  (x : Combinacion) :
  cumple (l ++ [(g, e, c)]) x = cumple l x && _coincide_feedback g x e c.
Proof.
  unfold cumple. rewrite forallb_app. cbn [forallb]. now rewrite andb_true_r.
Qed.

Lemma aplicar_filtra (l : list (Combinacion * Z * Z)) :
  forall (base : MastermindKB) (previos : list (Combinacion * Z * Z))
         (universo : list Combinacion),
    combinaciones_posibles base = filter (cumple previos) universo ->
    combinaciones_posibles base <> [] ->
    combinaciones_posibles (aplicar base l)
    = filter (cumple (previos ++ aceptados base l)) universo
    /\ combinaciones_posibles (aplicar base l) <> []
    /\ todas_combinaciones (aplicar base l) = todas_combinaciones base.
Proof.
  induction l as [|[[g e] c] l IH]; intros base previos universo Hf Hne;
    cbn [aplicar aceptados].
  - rewrite app_nil_r. auto.
  - destruct (actualizar_casos base g e c)
      as [(A & E) | [(A & _ & _ & E) | (A & N & E)]]; rewrite E; cbn [fst snd].
    + apply IH; assumption.
    + apply IH; assumption.
    + destruct N as [N|N]; [|contradiction].
      destruct (IH (mkKB (todas_combinaciones base) (consistentes base g e c))
                  (previos ++ [(g, e, c)]) universo) as (I1 & I2 & I3).
      * cbn [combinaciones_posibles]. unfold consistentes. rewrite Hf.
        rewrite filter_filter_andb. apply filter_ext. intros x.
        symmetry. apply cumple_app.
      * exact N.
      * rewrite <- app_assoc in I1. cbn [app] in I1. auto.
Qed.

(** X6: whatever feedbacks a fresh knowledge base is given, in whatever
    order, its candidate set is never empty and holds exactly the
    combinations of the universe that agree with every feedback that was
    applied without a warning; the universe list is never changed. *)
Theorem aplicar_caracteriza :
  forall l : list (Combinacion * Z * Z),
    combinaciones_posibles (aplicar MastermindKB_nueva l)
    = filter (cumple (aceptados MastermindKB_nueva l)) producto
    /\ combinaciones_posibles (aplicar MastermindKB_nueva l) <> []
    /\ NoDup (combinaciones_posibles (aplicar MastermindKB_nueva l))
    /\ todas_combinaciones (aplicar MastermindKB_nueva l) = producto.
Proof.
  intros l.
  destruct (aplicar_filtra l MastermindKB_nueva [] producto) as (H1 & H2 & H3).
  - rewrite nueva_posibles. unfold cumple. cbn [forallb].
    induction producto as [|x r IH]; [reflexivity|].
    cbn [filter]. f_equal. exact IH.
  - rewrite nueva_posibles. intros H. apply (f_equal (@length _)) in H.
    rewrite length_producto in H. discriminate H.
  - cbn [app] in H1. split; [exact H1|]. split; [exact H2|]. split; [|exact H3].
    rewrite H1. apply NoDup_filter. rewrite <- nueva_posibles.
    apply nueva_NoDup.
Qed.

(** X7: after a feedback with fewer than 4 exact matches is applied without
    a warning the guess itself is no longer a candidate, and after one with 4
    exact matches every candidate left is the guess. *)
Theorem actualizar_con_feedback_descarta :
  forall (base : MastermindKB) (g : Combinacion) (e c : Z),
    snd (actualizar_con_feedback base g e c) = SinAviso ->
    (e <> 4 ->
     ~ In g (combinaciones_posibles (fst (actualizar_con_feedback base g e c))))
    /\ (e = 4 ->
        forall x,
          In x (combinaciones_posibles
                  (fst (actualizar_con_feedback base g e c))) ->
          x = g).
Proof.
  intros base g e c H.
  destruct (actualizar_casos base g e c)
    as [(A & E) | [(A & _ & _ & E) | (A & N & E)]]; rewrite E in H |- *;
    cbn [fst snd] in *; try discriminate.
  cbn [combinaciones_posibles]. unfold consistentes. split.
  - intros Hne Hin. apply filter_In in Hin. destruct Hin as [_ Hc].
    apply coincide_feedback_evaluar in Hc.
    apply (f_equal fst) in Hc. cbn [fst] in Hc.
    rewrite evaluar_combinacion_misma in Hc. congruence.
  - intros -> x Hin. apply filter_In in Hin. destruct Hin as [_ Hc].
    apply coincide_feedback_evaluar in Hc. symmetry.
    apply evaluar_cuatro_iguales. rewrite Hc. reflexivity.
Qed.

(** ** The sampled minimax of the selector *)

Lemma feedback_eqb_spec (f g : Z * Z) : reflect (f = g) (feedback_eqb f g).
Proof.
  destruct f as [a b], g as [c d]. unfold feedback_eqb. cbn [fst snd].
  destruct (Z.eqb_spec a c), (Z.eqb_spec b d); cbn [andb]; constructor;
    congruence.
Qed.

Lemma buscar_asignar (f k : Z * Z) (v : nat) (r : Resultados) :
  buscar f (asignar k v r) = if feedback_eqb f k then Some v else buscar f r.
Proof.
  induction r as [|[k' w] r IH]; cbn [asignar buscar].
  - reflexivity.
  - destruct (feedback_eqb_spec k k') as [<-|N]; cbn [buscar].
    + destruct (feedback_eqb f k); reflexivity.
    + rewrite IH. destruct (feedback_eqb_spec f k') as [->|N'];
        [|reflexivity].
      destruct (feedback_eqb_spec k' k); [congruence | reflexivity].
Qed.

Lemma clase_app (g : Combinacion) (f : Z * Z) (l : list Combinacion)
  (x : Combinacion) :
  clase g f (l ++ [x])
  = (clase g f l
     + (if feedback_eqb (evaluar_combinacion g x) f then 1 else 0))%nat.
Proof.
  unfold clase. rewrite filter_app, length_app. cbn [filter].
  destruct (feedback_eqb (evaluar_combinacion g x) f); cbn [length]; lia.
Qed.

Lemma paso_candidato_al_dia (g : Combinacion) (st : Resultados * nat)
  (vistos : list Combinacion) (x : Combinacion) :
  cuenta_al_dia g st vistos ->
  cuenta_al_dia g (paso_candidato g st x) (vistos ++ [x]).
Proof.
  destruct st as [res mx]. intros (Hb & Hm & H0 & Hw).
  cbn [fst snd] in *. unfold paso_candidato.
  fold (evaluar_combinacion g x).
  change (pos_correctas (contar g x), colores_comunes (contar g x))
    with (evaluar_combinacion g x).
  set (fb := evaluar_combinacion g x).
  assert (Hv : match buscar fb
                       match buscar fb res with
                       | Some _ => res
                       | None => asignar fb O res
                       end with
               | Some n => S n
               | None => 1%nat
               end = S (clase g fb vistos)).
  { rewrite (Hb fb). destruct (Nat.eqb_spec (clase g fb vistos) 0) as [E|E].
    - rewrite buscar_asignar.
      destruct (feedback_eqb_spec fb fb); [|congruence]. now rewrite E.
    - rewrite (Hb fb). destruct (Nat.eqb_spec (clase g fb vistos) 0);
        [contradiction | reflexivity]. }
  rewrite Hv.
  assert (Hfb : clase g fb (vistos ++ [x]) = S (clase g fb vistos)).
  { rewrite clase_app. fold fb.
    destruct (feedback_eqb_spec fb fb); [lia | congruence]. }
  unfold cuenta_al_dia. cbn [fst snd]. split; [|split; [|split]].
  - intros f. rewrite buscar_asignar, clase_app. fold fb.
    destruct (feedback_eqb_spec f fb) as [->|N].
    + destruct (feedback_eqb_spec fb fb); [|congruence].
      replace (clase g fb vistos + 1)%nat with (S (clase g fb vistos)) by lia.
      reflexivity.
    + destruct (feedback_eqb_spec fb f); [congruence|].
      rewrite Nat.add_0_r.
      destruct (buscar fb res); [apply Hb|].
      rewrite buscar_asignar.
      destruct (feedback_eqb_spec f fb); [congruence | apply Hb].
  - intros f. rewrite clase_app. fold fb. specialize (Hm f).
    destruct (feedback_eqb_spec fb f) as [<-|N]; lia.
  - intros H. destruct vistos; discriminate H.
  - intros _. destruct (Nat.le_gt_cases mx (S (clase g fb vistos))) as [L|L].
    + exists x. split; [apply in_or_app; right; left; reflexivity|].
      fold fb. rewrite Hfb. lia.
    + destruct vistos as [|y r] eqn:V.
      * rewrite (H0 eq_refl) in L. lia.
      * destruct Hw as (z & Hz & Ez); [discriminate|]. rewrite <- V in *.
        exists z. split; [apply in_or_app; left; exact Hz|].
        rewrite clase_app. fold fb.
        destruct (feedback_eqb_spec fb (evaluar_combinacion g z)) as [E|N].
        -- rewrite <- E in Ez. lia.
        -- lia.
Qed.

Lemma fold_paso_candidato_al_dia (g : Combinacion) (resto : list Combinacion) :
  forall (st : Resultados * nat) (vistos : list Combinacion),
    cuenta_al_dia g st vistos ->
    cuenta_al_dia g (fold_left (paso_candidato g) resto st) (vistos ++ resto).
Proof.
  induction resto as [|x resto IH]; intros st vistos H; cbn [fold_left].
  - rewrite app_nil_r. exact H.
  - replace (vistos ++ x :: resto) with ((vistos ++ [x]) ++ resto)
      by (rewrite <- app_assoc; reflexivity).
    apply IH, paso_candidato_al_dia, H.
Qed.

(** X8: the number the inner loop of the selector computes for a probe is the
    size of the largest group of sampled candidates that give the probe the
    same feedback: no group is larger, some candidate's group has exactly
    that size, and the number is 0 for an empty sample. *)
Theorem max_conjunto_restante_mayor_clase :
  forall (combinacion : Combinacion) (muestra : list Combinacion),
    let max_conjunto_restante :=
      snd (fold_left (paso_candidato combinacion) muestra ([], O)) in
    (forall f, (clase combinacion f muestra <= max_conjunto_restante)%nat)
    /\ (muestra = [] -> max_conjunto_restante = O)
    /\ (muestra <> [] ->
        exists candidato,
          In candidato muestra
          /\ clase combinacion (evaluar_combinacion combinacion candidato)
               muestra
             = max_conjunto_restante).
Proof.
  intros g muestra m. subst m.
  destruct (fold_paso_candidato_al_dia g muestra ([], O) [])
    as (_ & H2 & H3 & H4).
  - unfold cuenta_al_dia. cbn [fst snd buscar]. repeat split; auto.
    intros H; congruence.
  - cbn [app] in *. auto.
Qed.

Section Minimax.

Variable G : Azar.
Variable orden : list Combinacion -> list Combinacion.
Variable posibles : list Combinacion.

(** The loop over the probes, started with any best probe and score. *)
Lemma evaluar_sondas_primer_minimo (sondas : list Combinacion) :
  forall mejor puntuacion (s : Estado G) m s',
    evaluar_sondas G orden posibles sondas mejor puntuacion s = Some (m, s') ->
    exists ps,
      puntuar G orden posibles sondas s = Some (ps, s')
      /\ length ps = length sondas
      /\ ((m = mejor /\ Forall (fun q => menor_que q puntuacion = false) ps)
          \/ exists i g p,
               m = Some g
               /\ nth_error sondas i = Some g
               /\ nth_error ps i = Some p
               /\ menor_que p puntuacion = true
               /\ Forall (fun q => (p <= q)%nat) ps
               /\ (forall j q, (j < i)%nat -> nth_error ps j = Some q ->
                               (p < q)%nat)).
Proof.
  induction sondas as [|g0 sondas IH]; intros mejor puntuacion s m s' H;
    cbn [evaluar_sondas puntuar] in *.
  - injection H as <- <-. exists []. repeat split. left. split; constructor.
  - destruct (sample G (orden posibles) (Nat.min 50 (length posibles)) s)
      as [[muestra s1]|]; [|discriminate].
    set (q0 := snd (fold_left (paso_candidato g0) muestra ([], O))) in *.
    destruct (menor_que q0 puntuacion) eqn:M.
    + destruct (IH _ _ _ _ _ H) as (ps & -> & L & D).
      exists (q0 :: ps). split; [reflexivity|]. split; [cbn [length]; lia|].
      right. destruct D as [(-> & F) | (i & g & p & -> & Hg & Hp & Mp & F & E)].
      * exists O, g0, q0. repeat split; auto.
        -- constructor; [lia|]. eapply Forall_impl; [|exact F].
           cbn [menor_que]. intros q Hq. apply Nat.ltb_ge in Hq. exact Hq.
        -- intros j q Hj. lia.
      * cbn [menor_que] in Mp. apply Nat.ltb_lt in Mp.
        exists (S i), g, p. repeat split; auto.
        -- destruct puntuacion as [p0|]; [|reflexivity]. cbn [menor_que] in *.
           apply Nat.ltb_lt in M. apply Nat.ltb_lt. lia.
        -- constructor; [lia | exact F].
        -- intros [|j] q Hj Hq; cbn [nth_error] in Hq.
           ++ injection Hq as <-. exact Mp.
           ++ apply (E j q); [lia | exact Hq].
    + destruct (IH _ _ _ _ _ H) as (ps & -> & L & D).
      exists (q0 :: ps). split; [reflexivity|]. split; [cbn [length]; lia|].
      destruct D as [(-> & F) | (i & g & p & -> & Hg & Hp & Mp & F & E)].
      * left. split; [reflexivity|]. constructor; assumption.
      * right. destruct puntuacion as [p0|]; [|discriminate M].
        cbn [menor_que] in *. apply Nat.ltb_ge in M.
        pose proof Mp as Mp'. apply Nat.ltb_lt in Mp'.
        exists (S i), g, p. repeat split; auto.
        -- constructor; [lia | exact F].
        -- intros [|j] q Hj Hq; cbn [nth_error] in Hq.
           ++ injection Hq as <-. lia.
           ++ apply (E j q); [lia | exact Hq].
Qed.

(** X9: when the loop over the sampled probes ends, the probe it chose is the
    first one with the smallest score: no probe scored less, and every probe
    before it scored more. With at least one probe a probe is always chosen,
    so the random fallback after the loop is not reached. *)
Theorem evaluar_sondas_elige_primer_minimo :
  forall (sondas : list Combinacion) (s : Estado G) m s',
    evaluar_sondas G orden posibles sondas None None s = Some (m, s') ->
    exists ps,
      puntuar G orden posibles sondas s = Some (ps, s')
      /\ length ps = length sondas
      /\ (sondas = [] -> m = None)
      /\ (sondas <> [] ->
          exists i g p,
            m = Some g
            /\ nth_error sondas i = Some g
            /\ nth_error ps i = Some p
            /\ Forall (fun q => (p <= q)%nat) ps
            /\ (forall j q, (j < i)%nat -> nth_error ps j = Some q ->
                            (p < q)%nat)).
Proof.
  intros sondas s m s' H.
  destruct (evaluar_sondas_primer_minimo sondas None None s m s' H)
    as (ps & Hp & L & D).
  exists ps. split; [exact Hp|]. split; [exact L|].
  destruct D as [(-> & F) | (i & g & p & -> & Hg & Hq & _ & F & E)].
  - split; [reflexivity|]. intros N. exfalso.
    destruct ps as [|q ps]; [destruct sondas; [congruence | discriminate L]|].
    inversion F as [|? ? Hq _]; subst. discriminate Hq.
  - split.
    + intros ->. destruct i; discriminate Hg.
    + intros _. exists i, g, p. repeat split; auto.
Qed.

End Minimax.

(** ** The selector as a whole *)

Section Selector.

Variable G : Azar.
Variable orden : list Combinacion -> list Combinacion.
Hypothesis orden_permuta : forall l, Permutation (orden l) l.

(** X10: with a universe of at least 20 combinations the selector never
    raises: whatever the candidate set (the empty one included, where it
    falls back to a random combination), the generator and its state, it
    returns a probe. *)
Theorem siguiente_combinacion_no_lanza :
  forall (base : MastermindKB) (s : Estado G),
    (20 <= length (todas_combinaciones base))%nat ->
    exists g s', siguiente_combinacion G orden base s = Some (g, s').
Proof.
  intros base s H.
  exact (siguiente_combinacion_total G orden orden_permuta base s H).
Qed.

Lemma siguiente_combinacion_sin_sorteo (base : MastermindKB) (s : Estado G)
  g s' :
  combinaciones_posibles base <> [] ->
  (length (combinaciones_posibles base) <= 2)%nat ->
  siguiente_combinacion G orden base s = Some (g, s') ->
  s' = s.
Proof.
  intros Hne H2. unfold siguiente_combinacion. cbv zeta.
  destruct (combinaciones_posibles base) as [|x l] eqn:E; [congruence|].
  cbn [vacia]. destruct (_ =? _)%nat; [congruence|].
  apply Nat.leb_le in H2. rewrite H2.
  destruct (orden (x :: l)); [discriminate | congruence].
Qed.

(** X11: while the candidate set is not empty, is not as large as the
    universe and has at most 50 elements, the probe is one of the candidates;
    with at most 2 candidates nothing is drawn from the generator. *)
Theorem siguiente_combinacion_candidata :
  forall (base : MastermindKB) (s : Estado G) g s',
    combinaciones_posibles base <> [] ->
    length (combinaciones_posibles base) <> length (todas_combinaciones base) ->
    (length (combinaciones_posibles base) <= 50)%nat ->
    siguiente_combinacion G orden base s = Some (g, s') ->
    In g (combinaciones_posibles base)
    /\ ((length (combinaciones_posibles base) <= 2)%nat -> s' = s).
Proof.
  intros base s g s' Hne Hd H50 H. split.
  - exact (siguiente_combinacion_entre_posibles G orden orden_permuta
             base s g s' Hne Hd H50 H).
  - intros H2. exact (siguiente_combinacion_sin_sorteo base s g s' Hne H2 H).
Qed.

End Selector.

(** ** More on the automated run *)

Lemma no_creciente_snoc (l : list nat) (t x : nat) :
  no_creciente (l ++ [t]) -> (x <= t)%nat -> no_creciente ((l ++ [t]) ++ [x]).
Proof.
  induction l as [|a l IH]; intros H Hx.
  - cbn. auto.
  - cbn [app] in *. destruct l as [|b l].
    + cbn in *. tauto.
    + cbn [app no_creciente] in *. destruct H as [Hab H].
      split; [exact Hab | apply IH; assumption].
Qed.

Section Partida2.

Variable G : Azar.
Variable orden : list Combinacion -> list Combinacion.
Variable secreta : Combinacion.

Lemma historia_ordenada_inicial : historia_ordenada secreta solver_inicial.
Proof.
  unfold historia_ordenada, solver_inicial, tamano_espacio_busqueda.
  cbn [kb historia_espacio_busqueda]. rewrite nueva_posibles, length_producto.
  split; [apply producto_completo|]. split; [lia|].
  split; [exists []; reflexivity|]. split; [exact I|].
  constructor; [lia | constructor].
Qed.

Lemma historia_ordenada_vuelta (sv : MastermindSolver) (s : Estado G) sv' s' :
  historia_ordenada secreta sv ->
  vuelta G orden secreta sv s = Continua sv' s' ->
  historia_ordenada secreta sv'.
Proof.
  intros (Hin & Hmax & (l & Hl) & Hnc & Hf) Hv.
  destruct (vuelta_conserva G orden secreta sv s sv' s' Hin Hv)
    as (Hin' & _ & Hincl & _).
  destruct (vuelta_continua G orden secreta sv s sv' s' Hv)
    as (g & _ & _ & Hkb & _ & Hh).
  assert (Hle : (tamano_espacio_busqueda (kb sv')
                 <= tamano_espacio_busqueda (kb sv))%nat).
  { rewrite Hkb. apply actualizar_no_crece. }
  assert (Hpos : (1 <= tamano_espacio_busqueda (kb sv'))%nat).
  { unfold tamano_espacio_busqueda.
    destruct (combinaciones_posibles (kb sv')); [contradiction|].
    cbn [length]. lia. }
  unfold historia_ordenada. split; [exact Hin'|]. split; [lia|].
  split; [eexists; exact Hh|]. rewrite Hh. split.
  - rewrite Hl. apply no_creciente_snoc; [rewrite <- Hl; exact Hnc | exact Hle].
  - apply Forall_app. split; [exact Hf|]. constructor; [lia | constructor].
Qed.

Lemma bucle_historia_ordenada (pasadas : nat) :
  forall (sv : MastermindSolver) (s : Estado G) n h,
    historia_ordenada secreta sv ->
    bucle G orden secreta pasadas sv s = Devuelve (n, h) ->
    (1 <= n)%nat /\ no_creciente h
    /\ Forall (fun x => (1 <= x <= 1296)%nat) h.
Proof.
  induction pasadas as [|p IH]; intros sv s n h Hinv H; cbn [bucle] in H;
    [discriminate|].
  destruct (vuelta G orden secreta sv s) as [r|sv1 s1|] eqn:Hv;
    [| |discriminate].
  - apply vuelta_retorna in Hv. injection H as ->. injection Hv as -> ->.
    destruct Hinv as (_ & _ & _ & Hnc & Hf). split; [lia|]. split; assumption.
  - eapply IH; [|exact H]. eapply historia_ordenada_vuelta; eassumption.
Qed.

(** X12: the result (attempts, history) of an automated run has at least one
    attempt, and its history of sizes never goes up and holds only sizes
    between 1 and 1296. *)
Theorem modo_automatico_historia_no_creciente :
  forall (pasadas : nat) (s : Estado G) n h,
    modo_automatico G orden secreta pasadas s = Devuelve (n, h) ->
    (1 <= n)%nat /\ no_creciente h
    /\ Forall (fun x => (1 <= x <= 1296)%nat) h.
Proof.
  intros pasadas s n h H. unfold modo_automatico in H.
  eapply bucle_historia_ordenada; [apply historia_ordenada_inicial | exact H].
Qed.

(** X13: a pass of the loop returns exactly when the probe is the secret
    itself; a pass that goes on, from a candidate set that holds the secret,
    had a probe other than the secret, shows no warning, drops the probe and
    keeps exactly the candidates that score against the probe as the secret
    does. *)
Theorem vuelta_resultado :
  (forall (sv : MastermindSolver) (s : Estado G),
      (exists r, vuelta G orden secreta sv s = Retorna r)
      <-> exists s', siguiente_combinacion G orden (kb sv) s
                     = Some (secreta, s'))
  /\ (forall (sv : MastermindSolver) (s : Estado G) sv' s',
        In secreta (combinaciones_posibles (kb sv)) ->
        vuelta G orden secreta sv s = Continua sv' s' ->
        exists g,
          siguiente_combinacion G orden (kb sv) s = Some (g, s')
          /\ g <> secreta
          /\ snd (actualizar_con_feedback (kb sv) g
                    (fst (evaluar_combinacion g secreta))
                    (snd (evaluar_combinacion g secreta))) = SinAviso
          /\ combinaciones_posibles (kb sv')
             = filter (fun x => feedback_eqb (evaluar_combinacion g x)
                                  (evaluar_combinacion g secreta))
                 (combinaciones_posibles (kb sv))
          /\ ~ In g (combinaciones_posibles (kb sv'))).
Proof.
  split.
  - intros sv s. unfold vuelta.
    destruct (siguiente_combinacion G orden (kb sv) s) as [[g s1]|].
    + pose proof (evaluar_cuatro_iguales g secreta) as E.
      destruct (evaluar_combinacion g secreta) as [p c]. cbn [fst] in E.
      destruct (Z.eqb_spec p 4) as [H4|H4]; split.
      * intros _. exists s1. rewrite (proj1 E H4). reflexivity.
      * intros _. eexists; reflexivity.
      * intros [r Hr]. discriminate Hr.
      * intros [s' Hs]. injection Hs as -> _. destruct H4. apply E.
        reflexivity.
    + split; [intros [r Hr]; discriminate Hr | intros [s' Hs]; discriminate Hs].
  - intros sv s sv' s' Hin Hv.
    destruct (vuelta_continua G orden secreta sv s sv' s' Hv)
      as (g & Hg & H4 & Hkb & _ & _).
    destruct (actualizar_con_evaluacion (kb sv) g secreta Hin) as [Ea Hs].
    exists g. split; [exact Hg|]. split.
    { intros ->. apply H4. apply evaluar_cuatro_iguales. reflexivity. }
    rewrite Ea in Hkb |- *. cbn [fst snd] in *. split; [reflexivity|].
    rewrite Hkb. cbn [combinaciones_posibles]. unfold consistentes. split.
    + apply filter_ext. intros x.
      destruct (feedback_eqb_spec (evaluar_combinacion g x)
                  (evaluar_combinacion g secreta)) as [E|E].
      * apply coincide_feedback_evaluar. rewrite E.
        now destruct (evaluar_combinacion g secreta).
      * destruct (_coincide_feedback g x _ _) eqn:C; [|reflexivity].
        apply coincide_feedback_evaluar in C. destruct E. rewrite C.
        now destruct (evaluar_combinacion g secreta).
    + intros Hing. apply filter_In in Hing. destruct Hing as [_ C].
      apply coincide_feedback_evaluar in C. apply (f_equal fst) in C.
      cbn [fst] in C. rewrite evaluar_combinacion_misma in C. congruence.
Qed.

Hypothesis orden_permuta : forall l, Permutation (orden l) l.

Lemma sondas_entre_posibles_pocas (pasadas : nat) :
  forall (sv : MastermindSolver) (s : Estado G),
    In secreta (combinaciones_posibles (kb sv)) ->
    (length (combinaciones_posibles (kb sv)) <= 50)%nat ->
    (50 < length (todas_combinaciones (kb sv)))%nat ->
    sondas_entre_posibles G orden secreta pasadas sv s = true.
Proof.
  induction pasadas as [|p IH]; intros sv s Hin H50 Ht;
    cbn [sondas_entre_posibles]; [reflexivity|].
  destruct (siguiente_combinacion G orden (kb sv) s) as [[g s1]|] eqn:Hg;
    [|reflexivity].
  assert (Hmem : In g (combinaciones_posibles (kb sv))).
  { eapply siguiente_combinacion_entre_posibles;
      [exact orden_permuta | | | exact H50 | exact Hg].
    - intros E. rewrite E in Hin. contradiction.
    - lia. }
  apply andb_true_iff. split; [apply existsb_Combinacion_eqb, Hmem|].
  destruct (vuelta G orden secreta sv s) as [r|sv1 s2|] eqn:Hv;
    try reflexivity.
  destruct (vuelta_conserva G orden secreta sv s sv1 s2 Hin Hv)
    as (Hin1 & Ht1 & _ & _).
  destruct (vuelta_continua G orden secreta sv s sv1 s2 Hv)
    as (g' & _ & _ & Hkb & _ & _).
  apply IH; [exact Hin1 | | rewrite Ht1; exact Ht].
  rewrite Hkb. etransitivity; [apply actualizar_no_crece | exact H50].
Qed.

(** X14: from any point of the run where the secret is among at most 50
    candidates (and the universe has more than 50 combinations), the loop
    returns, whatever the generator does, within as many further passes as
    there are candidates. *)
Theorem bucle_termina_con_pocas :
  forall (sv : MastermindSolver) (s : Estado G),
    In secreta (combinaciones_posibles (kb sv)) ->
    (length (combinaciones_posibles (kb sv)) <= 50)%nat ->
    (50 < length (todas_combinaciones (kb sv)))%nat ->
    exists n h,
      bucle G orden secreta (length (combinaciones_posibles (kb sv))) sv s
      = Devuelve (n, h)
      /\ (n <= intentos sv + length (combinaciones_posibles (kb sv)))%nat.
Proof.
  intros sv s Hin H50 Ht.
  apply (bucle_termina G orden secreta orden_permuta); auto.
  - lia.
  - apply sondas_entre_posibles_pocas; assumption.
Qed.

End Partida2.

(** ** Secrets: random ones, written ones and the entry box *)

Lemma ida_y_vuelta_todas :
  forallb (ida_y_vuelta ", ") producto = true
  /\ forallb (ida_y_vuelta ",") producto = true
  /\ forallb (ida_y_vuelta " ") producto = true.
Proof. vm_compute. repeat split; reflexivity. Qed.

Lemma ida_y_vuelta_cierta (sep : string) (x : Combinacion) :
  ida_y_vuelta sep x = true ->
  convertir_entrada_a_combinacion (join sep (tupla_de_combinacion x))
  = Tupla (tupla_de_combinacion x)
  /\ combinacion_de_tupla (tupla_de_combinacion x) = Some x
  /\ strip (join sep (tupla_de_combinacion x))
     = join sep (tupla_de_combinacion x)
  /\ join sep (tupla_de_combinacion x) <> EmptyString.
Proof.
  unfold ida_y_vuelta. rewrite !andb_true_iff. intros [[[H1 H2] H3] H4].
  split; [|split; [|split]].
  - destruct (convertir_entrada_a_combinacion _) as [t| |c];
      try discriminate H1.
    destruct (list_eq_dec string_dec t (tupla_de_combinacion x));
      [congruence | discriminate H1].
  - destruct (combinacion_de_tupla _) as [y|]; [|discriminate H2].
    destruct (Combinacion_eqb_spec y x); [congruence | discriminate H2].
  - apply String.eqb_eq, H3.
  - intros E. rewrite E in H4. discriminate H4.
Qed.

(** X15: a combination written out as its four colour names separated by a
    comma and a blank (the text the window puts in the entry box), by a comma
    alone or by a blank alone is parsed back to the same four names, which
    stand for the same combination. *)
Theorem convertir_entrada_ida_y_vuelta :
  forall x : Combinacion,
    convertir_entrada_a_combinacion (texto_de_tupla (tupla_de_combinacion x))
    = Tupla (tupla_de_combinacion x)
    /\ convertir_entrada_a_combinacion (join "," (tupla_de_combinacion x))
       = Tupla (tupla_de_combinacion x)
    /\ convertir_entrada_a_combinacion (join " " (tupla_de_combinacion x))
       = Tupla (tupla_de_combinacion x)
    /\ combinacion_de_tupla (tupla_de_combinacion x) = Some x.
Proof.
  intros x. destruct ida_y_vuelta_todas as (H1 & H2 & H3).
  pose proof (producto_completo x) as Hx.
  rewrite forallb_forall in H1, H2, H3.
  destruct (ida_y_vuelta_cierta _ x (H1 x Hx)) as (A & B & _ & _).
  destruct (ida_y_vuelta_cierta _ x (H2 x Hx)) as (C & _ & _ & _).
  destruct (ida_y_vuelta_cierta _ x (H3 x Hx)) as (D & _ & _ & _).
  unfold texto_de_tupla. auto.
Qed.

Lemma choice_COLORES (G : Azar) (s : Estado G) :
  choice G COLORES s
  = Some (color_de_sorteo (fst (extraer G s)), snd (extraer G s)).
Proof.
  unfold choice, randbelow, COLORES. cbn [length].
  destruct (extraer G s) as [r s1]. cbn [fst snd].
  pose proof (Nat.mod_upper_bound r 6) as B.
  unfold color_de_sorteo, COLORES.
  rewrite (nth_error_nth' _ azul) by (cbn [length]; lia). reflexivity.
Qed.

Lemma generar_combinacion_aleatoria_formula (G : Azar) (s : Estado G) :
  let '(r1, s1) := extraer G s in
  let '(r2, s2) := extraer G s1 in
  let '(r3, s3) := extraer G s2 in
  let '(r4, s4) := extraer G s3 in
  generar_combinacion_aleatoria G s
  = Some ((color_de_sorteo r1, color_de_sorteo r2,
           color_de_sorteo r3, color_de_sorteo r4), s4).
Proof.
  unfold generar_combinacion_aleatoria, combinacion_al_azar.
  rewrite (choice_COLORES G s). destruct (extraer G s) as [r1 s1].
  cbn [fst snd]. rewrite (choice_COLORES G s1).
  destruct (extraer G s1) as [r2 s2]. cbn [fst snd].
  rewrite (choice_COLORES G s2). destruct (extraer G s2) as [r3 s3].
  cbn [fst snd]. rewrite (choice_COLORES G s3).
  destruct (extraer G s3) as [r4 s4]. reflexivity.
Qed.

Lemma en_COLORES_nombre (x : string) :
  en_COLORES x = true ->
  exists c, color_de_nombre x = Some c /\ nombre c = x.
Proof.
  intros H. destruct (en_COLORES_color_de_nombre x H) as (c & Hc).
  exists c. split; [exact Hc|]. unfold color_de_nombre in Hc.
  apply find_some in Hc. destruct Hc as [_ E]. apply String.eqb_eq in E.
  congruence.
Qed.

Lemma Tupla_es_combinacion (entrada : string) (t : list string) :
  convertir_entrada_a_combinacion entrada = Tupla t ->
  exists x, t = tupla_de_combinacion x.
Proof.
  rewrite convertir_entrada_casos.
  destruct (Nat.eqb_spec (length (colores_de entrada)) 4) as [L|L];
    cbn [negb]; [|discriminate].
  destruct (primer_invalido (colores_de entrada)) eqn:P; [discriminate|].
  intros H. injection H as <-. apply primer_invalido_ninguno in P.
  destruct (colores_de entrada) as [|t1 [|t2 [|t3 [|t4 [|t5 r]]]]];
    try discriminate L.
  cbn [forallb] in P. rewrite !andb_true_iff in P.
  destruct P as (F1 & F2 & F3 & F4 & _).
  destruct (en_COLORES_nombre _ F1) as (a & _ & <-).
  destruct (en_COLORES_nombre _ F2) as (b & _ & <-).
  destruct (en_COLORES_nombre _ F3) as (c & _ & <-).
  destruct (en_COLORES_nombre _ F4) as (d & _ & <-).
  exists (a, b, c, d). reflexivity.
Qed.

(** X17: the secret that [iniciar_automatico] takes from the entry box is
    always a combination, an empty or blank box always gives one (a random
    one), and starting again with the text the box then holds gives the same
    secret without drawing anything. *)
Theorem secreta_de_entrada_estable :
  forall (G : Azar) (texto : string) (s : Estado G),
    (strip texto = EmptyString ->
     exists x s', secreta_de_entrada G texto s
                  = Some (tupla_de_combinacion x,
                          texto_de_tupla (tupla_de_combinacion x), s'))
    /\ (forall t texto' s',
          secreta_de_entrada G texto s = Some (t, texto', s') ->
          (exists x, t = tupla_de_combinacion x)
          /\ forall s2 : Estado G,
               secreta_de_entrada G texto' s2 = Some (t, texto', s2)).
Proof.
  intros G texto s. split.
  - intros E. unfold secreta_de_entrada. rewrite E.
    pose proof (generar_combinacion_aleatoria_formula G s) as T.
    destruct (extraer G s) as [r1 s1]. destruct (extraer G s1) as [r2 s2].
    destruct (extraer G s2) as [r3 s3]. destruct (extraer G s3) as [r4 s4].
    rewrite T. eauto.
  - intros t texto' s'. unfold secreta_de_entrada.
    destruct (strip texto) as [|ch r] eqn:E.
    + destruct (generar_combinacion_aleatoria G s) as [[x s1]|];
        [|discriminate].
      intros H. injection H as <- <- <-. split; [eauto|]. intros s2.
      destruct ida_y_vuelta_todas as (H1 & _ & _).
      rewrite forallb_forall in H1.
      destruct (ida_y_vuelta_cierta _ x (H1 x (producto_completo x)))
        as (A & _ & B & C).
      fold (texto_de_tupla (tupla_de_combinacion x)) in A, B, C.
      rewrite B. destruct (texto_de_tupla (tupla_de_combinacion x)) eqn:T;
        [congruence|]. rewrite A. reflexivity.
    + destruct (convertir_entrada_a_combinacion (String ch r)) as [t0| |c]
        eqn:P; cbn [valor_devuelto]; try discriminate.
      intros H. injection H as <- <- <-. split.
      * eapply Tupla_es_combinacion; eassumption.
      * intros s2. rewrite E, P. reflexivity.
Qed.

(** ** The propositional sentences *)

(** Induction over sentences, with the hypothesis on every element of the
    list of a conjunction or disjunction. *)
Lemma Sentence_induccion (P : Sentence -> Prop) :
  (forall name, P (Symbol name)) ->
  (forall operand, P operand -> P (Not operand)) ->
  (forall conjuncts, Forall P conjuncts -> P (And conjuncts)) ->
  (forall disjuncts, Forall P disjuncts -> P (Or disjuncts)) ->
  (forall a c, P a -> P c -> P (Implication a c)) ->
  (forall l r, P l -> P r -> P (Biconditional l r)) ->
  forall s, P s.
Proof.
  intros HS HN HA HO HI HB. fix IH 1. intros [name|o|cs|ds|a c|l r].
  - apply HS.
  - apply HN, IH.
  - apply HA. revert cs. fix IHl 1. intros [|c cs]; constructor;
      [apply IH | apply IHl].
  - apply HO. revert ds. fix IHl 1. intros [|d ds]; constructor;
      [apply IH | apply IHl].
  - apply HI; apply IH.
  - apply HB; apply IH.
Qed.

Lemma evaluate_And_cons (c : Sentence) (r : list Sentence) (model : Modelo) :
  evaluate (And (c :: r)) model
  = match evaluate c model with
    | Some true => evaluate (And r) model
    | Some false => Some false
    | None => None
    end.
Proof. reflexivity. Qed.

Lemma evaluate_Or_cons (d : Sentence) (r : list Sentence) (model : Modelo) :
  evaluate (Or (d :: r)) model
  = match evaluate d model with
    | Some true => Some true
    | Some false => evaluate (Or r) model
    | None => None
    end.
Proof. reflexivity. Qed.

Lemma symbols_And_cons (c : Sentence) (r : list Sentence) :
  symbols (And (c :: r)) = symbols c ++ symbols (And r).
Proof. reflexivity. Qed.

Lemma symbols_Or_cons (d : Sentence) (r : list Sentence) :
  symbols (Or (d :: r)) = symbols d ++ symbols (Or r).
Proof. reflexivity. Qed.

(** X18: [evaluate] raises nothing when every name of [symbols] is a key of
    the model. *)
Theorem evaluate_definida :
  forall (s : Sentence) (model : Modelo),
    (forall name, In name (symbols s) -> exists b, model name = Some b) ->
    exists b, evaluate s model = Some b.
Proof.
  intros s model. induction s as [name|o IH|cs IH|ds IH|a c IHa IHc|l r IHl IHr]
    using Sentence_induccion; intros H.
  - apply H. left; reflexivity.
  - destruct (IH H) as [b E]. cbn [evaluate]. rewrite E. eauto.
  - induction IH as [|c cs Hc _ IHcs]; [cbn; eauto|].
    rewrite evaluate_And_cons. rewrite symbols_And_cons in H.
    destruct Hc as [[|] E]; [intros n Hn; apply H, in_or_app; auto | |];
      rewrite E; [|eauto].
    apply IHcs. intros n Hn. apply H, in_or_app; auto.
  - induction IH as [|d ds Hd _ IHds]; [cbn; eauto|].
    rewrite evaluate_Or_cons. rewrite symbols_Or_cons in H.
    destruct Hd as [[|] E]; [intros n Hn; apply H, in_or_app; auto | |];
      rewrite E; [eauto|].
    apply IHds. intros n Hn. apply H, in_or_app; auto.
  - cbn [evaluate symbols] in *.
    destruct IHa as [[|] E]; [intros n Hn; apply H, in_or_app; auto | |];
      rewrite E; [|eauto].
    apply IHc. intros n Hn. apply H, in_or_app; auto.
  - cbn [evaluate symbols] in *.
    destruct IHl as [x E]; [intros n Hn; apply H, in_or_app; auto|].
    destruct IHr as [y F]; [intros n Hn; apply H, in_or_app; auto|].
    rewrite E, F. eauto.
Qed.

(** X19: when [evaluate] raises, some name of [symbols] is missing from the
    model: a missing key is the only source of the exception. *)
Theorem evaluate_lanza :
  forall (s : Sentence) (model : Modelo),
    evaluate s model = None ->
    exists name, In name (symbols s) /\ model name = None.
Proof.
  intros s model. induction s as [name|o IH|cs IH|ds IH|a c IHa IHc|l r IHl IHr]
    using Sentence_induccion; intros H.
  - exists name. split; [left; reflexivity | exact H].
  - cbn [evaluate] in H. destruct (evaluate o model); [discriminate|].
    apply IH. reflexivity.
  - induction IH as [|c cs Hc _ IHcs]; [discriminate H|].
    rewrite evaluate_And_cons in H. rewrite symbols_And_cons.
    destruct (evaluate c model) as [[|]|]; [| discriminate |].
    + destruct (IHcs H) as (n & Hn & E). exists n. split; [|exact E].
      apply in_or_app; auto.
    + destruct (Hc eq_refl) as (n & Hn & E). exists n. split; [|exact E].
      apply in_or_app; auto.
  - induction IH as [|d ds Hd _ IHds]; [discriminate H|].
    rewrite evaluate_Or_cons in H. rewrite symbols_Or_cons.
    destruct (evaluate d model) as [[|]|]; [discriminate | |].
    + destruct (IHds H) as (n & Hn & E). exists n. split; [|exact E].
      apply in_or_app; auto.
    + destruct (Hd eq_refl) as (n & Hn & E). exists n. split; [|exact E].
      apply in_or_app; auto.
  - cbn [evaluate symbols] in *. destruct (evaluate a model) as [[|]|].
    + destruct (IHc H) as (n & Hn & E). exists n. split; [|exact E].
      apply in_or_app; auto.
    + discriminate.
    + destruct (IHa eq_refl) as (n & Hn & E). exists n. split; [|exact E].
      apply in_or_app; auto.
  - cbn [evaluate symbols] in *. destruct (evaluate l model) as [x|].
    + destruct (evaluate r model); [discriminate|].
      destruct (IHr eq_refl) as (n & Hn & E). exists n. split; [|exact E].
      apply in_or_app; auto.
    + destruct (IHl eq_refl) as (n & Hn & E). exists n. split; [|exact E].
      apply in_or_app; auto.
Qed.

(** X20: the result of [evaluate], exception included, depends only on what
    the model holds for the names of [symbols]: two models that agree on
    those names give the same result. *)
Theorem evaluate_solo_symbols :
  forall (s : Sentence) (m1 m2 : Modelo),
    (forall name, In name (symbols s) -> m1 name = m2 name) ->
    evaluate s m1 = evaluate s m2.
Proof.
  intros s m1 m2. induction s as [name|o IH|cs IH|ds IH|a c IHa IHc|l r IHl IHr]
    using Sentence_induccion; intros H.
  - apply H. left; reflexivity.
  - cbn [evaluate]. rewrite (IH H). reflexivity.
  - induction IH as [|c cs Hc _ IHcs]; [reflexivity|].
    rewrite !evaluate_And_cons. rewrite symbols_And_cons in H.
    rewrite Hc by (intros n Hn; apply H, in_or_app; auto).
    rewrite IHcs by (intros n Hn; apply H, in_or_app; auto). reflexivity.
  - induction IH as [|d ds Hd _ IHds]; [reflexivity|].
    rewrite !evaluate_Or_cons. rewrite symbols_Or_cons in H.
    rewrite Hd by (intros n Hn; apply H, in_or_app; auto).
    rewrite IHds by (intros n Hn; apply H, in_or_app; auto). reflexivity.
  - cbn [evaluate symbols] in *.
    rewrite IHa by (intros n Hn; apply H, in_or_app; auto).
    rewrite IHc by (intros n Hn; apply H, in_or_app; auto). reflexivity.
  - cbn [evaluate symbols] in *.
    rewrite IHl by (intros n Hn; apply H, in_or_app; auto).
    rewrite IHr by (intros n Hn; apply H, in_or_app; auto). reflexivity.
Qed.

Lemma evaluate_Not_And (cs : list Sentence) (model : Modelo) :
  evaluate (Not (And cs)) model = evaluate (Or (map Not cs)) model.
Proof.
  induction cs as [|c cs IH]; [reflexivity|].
  cbn [map]. rewrite evaluate_Or_cons. cbn [evaluate] in *.
  destruct (evaluate c model) as [[|]|]; cbn [negb]; auto.
Qed.

Lemma evaluate_Not_Or (ds : list Sentence) (model : Modelo) :
  evaluate (Not (Or ds)) model = evaluate (And (map Not ds)) model.
Proof.
  induction ds as [|d ds IH]; [reflexivity|].
  cbn [map]. rewrite evaluate_And_cons. cbn [evaluate] in *.
  destruct (evaluate d model) as [[|]|]; cbn [negb]; auto.
Qed.

(** X21: the classical equivalences hold for [evaluate] with the exceptions
    included: an implication evaluates like the disjunction of the negated
    antecedent and the consequent, a biconditional like the conjunction of
    the two implications, a double negation like the sentence, and a negated
    conjunction or disjunction like the disjunction or conjunction of the
    negations. *)
Theorem evaluate_equivalencias :
  forall (a b : Sentence) (l : list Sentence) (model : Modelo),
    evaluate (Implication a b) model = evaluate (Or [Not a; b]) model
    /\ evaluate (Biconditional a b) model
       = evaluate (And [Implication a b; Implication b a]) model
    /\ evaluate (Not (Not a)) model = evaluate a model
    /\ evaluate (Not (And l)) model = evaluate (Or (map Not l)) model
    /\ evaluate (Not (Or l)) model = evaluate (And (map Not l)) model.
Proof.
  intros a b l model. split; [|split; [|split; [|split]]].
  - cbn [evaluate].
    destruct (evaluate a model) as [[|]|]; cbn [negb]; auto.
    destruct (evaluate b model) as [[|]|]; reflexivity.
  - cbn [evaluate].
    destruct (evaluate a model) as [[|]|], (evaluate b model) as [[|]|];
      reflexivity.
  - cbn [evaluate]. destruct (evaluate a model) as [[|]|]; reflexivity.
  - apply evaluate_Not_And.
  - apply evaluate_Not_Or.
Qed.

(** X22: after [And.add] the conjunction evaluates like the old conjunction
    followed by the new conjunct (which is evaluated only when the old one
    is true), its names are the old names and those of the new conjunct, and
    an empty conjunction is true in every model, the empty one included. *)
Theorem add_evaluate :
  forall (conjuncts : list Sentence) (conjunct : Sentence) (model : Modelo),
    evaluate (And (add conjuncts conjunct)) model
    = match evaluate (And conjuncts) model with
      | Some true => evaluate conjunct model
      | r => r
      end
    /\ (forall name,
          In name (symbols (And (add conjuncts conjunct)))
          <-> In name (symbols (And conjuncts)) \/ In name (symbols conjunct))
    /\ evaluate (And []) model = Some true.
Proof.
  intros cs c model. unfold add. split; [|split; [|reflexivity]].
  - induction cs as [|x cs IH].
    + cbn [app]. rewrite evaluate_And_cons.
      destruct (evaluate c model) as [[|]|]; reflexivity.
    + cbn [app]. rewrite !evaluate_And_cons.
      destruct (evaluate x model) as [[|]|]; auto.
  - intros name. induction cs as [|x cs IH].
    + cbn [app]. rewrite symbols_And_cons, in_app_iff.
      change (symbols (And [])) with (@nil string). cbn [In]. tauto.
    + cbn [app]. rewrite !symbols_And_cons, !in_app_iff, IH. tauto.
Qed.

(** ** The step-wise mode *)

Lemma actualizar_no_vacia (base : MastermindKB) (g : Combinacion) (e c : Z) :
  combinaciones_posibles base <> [] ->
  combinaciones_posibles (fst (actualizar_con_feedback base g e c)) <> [].
Proof.
  intros H. destruct (actualizar_casos base g e c)
    as [(_ & E) | [(_ & _ & _ & E) | (_ & [N|N] & E)]]; rewrite E; cbn [fst];
    auto; contradiction.
Qed.

Lemma no_creciente_snoc_o_vacia (h : list nat) (t x : nat) :
  (h = [] \/ exists l, h = l ++ [t]) ->
  no_creciente h -> (x <= t)%nat -> no_creciente (h ++ [x]).
Proof.
  intros [->|(l & ->)] H Hx; [exact I|]. apply no_creciente_snoc; assumption.
Qed.

Section TiempoRealSeccion.

Variable G : Azar.
Variable orden : list Combinacion -> list Combinacion.
Hypothesis orden_permuta : forall l, Permutation (orden l) l.

Lemma proponer_propone (sv : MastermindSolver) (u : option Combinacion)
  (s : Estado G) :
  todas_combinaciones (kb sv) = producto ->
  exists g s',
    proponer G orden sv u s = (Propuesta g, mkTiempoReal sv (Some g), s').
Proof.
  intros Ht. unfold proponer.
  destruct (siguiente_combinacion_total G orden orden_permuta (kb sv) s)
    as (g & s' & ->); [rewrite Ht, length_producto; lia|]. eauto.
Qed.

Lemma ventana_en_orden_nueva (u : option Combinacion) :
  ventana_en_orden (mkTiempoReal MastermindSolver_nuevo u).
Proof.
  unfold ventana_en_orden, MastermindSolver_nuevo, tamano_espacio_busqueda.
  cbn [solver kb intentos historia_espacio_busqueda].
  rewrite nueva_posibles, length_producto.
  split; [intros H; apply (f_equal (@length _)) in H;
          rewrite length_producto in H; discriminate H|].
  split; [rewrite <- nueva_posibles; apply nueva_NoDup|].
  repeat split; auto.
Qed.

(** One event keeps the window in order and is never answered by a selector
    failure or by silence; the missing-proposal failure needs a window with
    no proposal yet. *)
Lemma manejar_en_orden (w : TiempoReal) (ev : Evento) (s : Estado G) :
  ventana_en_orden w ->
  ventana_en_orden (snd (fst (manejar G orden w ev s)))
  /\ fst (fst (manejar G orden w ev s)) <> ErrorSelector
  /\ fst (fst (manejar G orden w ev s)) <> SinRespuesta
  /\ (fst (fst (manejar G orden w ev s)) = ErrorSinPropuesta ->
      ultimo_intento w = None)
  /\ (ultimo_intento w <> None \/ ev = IniciarJuego ->
      ultimo_intento (snd (fst (manejar G orden w ev s))) <> None).
Proof.
  intros Hw. destruct ev as [|ep ec]; cbn [manejar].
  - unfold iniciar_tiempo_real.
    destruct (proponer_propone MastermindSolver_nuevo (ultimo_intento w) s)
      as (g & s' & ->); [reflexivity|]. cbn [fst snd ultimo_intento].
    split; [apply ventana_en_orden_nueva|].
    repeat split; try discriminate.
  - unfold procesar_feedback_tiempo_real.
    destruct ep as [p|], ec as [c|]; cbn [fst snd];
      try (split; [exact Hw|]; repeat split; try discriminate;
           intros [N|N]; [exact N | discriminate N]).
    destruct (_ || _); cbn [fst snd];
      [split; [exact Hw|]; repeat split; try discriminate;
       intros [N|N]; [exact N | discriminate N]|].
    destruct (Z.gtb_spec (p + c) 4) as [Hs|Hs]; cbn [fst snd];
      [split; [exact Hw|]; repeat split; try discriminate;
       intros [N|N]; [exact N | discriminate N]|].
    destruct (Z.eqb_spec p 4) as [H4|H4]; cbn [fst snd];
      [split; [exact Hw|]; repeat split; try discriminate;
       intros [N|N]; [exact N | discriminate N]|].
    destruct Hw as (Hne & Hnd & Ht & Hmax & Hlen & Hlast & Hnc & Hf).
    unfold procesar_ultimo_intento.
    destruct (ultimo_intento w) as [g|] eqn:U.
    + unfold procesar_intento_tiempo_real.
      destruct (Z.eqb_spec p 4) as [|_]; [contradiction|].
      set (kb1 := fst (actualizar_con_feedback (kb (solver w)) g p c)).
      destruct (actualizar_no_crece (kb (solver w)) g p c) as (_ & Hle & Ht1).
      fold kb1 in Hle, Ht1.
      assert (Hne1 : combinaciones_posibles kb1 <> [])
        by (apply actualizar_no_vacia; exact Hne).
      destruct (proponer_propone
                  (mkSolver kb1 (S (intentos (solver w)))
                     (historia_espacio_busqueda (solver w)
                      ++ [tamano_espacio_busqueda kb1]))
                  (Some g) s) as (g' & s' & E).
      { cbn [kb]. rewrite Ht1. exact Ht. }
      cbn [kb intentos historia_espacio_busqueda]. rewrite E.
      cbn [fst snd ultimo_intento]. split.
      * unfold ventana_en_orden.
        cbn [solver kb intentos historia_espacio_busqueda].
        fold (tamano_espacio_busqueda (kb (solver w))) in Hle.
        fold (tamano_espacio_busqueda kb1) in Hle.
        assert (Hpos : (1 <= tamano_espacio_busqueda kb1)%nat).
        { unfold tamano_espacio_busqueda.
          destruct (combinaciones_posibles kb1); [congruence|].
          cbn [length]. lia. }
        split; [exact Hne1|].
        split; [apply actualizar_NoDup; exact Hnd|].
        split; [rewrite Ht1; exact Ht|]. split; [lia|].
        split; [rewrite length_app; cbn [length]; lia|].
        split; [right; eexists; reflexivity|]. split.
        -- eapply no_creciente_snoc_o_vacia; eassumption.
        -- apply Forall_app. split; [exact Hf|].
           constructor; [lia | constructor].
      * repeat split; try discriminate.
    + destruct (combinaciones_posibles (kb (solver w))) eqn:P; [congruence|].
      replace (p =? 4) with false by (symmetry; apply Z.eqb_neq; exact H4).
      rewrite (gtb_falso (p + c) 4) by lia. cbn [orb vacia fst snd].
      split; [unfold ventana_en_orden; rewrite P; repeat split; auto;
              discriminate|].
      repeat split; try discriminate; auto. intros [N|N]; congruence.
Qed.

Lemma sesion_en_orden (eventos : list Evento) :
  forall (w : TiempoReal) (s : Estado G),
    ventana_en_orden w ->
    ventana_en_orden (snd (fst (sesion G orden eventos w s)))
    /\ Forall (fun r => r <> ErrorSelector /\ r <> SinRespuesta)
         (fst (fst (sesion G orden eventos w s)))
    /\ (ultimo_intento w <> None \/ In IniciarJuego eventos ->
        ultimo_intento (snd (fst (sesion G orden eventos w s))) <> None).
Proof.
  induction eventos as [|ev eventos IH]; intros w s Hw; cbn [sesion].
  - cbn [fst snd]. split; [exact Hw|]. split; [constructor|].
    intros [H|[]]. exact H.
  - destruct (manejar_en_orden w ev s Hw) as (H1 & H2 & H3 & _ & H5).
    destruct (manejar G orden w ev s) as [[r w1] s1]. cbn [fst snd] in *.
    destruct (IH w1 s1 H1) as (I1 & I2 & I3).
    destruct (sesion G orden eventos w1 s1) as [[rs w2] s2]. cbn [fst snd] in *.
    split; [exact I1|]. split; [constructor; auto|].
    intros [H|[H|H]]; apply I3; auto.
Qed.

(** X23: whatever the user does in the step-wise tab, in whatever order and
    with whatever entries, the window stays in order: the candidate set is
    never empty (so the selector's recovery branch is never taken) and has no
    duplicates, the counter equals the length of the size history, the
    history never increases and holds sizes between 1 and 1296; the selector
    never fails; and once a game was started there is always a proposal to
    score. *)
Theorem sesion_ventana_en_orden :
  forall (eventos : list Evento) (s : Estado G),
    ventana_en_orden (snd (fst (sesion G orden eventos ventana_inicial s)))
    /\ Forall (fun r => r <> ErrorSelector /\ r <> SinRespuesta)
         (fst (fst (sesion G orden eventos ventana_inicial s)))
    /\ (In IniciarJuego eventos ->
        ultimo_intento (snd (fst (sesion G orden eventos ventana_inicial s)))
        <> None).
Proof.
  intros eventos s.
  destruct (sesion_en_orden eventos ventana_inicial s) as (H1 & H2 & H3).
  - apply ventana_en_orden_nueva.
  - split; [exact H1|]. split; [exact H2|]. intros H. apply H3. right. exact H.
Qed.

Lemma sesion_app (l1 l2 : list Evento) :
  forall (w : TiempoReal) (s : Estado G),
    sesion G orden (l1 ++ l2) w s
    = let '(rs1, w1, s1) := sesion G orden l1 w s in
      let '(rs2, w2, s2) := sesion G orden l2 w1 s1 in
      (rs1 ++ rs2, w2, s2).
Proof.
  induction l1 as [|ev l1 IH]; intros w s; cbn [app sesion].
  - destruct (sesion G orden l2 w s) as [[rs w2] s2]. reflexivity.
  - destruct (manejar G orden w ev s) as [[r w1] s1]. rewrite IH.
    destruct (sesion G orden l1 w1 s1) as [[rs1 w2] s2].
    destruct (sesion G orden l2 w2 s2) as [[rs2 w3] s3]. reflexivity.
Qed.

(** A feedback event adds one to the counter exactly when the feedback is
    one the handler passes on. *)
Lemma manejar_cuenta (w : TiempoReal) (p c : Z) (s : Estado G) :
  ventana_en_orden w ->
  ultimo_intento w <> None ->
  intentos (solver (snd (fst (manejar G orden w
                                (EnviarRetroalimentacion (Some p) (Some c))
                                s))))
  = (intentos (solver w)
     + if retroalimentacion_aceptada (p, c) then 1 else 0)%nat.
Proof.
  intros Hw Hu. cbn [manejar]. unfold procesar_feedback_tiempo_real,
    retroalimentacion_aceptada.
  destruct (Z.ltb_spec p 0); [cbn [orb fst snd];
    replace (0 <=? p) with false by (symmetry; apply Z.leb_gt; lia);
    cbn [andb]; lia|].
  destruct (Z.gtb_spec p 4); [cbn [orb fst snd];
    replace (p <=? 3) with false by (symmetry; apply Z.leb_gt; lia);
    rewrite andb_false_r; cbn [andb]; lia|].
  destruct (Z.ltb_spec c 0); [cbn [orb fst snd];
    replace (0 <=? c) with false by (symmetry; apply Z.leb_gt; lia);
    rewrite !andb_false_r; cbn [andb]; lia|].
  destruct (Z.gtb_spec c 4); [cbn [orb fst snd];
    replace (c <=? 4) with false by (symmetry; apply Z.leb_gt; lia);
    rewrite !andb_false_r; cbn [andb]; lia|].
  cbn [orb].
  destruct (Z.gtb_spec (p + c) 4); [cbn [fst snd];
    replace (p + c <=? 4) with false by (symmetry; apply Z.leb_gt; lia);
    rewrite !andb_false_r; lia|].
  destruct (Z.eqb_spec p 4) as [H4|H4]; [cbn [fst snd];
    replace (p <=? 3) with false by (symmetry; apply Z.leb_gt; lia);
    rewrite andb_false_r; cbn [andb]; lia|].
  replace (0 <=? p) with true by (symmetry; apply Z.leb_le; lia).
  replace (p <=? 3) with true by (symmetry; apply Z.leb_le; lia).
  replace (0 <=? c) with true by (symmetry; apply Z.leb_le; lia).
  replace (c <=? 4) with true by (symmetry; apply Z.leb_le; lia).
  replace (p + c <=? 4) with true by (symmetry; apply Z.leb_le; lia).
  cbn [andb].
  destruct (ultimo_intento w) as [g|] eqn:U; [|congruence].
  unfold procesar_ultimo_intento, procesar_intento_tiempo_real.
  destruct (Z.eqb_spec p 4); [contradiction|].
  destruct Hw as (_ & _ & Ht & _).
  match goal with
  | |- context [proponer G orden ?sv ?u s] =>
      destruct (proponer_propone sv u s) as (g' & s' & ->)
  end.
  - cbn [kb]. rewrite (proj2 (proj2 (actualizar_no_crece _ g p c))). exact Ht.
  - cbn [fst snd solver intentos]. lia.
Qed.

Lemma sesion_cuenta (fs : list (Z * Z)) :
  forall (w : TiempoReal) (s : Estado G),
    ventana_en_orden w ->
    ultimo_intento w <> None ->
    let w' := snd (fst (sesion G orden
                          (map (fun f : Z * Z =>
                                  EnviarRetroalimentacion
                                    (Some (fst f)) (Some (snd f))) fs)
                          w s)) in
    ventana_en_orden w'
    /\ ultimo_intento w' <> None
    /\ intentos (solver w')
       = (intentos (solver w)
          + length (filter retroalimentacion_aceptada fs))%nat.
Proof.
  induction fs as [|[p c] fs IH]; intros w s Hw Hu; cbn [map sesion filter].
  - cbn [fst snd length]. split; [exact Hw|]. split; [exact Hu | lia].
  - cbn [fst snd].
    pose proof (manejar_cuenta w p c s Hw Hu) as Hc.
    destruct (manejar_en_orden w (EnviarRetroalimentacion (Some p) (Some c))
                s Hw) as (H1 & _ & _ & _ & H5).
    destruct (manejar G orden w (EnviarRetroalimentacion (Some p) (Some c)) s)
      as [[r w1] s1]. cbn [fst snd] in *.
    specialize (IH w1 s1 H1 (H5 (or_introl Hu))). cbv zeta in IH.
    destruct (sesion G orden _ w1 s1) as [[rs w2] s2]. cbn [fst snd] in *.
    destruct IH as (I1 & I2 & I3). split; [exact I1|]. split; [exact I2|].
    rewrite I3, Hc.
    destruct (retroalimentacion_aceptada (p, c)); cbn [length]; lia.
Qed.

Lemma procesar_feedback_acierto (w : TiempoReal) (s : Estado G) :
  procesar_feedback_tiempo_real G orden w (Some 4) (Some 0) s
  = (Exito (intentos (solver w)), w, s).
Proof. reflexivity. Qed.

(** X24: in a game of the step-wise tab the number of attempts that the
    success dialog reports is the number of feedbacks that were passed on to
    the solver since the game started (those with exact between 0 and 3,
    colour between 0 and 4 and sum at most 4): the proposal that is being
    confirmed is not counted, so a secret found by the first proposal is
    reported as found in 0 attempts. *)
Theorem sesion_intentos_informados :
  forall (fs : list (Z * Z)) (s : Estado G),
    last (fst (fst (sesion G orden
                      (IniciarJuego
                       :: map (fun f : Z * Z =>
                                 EnviarRetroalimentacion
                                   (Some (fst f)) (Some (snd f))) fs
                          ++ [EnviarRetroalimentacion (Some 4) (Some 0)])
                      ventana_inicial s)))
         ErrorNumerico
    = Exito (length (filter retroalimentacion_aceptada fs)).
Proof.
  intros fs s. cbn [sesion].
  destruct (manejar_en_orden ventana_inicial IniciarJuego s
              (ventana_en_orden_nueva None)) as (H1 & _ & _ & _ & H5).
  assert (H0 : intentos (solver (snd (fst (manejar G orden ventana_inicial
                                             IniciarJuego s)))) = O).
  { cbn [manejar]. unfold iniciar_tiempo_real.
    destruct (proponer_propone MastermindSolver_nuevo
                (ultimo_intento ventana_inicial) s) as (g & s' & ->);
      reflexivity. }
  destruct (manejar G orden ventana_inicial IniciarJuego s) as [[r w1] s1].
  cbn [fst snd] in *. specialize (H5 (or_intror eq_refl)).
  rewrite sesion_app.
  pose proof (sesion_cuenta fs w1 s1 H1 H5) as Hc. cbv zeta in Hc.
  destruct (sesion G orden _ w1 s1) as [[rs w2] s2]. cbn [fst snd] in Hc.
  destruct Hc as (_ & _ & Hn). cbn [sesion manejar].
  rewrite procesar_feedback_acierto. cbn [fst snd].
  change (r :: rs ++ [Exito (intentos (solver w2))])
    with ((r :: rs) ++ [Exito (intentos (solver w2))]).
  rewrite last_last, Hn, H0. reflexivity.
Qed.

Lemma manejar_entrada_invalida (w : TiempoReal) (ev : Evento) (s : Estado G) :
  entrada_valida ev = false ->
  snd (fst (manejar G orden w ev s)) = w
  /\ snd (manejar G orden w ev s) = s
  /\ (fst (fst (manejar G orden w ev s)) = ErrorNumerico
      \/ fst (fst (manejar G orden w ev s)) = ErrorRango
      \/ fst (fst (manejar G orden w ev s)) = ErrorSuma).
Proof.
  destruct ev as [|[p|] [c|]]; cbn [entrada_valida manejar]; try discriminate;
    unfold procesar_feedback_tiempo_real; try (intros _; cbn; tauto).
  intros H.
  destruct (Z.ltb_spec p 0); [cbn; tauto|].
  destruct (Z.gtb_spec p 4); [cbn; tauto|].
  destruct (Z.ltb_spec c 0); [cbn; tauto|].
  destruct (Z.gtb_spec c 4); [cbn; tauto|].
  cbn [orb]. destruct (Z.gtb_spec (p + c) 4); [cbn; tauto|].
  exfalso. rewrite !andb_false_iff, !Z.leb_gt in H. lia.
Qed.

End TiempoRealSeccion.

(** X25: events with entries the handler refuses (not numbers, a number
    outside 0..4, or a sum above 4) are answered by an error dialog and
    change nothing: a session and the same session without those events end
    with the same window and the same generator, from any window. *)
Theorem sesion_sin_entradas_invalidas :
  forall (G : Azar) (orden : list Combinacion -> list Combinacion)
         (eventos : list Evento) (w : TiempoReal) (s : Estado G),
    snd (fst (sesion G orden eventos w s))
    = snd (fst (sesion G orden (filter entrada_valida eventos) w s))
    /\ snd (sesion G orden eventos w s)
       = snd (sesion G orden (filter entrada_valida eventos) w s).
Proof.
  intros G orden eventos. induction eventos as [|ev eventos IH]; intros w s.
  - split; reflexivity.
  - cbn [filter]. destruct (entrada_valida ev) eqn:V.
    + cbn [sesion]. destruct (manejar G orden w ev s) as [[r w1] s1].
      specialize (IH w1 s1).
      destruct (sesion G orden eventos w1 s1) as [[rs w2] s2].
      destruct (sesion G orden (filter entrada_valida eventos) w1 s1)
        as [[rs' w2'] s2']. exact IH.
    + cbn [sesion].
      destruct (manejar_entrada_invalida G orden w ev s V) as (Hw & Hs & _).
      destruct (manejar G orden w ev s) as [[r w1] s1]. cbn [fst snd] in *.
      subst w1 s1. specialize (IH w s).
      destruct (sesion G orden eventos w s) as [[rs w2] s2]. exact IH.
Qed.

(** ** The experiment *)

Lemma poner_app {A : Type} (pre : list A) (v z : A) (zs : list A) :
  poner (length pre) v (pre ++ z :: zs) = pre ++ v :: zs.
Proof.
  induction pre as [|a pre IH]; [reflexivity|].
  cbn [length app poner]. rewrite IH. reflexivity.
Qed.

Lemma fila_copia (m : nat) (h : list nat) :
  forall (pre : list nat) (k : nat),
    (length h <= k)%nat ->
    (length pre + k = m)%nat ->
    fold_left (fun (f : list nat) (jt : nat * nat) =>
                 let (j, tamano) := jt in
                 if (j <? m)%nat then poner j tamano f else f)
              (combine (seq (length pre) (length h)) h) (pre ++ repeat O k)
    = pre ++ h ++ repeat O (k - length h).
Proof.
  induction h as [|x h IH]; intros pre k Hk Hm.
  - cbn [length seq combine fold_left app]. rewrite Nat.sub_0_r. reflexivity.
  - destruct k as [|k]; [cbn [length] in Hk; lia|].
    cbn [length seq combine fold_left repeat].
    replace (length pre <? m)%nat with true
      by (symmetry; apply Nat.ltb_lt; lia).
    rewrite poner_app.
    replace (pre ++ x :: repeat O k) with ((pre ++ [x]) ++ repeat O k)
      by (rewrite <- app_assoc; reflexivity).
    replace (S (length pre)) with (length (pre ++ [x]))
      by (rewrite length_app; cbn [length]; lia).
    rewrite IH.
    + rewrite <- app_assoc. cbn [app length]. reflexivity.
    + cbn [length] in Hk. lia.
    + rewrite length_app. cbn [length]. lia.
Qed.

Lemma fila_relleno (v : nat) (k : nat) :
  forall pre : list nat,
    fold_left (fun (f : list nat) (j : nat) => poner j v f)
              (seq (length pre) k) (pre ++ repeat O k)
    = pre ++ repeat v k.
Proof.
  induction k as [|k IH]; intros pre; [reflexivity|].
  cbn [seq fold_left repeat]. rewrite poner_app.
  replace (pre ++ v :: repeat O k) with ((pre ++ [v]) ++ repeat O k)
    by (rewrite <- app_assoc; reflexivity).
  replace (S (length pre)) with (length (pre ++ [v]))
    by (rewrite length_app; cbn [length]; lia).
  rewrite IH, <- app_assoc. reflexivity.
Qed.

(** A row is the history followed by its last value up to the width. *)
Lemma fila_historia (m : nat) (h : list nat) :
  (length h <= m)%nat ->
  fila m h = h ++ repeat (last h O) (m - length h).
Proof.
  intros H. unfold fila.
  pose proof (fila_copia m h [] m H eq_refl) as C. cbn [length app] in C.
  rewrite C. apply (fila_relleno (last h O) (m - length h) h).
Qed.

Lemma maximo_cota (l : list nat) (m : nat) :
  maximo l = Some m -> In m l /\ Forall (fun x => (x <= m)%nat) l.
Proof.
  destruct l as [|x r]; [discriminate|]. cbn [maximo]. intros H.
  injection H as <-. revert x. induction r as [|y r IH]; intros x.
  - cbn [fold_left]. split; [left; reflexivity|]. repeat constructor.
  - cbn [fold_left]. destruct (IH (Nat.max x y)) as [Hin Hf].
    inversion Hf as [|? ? Hm Hr]; subst. split.
    + destruct Hin as [E|Hin]; [|right; right; exact Hin].
      rewrite <- E.
      destruct (Nat.max_spec x y) as [[_ M]|[_ M]]; rewrite M.
      * right; left; reflexivity.
      * left; reflexivity.
    + constructor; [lia|]. constructor; [lia | exact Hr].
Qed.

Lemma no_creciente_repite (k : nat) (t : nat) :
  forall l : list nat,
    no_creciente (l ++ [t]) -> no_creciente ((l ++ [t]) ++ repeat t k).
Proof.
  induction k as [|k IH]; intros l H.
  - rewrite app_nil_r. exact H.
  - replace ((l ++ [t]) ++ repeat t (S k))
      with (((l ++ [t]) ++ [t]) ++ repeat t k)
      by (rewrite <- !app_assoc; reflexivity).
    apply IH. apply no_creciente_snoc; [exact H | lia].
Qed.

Section ExperimentoSeccion.

Variable G : Azar.
Variable orden : list Combinacion -> list Combinacion.

Lemma bucle_azar_bucle (secreta : Combinacion) (pasadas : nat) :
  forall (sv : MastermindSolver) (s : Estado G),
    fst (bucle_azar G orden secreta pasadas sv s)
    = bucle G orden secreta pasadas sv s.
Proof.
  induction pasadas as [|p IH]; intros sv s; cbn [bucle_azar bucle];
    [reflexivity|].
  destruct (vuelta G orden secreta sv s); [reflexivity | apply IH | reflexivity].
Qed.

Lemma jugar_en_orden (pasadas n : nat) :
  forall (s : Estado G) rs s',
    jugar G orden pasadas n s = inr (rs, s') ->
    length rs = n /\ Forall juego_en_orden rs.
Proof.
  induction n as [|n IH]; intros s rs s' H; cbn [jugar] in H.
  - injection H as <- <-. split; [reflexivity | constructor].
  - destruct (generar_combinacion_aleatoria G s) as [[secreta s1]|];
      [|discriminate].
    pose proof (bucle_azar_bucle secreta pasadas solver_inicial s1) as B.
    destruct (bucle_azar G orden secreta pasadas solver_inicial s1)
      as [[[k h]| |] s2]; try discriminate. cbn [fst] in B.
    destruct (jugar G orden pasadas n s2) as [e|[rs0 s3]] eqn:J;
      [discriminate|].
    injection H as <- <-. destruct (IH s2 rs0 s3 J) as [L F].
    split; [cbn [length]; lia|]. constructor; [|exact F].
    symmetry in B.
    destruct (bucle_historia G orden secreta pasadas solver_inicial s1 k h
                historia_al_dia_inicial B) as [H1 H2].
    destruct (bucle_historia_ordenada G orden secreta pasadas solver_inicial
                s1 k h (historia_ordenada_inicial secreta) B)
      as (H3 & H4 & _).
    unfold juego_en_orden. cbn [fst snd]. repeat split; auto.
    destruct h as [|x h] using rev_ind; [discriminate H2|]. eauto.
Qed.

(** X26: when the experiment returns, it was asked for at least one game;
    it has one attempt count, one history and one row per game; each
    attempt count is the length of its history; [max_intentos] is the largest
    attempt count, reached by some game; and each row is the game's history
    followed by its last size up to [max_intentos] columns, so every row has
    [max_intentos] entries, starts at 1296 and never increases. *)
Theorem ejecutar_experimento_resultado :
  forall (pasadas : nat) (n_juegos : Z) (s : Estado G) r s',
    ejecutar_experimento_n_juegos G orden pasadas n_juegos s
    = ResultadoExperimento r s' ->
    1 <= n_juegos
    /\ length (intentos_por_juego r) = Z.to_nat n_juegos
    /\ intentos_por_juego r = map (@length nat) (todas_historias r)
    /\ In (max_intentos r) (intentos_por_juego r)
    /\ Forall (fun k => (k <= max_intentos r)%nat) (intentos_por_juego r)
    /\ espacio_por_intento r
       = map (fun h => h ++ repeat (last h O) (max_intentos r - length h))
           (todas_historias r)
    /\ Forall (fun f => length f = max_intentos r
                        /\ nth_error f 0 = Some 1296%nat
                        /\ no_creciente f)
         (espacio_por_intento r).
Proof.
  intros pasadas n_juegos s r s'. unfold ejecutar_experimento_n_juegos.
  destruct (jugar G orden pasadas (Z.to_nat n_juegos) s) as [[|]|[rs s1]] eqn:J;
    try discriminate.
  destruct (jugar_en_orden _ _ _ _ _ J) as [L F].
  destruct (maximo (map (@length nat) (map snd rs))) as [m|] eqn:M;
    [|discriminate].
  intros H. injection H as <- <-.
  cbn [intentos_por_juego todas_historias max_intentos espacio_por_intento].
  destruct (maximo_cota _ _ M) as [Hin Hle].
  assert (E : map fst rs = map (@length nat) (map snd rs)).
  { rewrite map_map. apply map_ext_in. intros a Ha.
    rewrite Forall_forall in F. symmetry. apply (F a Ha). }
  split.
  { destruct (Z.to_nat n_juegos) eqn:N; [|lia].
    destruct rs; [discriminate M | discriminate L]. }
  split; [rewrite length_map; exact L|]. split; [exact E|].
  rewrite E. split; [exact Hin|]. split; [exact Hle|].
  assert (R : map (fila m) (map snd rs)
              = map (fun h => h ++ repeat (last h O) (m - length h))
                  (map snd rs)).
  { apply map_ext_in. intros h Hh. apply fila_historia.
    rewrite Forall_forall in Hle. apply Hle. apply in_map. exact Hh. }
  split; [exact R|]. rewrite R. rewrite map_map. apply Forall_map.
  rewrite Forall_forall in F, Hle |- *. intros a Ha.
  destruct (F a Ha) as (_ & _ & (l & t & Hl) & H0 & Hnc).
  assert (Hlen : (length (snd a) <= m)%nat).
  { apply Hle. rewrite map_map. apply (in_map (fun x => length (snd x))).
    exact Ha. }
  split; [|split].
  - rewrite length_app, repeat_length. lia.
  - rewrite nth_error_app1; [exact H0|].
    rewrite Hl, length_app. cbn [length]. lia.
  - rewrite Hl, last_last. apply no_creciente_repite. rewrite <- Hl. exact Hnc.
Qed.

(** X27: asked for no game, or for a negative number of games, the
    experiment raises (the [max] over no history) whatever the generator. *)
Theorem ejecutar_experimento_sin_juegos :
  forall (pasadas : nat) (n_juegos : Z) (s : Estado G),
    n_juegos <= 0 ->
    ejecutar_experimento_n_juegos G orden pasadas n_juegos s
    = ExcepcionExperimento.
Proof.
  intros pasadas n_juegos s H. unfold ejecutar_experimento_n_juegos.
  replace (Z.to_nat n_juegos) with O by lia. reflexivity.
Qed.

End ExperimentoSeccion.

(** ** The further properties at concrete inputs *)

Lemma actualizar_con_feedback_conmuta_witness :
  snd (actualizar_con_feedback MastermindKB_nueva apertura 0 0) = SinAviso
  /\ snd (actualizar_con_feedback
            (fst (actualizar_con_feedback MastermindKB_nueva apertura 0 0))
            (blanco, blanco, negro, negro) 1 2) = SinAviso
  /\ snd (actualizar_con_feedback MastermindKB_nueva
            (blanco, blanco, negro, negro) 1 2) = SinAviso
  /\ actualizar_con_feedback
       (fst (actualizar_con_feedback MastermindKB_nueva
               (blanco, blanco, negro, negro) 1 2)) apertura 0 0
     = actualizar_con_feedback
         (fst (actualizar_con_feedback MastermindKB_nueva apertura 0 0))
         (blanco, blanco, negro, negro) 1 2.
Proof.
  assert (H1 : snd (actualizar_con_feedback MastermindKB_nueva apertura 0 0)
               = SinAviso) by (vm_compute; reflexivity).
  assert (H2 : snd (actualizar_con_feedback
                      (fst (actualizar_con_feedback MastermindKB_nueva
                              apertura 0 0))
                      (blanco, blanco, negro, negro) 1 2) = SinAviso)
    by (vm_compute; reflexivity).
  split; [exact H1|]. split; [exact H2|].
  exact (actualizar_con_feedback_conmuta MastermindKB_nueva apertura 0 0
           (blanco, blanco, negro, negro) 1 2 H1 H2).
Defined.

Lemma actualizar_con_feedback_descarta_witness :
  snd (actualizar_con_feedback MastermindKB_nueva apertura 0 0) = SinAviso
  /\ ~ In apertura
         (combinaciones_posibles
            (fst (actualizar_con_feedback MastermindKB_nueva apertura 0 0))).
Proof.
  assert (H : snd (actualizar_con_feedback MastermindKB_nueva apertura 0 0)
              = SinAviso) by (vm_compute; reflexivity).
  split; [exact H|].
  apply (proj1 (actualizar_con_feedback_descarta
                  MastermindKB_nueva apertura 0 0 H)).
  discriminate.
Defined.

Lemma evaluar_sondas_elige_primer_minimo_witness :
  evaluar_sondas azar_cero (fun l => l)
    [(azul, azul, rojo, azul); (rojo, rojo, azul, azul);
     (verde, azul, rojo, azul); (azul, verde, verde, azul)]
    [(azul, azul, azul, azul); (azul, rojo, verde, negro);
     (verde, azul, rojo, negro)] None None tt
  = Some (Some (azul, rojo, verde, negro), tt)
  /\ exists ps,
       puntuar azar_cero (fun l => l)
         [(azul, azul, rojo, azul); (rojo, rojo, azul, azul);
          (verde, azul, rojo, azul); (azul, verde, verde, azul)]
         [(azul, azul, azul, azul); (azul, rojo, verde, negro);
          (verde, azul, rojo, negro)] tt
       = Some (ps, tt)
       /\ length ps = 3%nat.
Proof.
  assert (H : evaluar_sondas azar_cero (fun l => l)
                [(azul, azul, rojo, azul); (rojo, rojo, azul, azul);
                 (verde, azul, rojo, azul); (azul, verde, verde, azul)]
                [(azul, azul, azul, azul); (azul, rojo, verde, negro);
                 (verde, azul, rojo, negro)] None None tt
              = Some (Some (azul, rojo, verde, negro), tt))
    by (vm_compute; reflexivity).
  split; [exact H|].
  destruct (evaluar_sondas_elige_primer_minimo azar_cero (fun l => l)
              _ _ tt _ tt H) as (ps & Hp & L & _).
  exists ps. split; [exact Hp | exact L].
Defined.

Lemma siguiente_combinacion_no_lanza_witness :
  (forall l : list Combinacion, Permutation ((fun l => l) l) l)
  /\ (20 <= length (todas_combinaciones MastermindKB_nueva))%nat
  /\ exists g s',
       siguiente_combinacion azar_cero (fun l => l) MastermindKB_nueva tt
       = Some (g, s').
Proof.
  assert (P : forall l : list Combinacion, Permutation ((fun l => l) l) l)
    by (intros l; apply Permutation_refl).
  assert (H : (20 <= length (todas_combinaciones MastermindKB_nueva))%nat).
  { unfold MastermindKB_nueva. cbn [todas_combinaciones].
    rewrite length_producto. lia. }
  split; [exact P|]. split; [exact H|].
  exact (siguiente_combinacion_no_lanza azar_cero (fun l => l) P
           MastermindKB_nueva tt H).
Defined.

Lemma siguiente_combinacion_candidata_witness :
  siguiente_combinacion azar_cero (fun l => l)
    (mkKB producto [(azul, azul, rojo, azul); (rojo, rojo, azul, azul)]) tt
  = Some ((azul, azul, rojo, azul), tt)
  /\ In (azul, azul, rojo, azul)
        [(azul, azul, rojo, azul); (rojo, rojo, azul, azul)].
Proof.
  assert (P : forall l : list Combinacion, Permutation ((fun l => l) l) l)
    by (intros l; apply Permutation_refl).
  assert (H : siguiente_combinacion azar_cero (fun l => l)
                (mkKB producto
                   [(azul, azul, rojo, azul); (rojo, rojo, azul, azul)]) tt
              = Some ((azul, azul, rojo, azul), tt))
    by (vm_compute; reflexivity).
  split; [exact H|].
  refine (proj1 (siguiente_combinacion_candidata azar_cero (fun l => l) P
                   (mkKB producto
                      [(azul, azul, rojo, azul); (rojo, rojo, azul, azul)])
                   tt _ _ _ _ _ H)).
  - discriminate.
  - cbn [combinaciones_posibles todas_combinaciones length].
    rewrite length_producto. discriminate.
  - cbn [combinaciones_posibles length]. lia.
Defined.

Lemma modo_automatico_historia_no_creciente_witness :
  modo_automatico azar_cero (fun l => l) (azul, azul, rojo, azul) 1296 tt
  = Devuelve (4%nat, [1296; 20; 8; 1]%nat)
  /\ no_creciente [1296; 20; 8; 1]%nat.
Proof.
  assert (H : modo_automatico azar_cero (fun l => l) (azul, azul, rojo, azul)
                1296 tt
              = Devuelve (4%nat, [1296; 20; 8; 1]%nat))
    by (vm_compute; reflexivity).
  split; [exact H|].
  exact (proj1 (proj2 (modo_automatico_historia_no_creciente azar_cero
                         (fun l => l) (azul, azul, rojo, azul)
                         1296%nat tt 4%nat [1296; 20; 8; 1]%nat H))).
Defined.

Lemma bucle_termina_con_pocas_witness :
  exists n h,
    bucle azar_cero (fun l => l) (azul, azul, rojo, azul) 3
      (mkSolver
         (mkKB producto
            [(azul, azul, rojo, azul); (rojo, rojo, azul, azul);
             (verde, azul, rojo, azul)])
         1 [1296; 3]%nat) tt
    = Devuelve (n, h)
    /\ (n <= 1 + 3)%nat.
Proof.
  assert (P : forall l : list Combinacion, Permutation ((fun l => l) l) l)
    by (intros l; apply Permutation_refl).
  refine (bucle_termina_con_pocas azar_cero (fun l => l)
            (azul, azul, rojo, azul) P
            (mkSolver
               (mkKB producto
                  [(azul, azul, rojo, azul); (rojo, rojo, azul, azul);
                   (verde, azul, rojo, azul)])
               1 [1296; 3]%nat) tt _ _ _).
  - left. reflexivity.
  - cbn [kb combinaciones_posibles length]. lia.
  - cbn [kb todas_combinaciones]. rewrite length_producto. lia.
Defined.

Lemma evaluate_definida_witness :
  exists b,
    evaluate (Implication (Symbol "azul_0")
                (Or [Symbol "rojo_1"; Not (Symbol "azul_0")]))
      (fun name => if String.eqb name "azul_0" then Some true
                   else if String.eqb name "rojo_1" then Some false
                   else None)
    = Some b.
Proof.
  apply evaluate_definida.
  intros name [<-|[<-|[<-|[]]]]; eexists; reflexivity.
Defined.

Lemma evaluate_lanza_witness :
  evaluate (And [Symbol "azul_0"; Symbol "rojo_1"])
    (fun name => if String.eqb name "azul_0" then Some true else None)
  = None
  /\ exists name,
       In name (symbols (And [Symbol "azul_0"; Symbol "rojo_1"]))
       /\ (fun name => if String.eqb name "azul_0" then Some true else None)
            name = None.
Proof.
  assert (H : evaluate (And [Symbol "azul_0"; Symbol "rojo_1"])
                (fun name => if String.eqb name "azul_0" then Some true
                             else None) = None) by reflexivity.
  split; [exact H|]. exact (evaluate_lanza _ _ H).
Defined.

Lemma evaluate_solo_symbols_witness :
  evaluate (Not (Symbol "azul_0"))
    (fun name => if String.eqb name "azul_0" then Some true else None)
  = evaluate (Not (Symbol "azul_0"))
      (fun name => if String.eqb name "azul_0" then Some true else Some false).
Proof.
  apply evaluate_solo_symbols. intros name [<-|[]]. reflexivity.
Defined.

Lemma sesion_ventana_en_orden_witness :
  ventana_en_orden
    (snd (fst (sesion azar_cero (fun l => l)
                 [EnviarRetroalimentacion (Some 1) (Some 1); IniciarJuego;
                  EnviarRetroalimentacion (Some 1) (Some 1);
                  EnviarRetroalimentacion (Some 3) (Some 2)]
                 ventana_inicial tt))).
Proof.
  exact (proj1 (sesion_ventana_en_orden azar_cero (fun l => l)
                  (fun l => Permutation_refl l) _ tt)).
Defined.

Lemma sesion_intentos_informados_witness :
  last (fst (fst (sesion azar_cero (fun l => l)
                    (IniciarJuego
                     :: map (fun f : Z * Z =>
                               EnviarRetroalimentacion
                                 (Some (fst f)) (Some (snd f)))
                          [(1, 1); (3, 2)]
                        ++ [EnviarRetroalimentacion (Some 4) (Some 0)])
                    ventana_inicial tt)))
       ErrorNumerico
  = Exito 1.
Proof.
  exact (sesion_intentos_informados azar_cero (fun l => l)
           (fun l => Permutation_refl l) [(1, 1); (3, 2)] tt).
Defined.

Lemma ejecutar_experimento_resultado_witness :
  exists r s',
    ejecutar_experimento_n_juegos azar_cero (fun l => l) 50 2 tt
    = ResultadoExperimento r s'
    /\ 1 <= 2
    /\ length (intentos_por_juego r) = Z.to_nat 2.
Proof.
  destruct (ejecutar_experimento_n_juegos azar_cero (fun l => l) 50 2 tt)
    as [r s'| |] eqn:E;
    [| vm_compute in E; discriminate E | vm_compute in E; discriminate E].
  exists r, s'. split; [reflexivity|].
  destruct (ejecutar_experimento_resultado azar_cero (fun l => l)
              50%nat 2 tt r s' E) as (H1 & H2 & _).
  split; [exact H1 | exact H2].
Defined.

Lemma ejecutar_experimento_sin_juegos_witness :
  0 <= 0
  /\ ejecutar_experimento_n_juegos azar_cero (fun l => l) 50 0 tt
     = ExcepcionExperimento.
Proof.
  assert (H : 0 <= 0) by lia.
  split; [exact H|].
  exact (ejecutar_experimento_sin_juegos azar_cero (fun l => l) 50%nat 0 tt H).
Defined.
